(** * news_feed: the fetch / dedupe / prune pipeline and its HTTP handlers

    A shallow embedding of [database.js] (the sql.js tables and the prepared
    statements of [userQueries], [sourceQueries], [articleQueries]), of the
    Express server that sits on it ([fetchArticles], the CORS middleware,
    the handlers of /api/auth, /api/sources, /api/feed, /api/fetch and
    /api/stocks), of the summary helper [utils/ai.js] and of the loop of
    [fetchArticles] in the JSON-file server.

    Conventions.
    - A JavaScript string is a [string]; one [ascii] stands for one UTF-16
      code unit, so the model covers code units below 256.
    - A value that may be [undefined] or [null] is an [option].
    - A JavaScript exception is the [Throw] case of [outcome]; what a
      statement had already written when it threw stays written.
    - [saveDatabase] serialises the in-memory database to a file. It does
      not change the tables; it does renew the connection, and with it
      what the connection reports of its last statement. *)

From Stdlib Require Import List String Ascii Bool Arith ZArith Lia.
From Stdlib Require Import Sorted Permutation DecimalString DecimalNat.
Import ListNotations.
Open Scope string_scope.
Open Scope nat_scope.
Open Scope list_scope.

(** ** JavaScript values *)

Module Js.

Inductive outcome (A : Type) : Type :=
| Ok (a : A)
| Throw (message : string).
Arguments Ok {A} a.
Arguments Throw {A} message.

(** [!v] for a string that may be missing: [undefined], [null] and the
    empty string are falsy. *)
Definition falsy (v : option string) : bool :=
  match v with
  | None => true
  | Some s => (s =? "")%string
  end.

(** [a || b] on strings that may be missing. *)
Definition or_else (a b : option string) : option string :=
  if falsy a then b else a.

(** The code units below 256 that [toLowerCase] changes: the letters A
    to Z and the capital letters of Latin-1, U+00C0 to U+00DE without the
    multiplication sign U+00D7. *)
Definition is_upper (c : ascii) : bool :=
  let n := nat_of_ascii c in
  ((65 <=? n) && (n <=? 90)) ||
  ((192 <=? n) && (n <=? 222) && negb (n =? 215)).

(** Each of them has its small letter 32 places further on. *)
Definition lower_char (c : ascii) : ascii :=
  if is_upper c then ascii_of_nat (nat_of_ascii c + 32) else c.

(** [s.toLowerCase()], on code units below 256. *)
Fixpoint toLowerCase (s : string) : string :=
  match s with
  | EmptyString => EmptyString
  | String c s' => String (lower_char c) (toLowerCase s')
  end.

(** [s.substring(0, n)] and [s.slice(0, n)] for a literal [n >= 0]. *)
Definition prefix (n : nat) (s : string) : string := String.substring 0 n s.

(** Template-literal rendering of a non-negative integer. *)
Definition show_nat (n : nat) : string :=
  NilEmpty.string_of_uint (Nat.to_uint n).

Definition is_digit (c : ascii) : bool :=
  let n := nat_of_ascii c in (48 <=? n) && (n <=? 57).

End Js.

(** ** JavaScript regular expressions, as far as [privatePatterns] uses them *)

Module Regex.

Inductive regex : Type :=
| Void                       (* matches nothing; arises in derivatives *)
| Eps                        (* the empty string *)
| Chr (c : ascii)            (* a literal character *)
| Digit                      (* \d *)
| Class (lo hi : ascii)      (* [lo-hi] *)
| Any                        (* any one character *)
| Seq (r1 r2 : regex)
| Alt (r1 r2 : regex)
| Star (r : regex).

(** [r+] *)
Definition Plus (r : regex) : regex := Seq r (Star r).

(** A run of literal characters. *)
Fixpoint Str (s : string) : regex :=
  match s with
  | EmptyString => Eps
  | String c s' => Seq (Chr c) (Str s')
  end.

Fixpoint nullable (r : regex) : bool :=
  match r with
  | Void => false
  | Eps => true
  | Chr _ => false
  | Digit => false
  | Class _ _ => false
  | Any => false
  | Seq r1 r2 => nullable r1 && nullable r2
  | Alt r1 r2 => nullable r1 || nullable r2
  | Star _ => true
  end.

Definition in_class (lo hi c : ascii) : bool :=
  (nat_of_ascii lo <=? nat_of_ascii c) && (nat_of_ascii c <=? nat_of_ascii hi).

(** One character against one literal; flag [i] compares letters
    without regard to case. *)
Definition chr_eqb (i : bool) (lit c : ascii) : bool :=
  if i then Ascii.eqb (Js.lower_char lit) (Js.lower_char c)
  else Ascii.eqb lit c.

(** The residual of [r] after reading [c]. *)
Fixpoint deriv (i : bool) (c : ascii) (r : regex) : regex :=
  match r with
  | Void => Void
  | Eps => Void
  | Chr l => if chr_eqb i l c then Eps else Void
  | Digit => if Js.is_digit c then Eps else Void
  | Class lo hi => if in_class lo hi c then Eps else Void
  | Any => Eps
  | Seq r1 r2 =>
      if nullable r1
      then Alt (Seq (deriv i c r1) r2) (deriv i c r2)
      else Seq (deriv i c r1) r2
  | Alt r1 r2 => Alt (deriv i c r1) (deriv i c r2)
  | Star r1 => Seq (deriv i c r1) (Star r1)
  end.

(** The whole of [s] is a word of [r]. *)
Fixpoint matches (i : bool) (r : regex) (s : string) : bool :=
  match s with
  | EmptyString => nullable r
  | String c s' => matches i (deriv i c r) s'
  end.

(** A pattern literal [/^body$/flags]; every pattern of the source ends
    in [$], and [from_start] says whether it begins with [^]. *)
Record pattern : Type := {
  from_start : bool;
  body : regex;
  ignore_case : bool
}.

(** [pattern.test(s)]: some substring that ends where [s] ends, and
    begins where [s] begins when the pattern has [^], is a word of the
    body. *)
Definition test (p : pattern) (s : string) : bool :=
  matches (ignore_case p)
          (if from_start p then body p else Seq (Star Any) (body p)) s.

End Regex.

(** The words of a regular expression, the reference for [matches]. *)

Module Language.
Import Regex.

Inductive lang (i : bool) : regex -> string -> Prop :=
| L_Eps : lang i Eps ""
| L_Chr (l c : ascii) : chr_eqb i l c = true -> lang i (Chr l) (String c "")
| L_Digit (c : ascii) : Js.is_digit c = true -> lang i Digit (String c "")
| L_Class (lo hi c : ascii) :
  in_class lo hi c = true -> lang i (Class lo hi) (String c "")
| L_Any (c : ascii) : lang i Any (String c "")
| L_Seq (r1 r2 : regex) (s1 s2 : string) :
  lang i r1 s1 -> lang i r2 s2 -> lang i (Seq r1 r2) (String.append s1 s2)
| L_AltL (r1 r2 : regex) (s : string) : lang i r1 s -> lang i (Alt r1 r2) s
| L_AltR (r1 r2 : regex) (s : string) : lang i r2 s -> lang i (Alt r1 r2) s
| L_Star0 (r : regex) : lang i (Star r) ""
| L_StarS (r : regex) (s1 s2 : string) :
  lang i r s1 -> lang i (Star r) s2 -> lang i (Star r) (String.append s1 s2).

End Language.

(** ** SQL values and clauses *)

Module Sql.

(** Order of TEXT values under the BINARY collation; NULL sorts below
    every text. *)
Definition text_leb (a b : option string) : bool :=
  match a, b with
  | None, _ => true
  | Some _, None => false
  | Some x, Some y => String.leb x y
  end.

Section OrderBy.
Context {row : Type}.
Variable leb : row -> row -> bool.

Fixpoint place (r : row) (sorted : list row) : list row :=
  match sorted with
  | [] => [r]
  | x :: rest => if leb r x then r :: sorted else x :: place r rest
  end.

(** [ORDER BY]. SQL leaves the order among rows that compare equal open;
    here they keep the order of the scan. *)
Definition order_by (rows : list row) : list row :=
  fold_right place [] rows.
End OrderBy.

(** [LIMIT n]; a negative [n] is no limit. *)
Definition limit {row : Type} (n : Z) (rows : list row) : list row :=
  if (n <? 0)%Z then rows else firstn (Z.to_nat n) rows.

(** The rowid an AUTOINCREMENT table gives its next row: one more than
    the largest rowid the table has ever held. *)
Definition next_rowid (seq : Z) (rowids : list Z) : Z :=
  (fold_right Z.max seq rowids + 1)%Z.

(** What a connection reports of the statements it has run:
    [last_insert_rowid()] and [getRowsModified()]. *)
Record connection : Type := {
  last_insert_rowid : Z;
  getRowsModified : nat
}.

(** A connection that has run no statement. *)
Definition fresh : connection :=
  {| last_insert_rowid := 0; getRowsModified := 0 |}.

End Sql.

(** ** database.js *)

Module Database.
Import Js.

(** Table [users]. *)
Record user : Type := {
  u_id : string;
  u_email : string;
  u_password : string;
  u_created_at : string
}.

(** Table [sources]. *)
Record source : Type := {
  s_id : Z;
  s_user_id : string;
  s_name : string;
  s_url : string;
  s_type : string;
  s_enabled : Z;
  s_created_at : string
}.

(** Table [articles]. *)
Record article : Type := {
  a_id : Z;
  a_user_id : string;
  a_source_id : option Z;
  a_source_name : option string;
  a_title : string;
  a_link : string;
  a_summary : option string;
  a_published_at : option string;
  a_fetched_at : string
}.

(** The database [db]: the three tables in rowid order and the
    AUTOINCREMENT counters of [sources] and [articles]. *)
Record database : Type := {
  users : list user;
  sources : list source;
  articles : list article;
  seq_sources : Z;
  seq_articles : Z
}.

Definition empty : database :=
  {| users := []; sources := []; articles := [];
     seq_sources := 0; seq_articles := 0 |}.

Definition with_users (us : list user) (d : database) : database :=
  {| users := us; sources := sources d; articles := articles d;
     seq_sources := seq_sources d; seq_articles := seq_articles d |}.

Definition with_sources (ss : list source) (seq : Z) (d : database) : database :=
  {| users := users d; sources := ss; articles := articles d;
     seq_sources := seq; seq_articles := seq_articles d |}.

Definition with_articles (ar : list article) (seq : Z) (d : database) : database :=
  {| users := users d; sources := sources d; articles := ar;
     seq_sources := seq_sources d; seq_articles := seq |}.

(** [saveDatabase()]. [db.export()] closes the connection and opens the
    database again from the image it wrote: the tables are the same, the
    connection is a fresh one. Every function that writes ends with it,
    and so does [initializeDatabase], so every statement starts on a
    fresh connection. *)
Definition saveDatabase (conn : Sql.connection) : Sql.connection := Sql.fresh.

(** Every inserting statement takes [now], the value [datetime('now')]
    has when the statement runs. *)

Module userQueries.

(** [INSERT INTO users (id, email, password)]; [id] is the primary key and
    [email] is UNIQUE. *)
Definition create (id email password now : string) (d : database)
  : outcome database :=
  if existsb (fun u => (u_email u =? email)%string) (users d)
  then Throw "UNIQUE constraint failed: users.email"
  else if existsb (fun u => (u_id u =? id)%string) (users d)
  then Throw "UNIQUE constraint failed: users.id"
  else Ok (with_users
             (users d ++ [{| u_id := id; u_email := email;
                             u_password := password; u_created_at := now |}])
             d).

(** [SELECT * FROM users WHERE email = ?], first row or [null]. *)
Definition findByEmail (email : string) (d : database) : option user :=
  find (fun u => (u_email u =? email)%string) (users d).

(** The columns [findById] selects: the password stays behind. *)
Record user_public : Type := {
  p_id : string;
  p_email : string;
  p_created_at : string
}.

(** [SELECT id, email, created_at FROM users WHERE id = ?], first row or
    [null]. *)
Definition findById (id : string) (d : database) : option user_public :=
  match find (fun u => (u_id u =? id)%string) (users d) with
  | Some u =>
      Some {| p_id := u_id u; p_email := u_email u;
              p_created_at := u_created_at u |}
  | None => None
  end.

End userQueries.

Module sourceQueries.

(** [INSERT INTO sources (user_id, name, url, type, enabled)], then
    [saveDatabase()]; the result is [lastInsertRowid], read with
    [SELECT last_insert_rowid()] from the connection [saveDatabase]
    leaves. *)
Definition create (user_id name url type : string) (enabled : Z)
  (now : string) (d : database) : Z * database :=
  let id := Sql.next_rowid (seq_sources d) (map s_id (sources d)) in
  let d' :=
    with_sources
      (sources d ++ [{| s_id := id; s_user_id := user_id; s_name := name;
                        s_url := url; s_type := type; s_enabled := enabled;
                        s_created_at := now |}])
      id d in
  let conn :=
    saveDatabase {| Sql.last_insert_rowid := id; Sql.getRowsModified := 1 |} in
  (Sql.last_insert_rowid conn, d').

(** [SELECT * FROM sources WHERE user_id = ? ORDER BY created_at DESC] *)
Definition findByUser (user_id : string) (d : database) : list source :=
  Sql.order_by (fun r1 r2 => String.leb (s_created_at r2) (s_created_at r1))
    (filter (fun s => (s_user_id s =? user_id)%string) (sources d)).

(** [SELECT * FROM sources WHERE id = ? AND user_id = ?], first row or
    [null]. *)
Definition findById (id : Z) (user_id : string) (d : database) : option source :=
  find (fun s => (s_id s =? id)%Z && (s_user_id s =? user_id)%string) (sources d).

(** The rows [DELETE FROM sources WHERE id = ? AND user_id = ?] removes;
    [id] is [None] when the bound number is NaN, which equals no rowid. *)
Definition delete_hits (id : option Z) (user_id : string) (s : source) : bool :=
  match id with
  | Some i => (s_id s =? i)%Z && (s_user_id s =? user_id)%string
  | None => false
  end.

(** The statement, then [saveDatabase()]; the result is [changes], read
    with [db.getRowsModified()] from the connection [saveDatabase]
    leaves. *)
Definition delete (id : option Z) (user_id : string) (d : database)
  : nat * database :=
  let d' :=
    with_sources (filter (fun s => negb (delete_hits id user_id s)) (sources d))
      (seq_sources d) d in
  let conn :=
    saveDatabase
      {| Sql.last_insert_rowid := 0;
         Sql.getRowsModified :=
           List.length (filter (delete_hits id user_id) (sources d)) |} in
  (Sql.getRowsModified conn, d').

End sourceQueries.

Module articleQueries.

(** [INSERT INTO articles (user_id, source_id, source_name, title, link,
    summary, published_at)]. [db.run] binds the values before it runs the
    statement, and sql.js throws on a value that is [undefined]; of the
    values its caller passes, [title], [link] and [published_at] can be.
    [link] is UNIQUE over the whole table, and [fetched_at] takes its
    default [datetime('now')]. *)
Definition create (user_id : string) (source_id : Z) (source_name : string)
  (title link : option string) (summary : string)
  (published_at : option string)
  (now : string) (d : database) : outcome database :=
  match title, link, published_at with
  | Some title', Some link', Some published_at' =>
      if existsb (fun a => (a_link a =? link')%string) (articles d)
      then Throw "UNIQUE constraint failed: articles.link"
      else
        let id := Sql.next_rowid (seq_articles d) (map a_id (articles d)) in
        Ok (with_articles
              (articles d ++ [{| a_id := id; a_user_id := user_id;
                                 a_source_id := Some source_id;
                                 a_source_name := Some source_name;
                                 a_title := title'; a_link := link';
                                 a_summary := Some summary;
                                 a_published_at := Some published_at';
                                 a_fetched_at := now |}])
              id d)
  | _, _, _ =>
      Throw "Wrong API use : tried to bind a value of an unknown type (undefined)."
  end.

Definition of_user (user_id : string) (a : article) : bool :=
  (a_user_id a =? user_id)%string.

(** [SELECT * FROM articles WHERE user_id = ? ORDER BY published_at DESC] *)
Definition findByUser (user_id : string) (d : database) : list article :=
  Sql.order_by
    (fun r1 r2 => Sql.text_leb (a_published_at r2) (a_published_at r1))
    (filter (of_user user_id) (articles d)).

(** [SELECT * FROM articles WHERE link = ?], first row or [null]. *)
Definition findByLink (link : string) (d : database) : option article :=
  find (fun a => (a_link a =? link)%string) (articles d).

(** [SELECT id FROM articles WHERE user_id = ? ORDER BY fetched_at ASC
    LIMIT ?], the subquery of [deleteOldest]. *)
Definition oldest_ids (user_id : string) (count : Z) (d : database) : list Z :=
  map a_id
    (Sql.limit count
       (Sql.order_by (fun r1 r2 => String.leb (a_fetched_at r1) (a_fetched_at r2))
          (filter (of_user user_id) (articles d)))).

(** [DELETE FROM articles WHERE id IN (...)] *)
Definition deleteOldest (user_id : string) (count : Z) (d : database)
  : database :=
  let ids := oldest_ids user_id count d in
  with_articles
    (filter (fun a => negb (existsb (Z.eqb (a_id a)) ids)) (articles d))
    (seq_articles d) d.

(** [SELECT COUNT( * ) as count FROM articles WHERE user_id = ?] *)
Definition countByUser (user_id : string) (d : database) : nat :=
  List.length (filter (of_user user_id) (articles d)).

End articleQueries.

End Database.

(** ** The server: summaries, feeds, [fetchArticles] *)

Module Server.
Import Js Database.

Definition MAX_ARTICLES : nat := 200.

(** [summarizeArticle(content)] *)
Definition summarizeArticle (content : option string) : string :=
  if falsy content then ""
  else match content with
       | Some s => prefix 150 s
       | None => ""
       end.

(** An item as [rss-parser] hands it over: a field the feed does not
    give is [undefined]. *)
Record feed_item : Type := {
  i_title : option string;
  i_link : option string;
  i_pubDate : option string;
  i_contentSnippet : option string;
  i_content : option string
}.

(** An item as [fetchSource] returns it. *)
Record item : Type := {
  title : option string;
  link : option string;
  published : option string;
  content : option string
}.

(** What a run of the server cannot decide by itself:
    - [parseURL url], the outcome of [parser.parseURL(url)];
    - [datetime_now n], the value of [datetime('now')] when the article
      that becomes new article number [n] of a fetch is inserted;
    - [db_error], the message of an exception that the database layer
      raises at the first statement after the loop over the sources, the
      count, if it raises one there. *)
Record world : Type := {
  parseURL : string -> outcome (list feed_item);
  datetime_now : nat -> string;
  db_error : option string
}.

(** [fetchSource(source)] *)
Definition fetchSource (w : world) (src : source) : outcome (list item) :=
  if (s_type src =? "rss")%string then
    match parseURL w (s_url src) with
    | Throw e => Throw e
    | Ok items =>
        Ok (map (fun i =>
                   {| title := i_title i;
                      link := i_link i;
                      published := i_pubDate i;
                      content := or_else (or_else (i_contentSnippet i) (i_content i))
                                         (Some "") |})
                items)
    end
  else Ok [].

(** The variables a fetch works on between the two ends of its loop: the
    database, the set [existingLinks] and the counter [newCount]. *)
Record progress : Type := {
  db_of : database;
  existingLinks : list string;
  newCount : nat
}.

(** [existingLinks.has(l)] *)
Definition has (l : string) (links : list string) : bool :=
  existsb (String.eqb l) links.

(** [existingLinks.has(v)] for a value that may be [undefined]; the set
    holds links of stored rows, which are strings. *)
Definition has_value (v : option string) (links : list string) : bool :=
  match v with
  | Some l => has l links
  | None => false
  end.

(** [existingLinks.add(v)], reached with the link of a row just
    inserted. *)
Definition add_value (v : option string) (links : list string) : list string :=
  match v with
  | Some l => l :: links
  | None => links
  end.

(** The loop [for (const it of items)]. An exception of
    [articleQueries.create] leaves the loop; the second component is its
    message. *)
Fixpoint for_items (w : world) (userId : string) (src : source)
  (items : list item) (st : progress) : progress * option string :=
  match items with
  | [] => (st, None)
  | it :: rest =>
      if has_value (link it) (existingLinks st)
      then for_items w userId src rest st
      else
        let summary := summarizeArticle (content it) in
        match articleQueries.create userId (s_id src) (s_name src) (title it)
                (link it) summary (published it)
                (datetime_now w (newCount st)) (db_of st) with
        | Throw e => (st, Some e)
        | Ok d =>
            for_items w userId src rest
              {| db_of := d;
                 existingLinks := add_value (link it) (existingLinks st);
                 newCount := S (newCount st) |}
        end
  end.

(** One turn of the loop [for (const src of sources)]: the inner [try]
    with its [catch], which logs and goes on with the next source. *)
Definition for_source (w : world) (userId : string) (st : progress)
  (src : source) : progress :=
  match fetchSource w src with
  | Throw _ => st
  | Ok items => fst (for_items w userId src items st)
  end.

(** The sources a fetch visits: [findByUser(userId).filter(s => s.enabled)]. *)
Definition enabled_sources (userId : string) (d : database) : list source :=
  filter (fun s => negb (s_enabled s =? 0)%Z) (sourceQueries.findByUser userId d).

(** The set [new Set(existingArticles.map(a => a.link))]. *)
Definition links_of (userId : string) (d : database) : list string :=
  map a_link (articleQueries.findByUser userId d).

(** The count check and the call of [deleteOldest] after the loop. *)
Definition prune (userId : string) (d : database) : database :=
  let count := articleQueries.countByUser userId d in
  if MAX_ARTICLES <? count
  then articleQueries.deleteOldest userId (Z.of_nat (count - MAX_ARTICLES)) d
  else d.

Record result : Type := {
  success : bool;
  message : string
}.

Definition busy : result :=
  {| success := false; message := "Fetch already in progress" |}.

(** The statements after the loop, with the outer [catch]. *)
Definition conclude (w : world) (userId : string) (st : progress)
  : result * database :=
  match db_error w with
  | Some e => ({| success := false; message := e |}, db_of st)
  | None =>
      let d := prune userId (db_of st) in
      let total := articleQueries.countByUser userId d in
      ({| success := true;
          message := "Fetched " ++ show_nat (newCount st)
                     ++ " new articles. Total: " ++ show_nat total |}%string,
       d)
  end.

(** The state of the Node process: the module variable [isRunning] and
    the database. *)
Record process : Type := {
  isRunning : bool;
  db : database
}.

(** [fetchArticles(userId)], run from its call to its return with no other
    handler in between: the flag, set on entry and cleared by [finally],
    shows as cleared. [EventLoop] has the same function turn by turn. *)
Definition fetchArticles (w : world) (userId : string) (p : process)
  : result * process :=
  if isRunning p then (busy, p)
  else
    let sources := enabled_sources userId (db p) in
    let st := fold_left (for_source w userId) sources
                {| db_of := db p;
                   existingLinks := links_of userId (db p);
                   newCount := 0 |} in
    let (r, d) := conclude w userId st in
    (r, {| isRunning := false; db := d |}).

(** The database a fetch holds when its loop over the sources is over. *)
Definition after_insertions (w : world) (userId : string) (d : database)
  : database :=
  db_of (fold_left (for_source w userId) (enabled_sources userId d)
           {| db_of := d; existingLinks := links_of userId d; newCount := 0 |}).

(** *** HTTP handlers *)

(** The JSON bodies the handlers send. *)
Inductive body : Type :=
| Error (error : string)                  (* { error } *)
| Registered (userId email : string)      (* { success: true, userId, email } *)
| Created (id : Z)                        (* { success: true, id } *)
| Done                                    (* { success: true } *)
| SourceRows (rows : list source)
| ArticleRows (rows : list article)
| FetchResult (r : result).

Record response : Type := {
  status : nat;
  json : body
}.

Definition reply (code : nat) (b : body) : response :=
  {| status := code; json := b |}.

Definition not_authenticated : response := reply 401 (Error "Not authenticated").

(** [requireAuth]: the user id of the session, unless it is falsy. *)
Definition requireAuth (session : option string) : option string :=
  if falsy session then None else session.

(** POST /api/auth/register falls in two at [await bcrypt.hash]. The
    first part checks the body and looks the email up; it answers, or goes
    on to the hash with the email. *)
Definition register_check (email password : option string) (d : database)
  : response + string :=
  if falsy email || falsy password
  then inl (reply 400 (Error "Email and password required"))
  else
    match email with
    | None => inl (reply 400 (Error "Email and password required"))
    | Some e =>
        match userQueries.findByEmail (toLowerCase e) d with
        | Some _ => inl (reply 400 (Error "Email already exists"))
        | None => inr e
        end
    end.

(** The second part: [hashedPassword] is what [bcrypt.hash] gave and
    [userId] the id drawn from the clock and [Math.random]. *)
Definition register_commit (email hashedPassword userId now : string)
  (d : database) : response * database :=
  match userQueries.create userId (toLowerCase email) hashedPassword now d with
  | Throw _ => (reply 500 (Error "Failed to register"), d)
  | Ok d' => (reply 200 (Registered userId (toLowerCase email)), d')
  end.

(** The handler with no other handler run during the hash. *)
Definition post_register (email password : option string)
  (hashedPassword userId now : string) (d : database) : response * database :=
  match register_check email password d with
  | inl r => (r, d)
  | inr e => register_commit e hashedPassword userId now d
  end.

(** GET /api/sources *)
Definition get_sources (session : option string) (d : database) : response :=
  match requireAuth session with
  | None => not_authenticated
  | Some userId => reply 200 (SourceRows (sourceQueries.findByUser userId d))
  end.

(** What the handler reads of a parsed [URL]. *)
Record URL : Type := {
  protocol : string;
  hostname : string
}.

Definition dot : Regex.regex := Regex.Chr ".".
Definition num : Regex.regex := Regex.Plus Regex.Digit.
Definition cat (rs : list Regex.regex) : Regex.regex :=
  fold_right Regex.Seq Regex.Eps rs.
Definition anchored (i : bool) (r : Regex.regex) : Regex.pattern :=
  {| Regex.from_start := true; Regex.body := r; Regex.ignore_case := i |}.

(** The group [(1[6-9]|2\d|3[01])]. *)
Definition second_of_172 : Regex.regex :=
  Regex.Alt (Regex.Seq (Regex.Chr "1") (Regex.Class "6" "9"))
    (Regex.Alt (Regex.Seq (Regex.Chr "2") Regex.Digit)
       (Regex.Seq (Regex.Chr "3") (Regex.Class "0" "1"))).

Definition privatePatterns : list Regex.pattern :=
  [ (* /^localhost$/i *)
    anchored true (Regex.Str "localhost");
    (* /^127\.\d+\.\d+\.\d+$/ *)
    anchored false (cat [Regex.Str "127"; dot; num; dot; num; dot; num]);
    (* /^::1$/ *)
    anchored false (Regex.Str "::1");
    (* /^0\.\d+\.\d+\.\d+$/ *)
    anchored false (cat [Regex.Str "0"; dot; num; dot; num; dot; num]);
    (* /^10\.\d+\.\d+\.\d+$/ *)
    anchored false (cat [Regex.Str "10"; dot; num; dot; num; dot; num]);
    (* /^172\.(1[6-9]|2\d|3[01])\.\d+\.\d+$/ *)
    anchored false (cat [Regex.Str "172"; dot; second_of_172; dot; num; dot; num]);
    (* /^192\.168\.\d+\.\d+$/ *)
    anchored false (cat [Regex.Str "192"; dot; Regex.Str "168"; dot; num; dot; num]);
    (* /\.local$/i *)
    {| Regex.from_start := false;
       Regex.body := Regex.Str ".local";
       Regex.ignore_case := true |};
    (* /^localhost\.localdomain$/i *)
    anchored true (Regex.Str "localhost.localdomain") ].

(** [privatePatterns.some(pattern => pattern.test(hostname))] *)
Definition is_private (host : string) : bool :=
  existsb (fun p => Regex.test p host) privatePatterns.

(** The last two statements of the handler: the insert, with
    [enabled = 1], and the answer. *)
Definition accept_source (userId name url type now : string) (d : database)
  : response * database :=
  let (id, d') := sourceQueries.create userId name url type 1 now d in
  (reply 200 (Created id), d').

(** POST /api/sources. [new_URL] is the constructor [URL] of the
    platform; it throws on a string that is no URL. *)
Definition post_sources (new_URL : string -> outcome URL)
  (session : option string) (name url type : option string)
  (now : string) (d : database) : response * database :=
  match requireAuth session with
  | None => (not_authenticated, d)
  | Some userId =>
      if falsy name || falsy url || falsy type
      then (reply 400 (Error "Missing required fields"), d)
      else
        match name, url, type with
        | Some name', Some url', Some type' =>
            match new_URL url' with
            | Throw _ => (reply 400 (Error "Invalid URL format"), d)
            | Ok parsedUrl =>
                if negb (existsb (String.eqb (protocol parsedUrl)) ["http:"; "https:"])
                then (reply 400 (Error "URL must use HTTP or HTTPS"), d)
                else
                  if is_private (toLowerCase (hostname parsedUrl))
                  then (reply 400 (Error "Private/local URLs are not allowed"), d)
                  else accept_source userId name' url' type' now d
            end
        | _, _, _ => (reply 400 (Error "Missing required fields"), d)
        end
  end.

(** DELETE /api/sources/:id. [id] is [parseInt(req.params.id)], [None]
    when that is NaN. *)
Definition delete_sources (session : option string) (id : option Z)
  (d : database) : response * database :=
  match requireAuth session with
  | None => (not_authenticated, d)
  | Some userId =>
      let (changes, d') := sourceQueries.delete id userId d in
      if changes =? 0
      then (reply 404 (Error "Source not found"), d')
      else (reply 200 Done, d')
  end.

(** GET /api/feed *)
Definition get_feed (session : option string) (d : database) : response :=
  match requireAuth session with
  | None => not_authenticated
  | Some userId => reply 200 (ArticleRows (articleQueries.findByUser userId d))
  end.

End Server.

(** ** The event loop: handlers between the awaits of a fetch *)

Module EventLoop.
Import Js Database Server.

(** A call of [fetchArticles] suspended at [await fetchSource(src)]:
    [f_pending] holds the source awaited and those after it. *)
Record frame : Type := {
  f_userId : string;
  f_pending : list source;
  f_links : list string;
  f_new : nat
}.

Record server : Type := {
  proc : process;
  inflight : option frame
}.

Inductive event : Type :=
| Register (email password : option string)
| Hashed (email hashedPassword userId now : string)
                   (* [bcrypt.hash] settles for a pending registration *)
| GetSources (session : option string)
| AddSource (new_URL : string -> outcome URL) (session : option string)
    (name url type : option string) (now : string)
| DeleteSource (session : option string) (id : option Z)
| GetFeed (session : option string)
| PostFetch (session : option string)
| Settle.          (* the promise the suspended fetch awaits settles *)

Definition locals (fr : frame) (d : database) : progress :=
  {| db_of := d; existingLinks := f_links fr; newCount := f_new fr |}.

(** The guard and the first statements of [fetchArticles]. *)
Definition enter (userId : string) (p : process) : result + frame * process :=
  if isRunning p then inl busy
  else
    inr ({| f_userId := userId;
            f_pending := enabled_sources userId (db p);
            f_links := links_of userId (db p);
            f_new := 0 |},
         {| isRunning := true; db := db p |}).

(** The statements after the loop and the [finally] block. *)
Definition leave (w : world) (fr : frame) (p : process) : result * process :=
  let (r, d) := conclude w (f_userId fr) (locals fr (db p)) in
  (r, {| isRunning := false; db := d |}).

(** Run on to the next [await], or to the end when no source is left. *)
Definition advance (w : world) (fr : frame) (p : process)
  : server * option response :=
  match f_pending fr with
  | [] =>
      let (r, p') := leave w fr p in
      ({| proc := p'; inflight := None |}, Some (reply 200 (FetchResult r)))
  | _ :: _ => ({| proc := p; inflight := Some fr |}, None)
  end.

Definition set_db (d : database) (s : server) : server :=
  {| proc := {| isRunning := isRunning (proc s); db := d |};
     inflight := inflight s |}.

(** One turn of the event loop. The response is [None] when the turn ends
    with the fetch still suspended, or when nothing was waiting. *)
Definition step (w : world) (e : event) (s : server) : server * option response :=
  let d := db (proc s) in
  match e with
  | Register email password =>
      match register_check email password d with
      | inl r => (s, Some r)
      | inr _ => (s, None)
      end
  | Hashed email hashedPassword userId now =>
      let (r, d') := register_commit email hashedPassword userId now d in
      (set_db d' s, Some r)
  | GetSources session => (s, Some (get_sources session d))
  | AddSource new_URL session name url type now =>
      let (r, d') := post_sources new_URL session name url type now d in
      (set_db d' s, Some r)
  | DeleteSource session id =>
      let (r, d') := delete_sources session id d in
      (set_db d' s, Some r)
  | GetFeed session => (s, Some (get_feed session d))
  | PostFetch session =>
      match requireAuth session with
      | None => (s, Some not_authenticated)
      | Some userId =>
          match enter userId (proc s) with
          | inl r => (s, Some (reply 200 (FetchResult r)))
          | inr (fr, p) => advance w fr p
          end
      end
  | Settle =>
      match inflight s with
      | None => (s, None)
      | Some fr =>
          match f_pending fr with
          | [] => (s, None)
          | src :: rest =>
              let st := for_source w (f_userId fr) (locals fr d) src in
              advance w
                {| f_userId := f_userId fr;
                   f_pending := rest;
                   f_links := existingLinks st;
                   f_new := newCount st |}
                {| isRunning := isRunning (proc s); db := db_of st |}
          end
      end
  end.

(** A run of the event loop from a server state. *)
Fixpoint run (turns : list (world * event)) (s : server) : server :=
  match turns with
  | [] => s
  | (w, e) :: rest => run rest (fst (step w e s))
  end.

(** The server as [startServer] leaves it: no fetch running. *)
Definition idle (d : database) : server :=
  {| proc := {| isRunning := false; db := d |}; inflight := None |}.

Definition reachable (s : server) : Prop :=
  exists d turns, s = run turns (idle d).

End EventLoop.

(** ** utils/ai.js, the summary helper of the JSON-file servers *)

Module ai.
Import Js.

(** The marker the source appends: the code units U+00E2, U+20AC, U+00A6.
    The second is beyond one [ascii] and is held by its low byte. *)
Definition marker : string :=
  String (ascii_of_nat 226) (String (ascii_of_nat 172) (String (ascii_of_nat 166) "")).

(** [summarize(text)] *)
Definition summarize (text : option string) : string :=
  if falsy text then ""
  else match text with
       | Some t =>
           String.append (prefix 150 t)
             (if 150 <? String.length t then marker else "")
       | None => ""
       end.

End ai.

(** ** Sessions: login, logout, who am I *)

Module Auth.
Import Js Database Server.

(** What the handlers keep in [req.session]. *)
Record session : Type := {
  sess_userId : option string;
  sess_email : option string
}.

Definition no_session : session :=
  {| sess_userId := None; sess_email := None |}.

(** POST /api/auth/register with its session: a successful registration
    logs the new user in. The session store is taken to save without
    error. *)
Definition register (email password : option string)
  (hashedPassword userId now : string) (sess : session) (d : database)
  : response * session * database :=
  let (r, d') := post_register email password hashedPassword userId now d in
  match json r with
  | Registered uid em =>
      (r, {| sess_userId := Some uid; sess_email := Some em |}, d')
  | _ => (r, sess, d')
  end.

(** POST /api/auth/login. [compare] is what [bcrypt.compare] settles
    with, and the session store is taken to save without error. The
    answer [{ success: true, userId, email }] has the shape of the one
    that registration gives. *)
Definition login (compare : string -> string -> bool)
  (email password : option string) (sess : session) (d : database)
  : response * session :=
  if falsy email || falsy password
  then (reply 400 (Error "Email and password required"), sess)
  else
    match email, password with
    | Some e, Some pw =>
        match userQueries.findByEmail (toLowerCase e) d with
        | None => (reply 401 (Error "Invalid credentials"), sess)
        | Some user =>
            if compare pw (u_password user)
            then (reply 200 (Registered (u_id user) (u_email user)),
                  {| sess_userId := Some (u_id user);
                     sess_email := Some (u_email user) |})
            else (reply 401 (Error "Invalid credentials"), sess)
        end
    | _, _ => (reply 400 (Error "Email and password required"), sess)
    end.

(** POST /api/auth/logout. [store_fails] says whether [session.destroy]
    hands an error to its callback; the stored session then stays. *)
Definition logout (store_fails : bool) (sess : session) : response * session :=
  if store_fails
  then (reply 500 (Error "Failed to logout"), sess)
  else (reply 200 Done, no_session).

(** The answers of GET /api/auth/me. *)
Inductive identity : Type :=
| Nobody                                        (* 401 { error } *)
| Somebody (userId : string) (email : option string).   (* { userId, email } *)

(** GET /api/auth/me *)
Definition me (sess : session) : identity :=
  if falsy (sess_userId sess) then Nobody
  else match sess_userId sess with
       | Some u => Somebody u (sess_email sess)
       | None => Nobody
       end.

End Auth.

(** ** The CORS middleware *)

Module Cors.
Import Js.

Definition allowedOrigins : list string :=
  ["https://shuflov.github.io"; "http://localhost:3000"].

Record headers : Type := {
  allow_origin : string;
  allow_credentials : string;
  allow_headers : string;
  allow_methods : string
}.

(** The middleware answers itself, or hands over with [next()]. *)
Inductive verdict : Type :=
| SendStatus (code : nat)
| Next.

(** [allowedOrigins.includes(origin)] for a header that may be absent. *)
Definition includes (origin : option string) : bool :=
  match origin with
  | Some o => existsb (String.eqb o) allowedOrigins
  | None => false
  end.

(** The first [app.use]. [isProduction] is
    [process.env.NODE_ENV === 'production'], [origin] the request header. *)
Definition middleware (isProduction : bool) (origin : option string)
  (method : string) : headers * verdict :=
  ({| allow_origin :=
        if includes origin || negb isProduction
        then match or_else origin (Some "*") with
             | Some o => o
             | None => "*"
             end
        else "https://shuflov.github.io";
      allow_credentials := "true";
      allow_headers := "Content-Type, Authorization";
      allow_methods := "GET, POST, PUT, DELETE, OPTIONS" |},
   if (method =? "OPTIONS")%string then SendStatus 204 else Next).

End Cors.

(** ** Stock quotes *)

Module Stocks.
Import Js.

Definition STOCKS : list string := ["TSLA"; "BTC-USD"; "TOY.TO"; "^GSPC"].

(** JavaScript numbers are kept abstract: the code is read for what it
    tests and in which order, not for the arithmetic of doubles.
    [truthy x] says that [x] is neither zero nor NaN, [is_zero x] is
    [x === 0]. *)
Section Numbers.
Variable num : Type.
Variable truthy : num -> bool.
Variable is_zero : num -> bool.
Variable zero : num.
Variable hundred : num.
Variable sub : num -> num -> num.
Variable div : num -> num -> num.
Variable mul : num -> num -> num.

(** What [fetchYahooFinance] reads of [data.chart.result[0]]. *)
Record chart : Type := {
  regularMarketPrice : option num;
  currency : option string;
  close : list (option num)
}.

Record quote : Type := {
  symbol : string;
  price : num;
  change : num;
  changePercent : num;
  quote_currency : string;
  timestamp : string;
  error : option string
}.

(** [!v] for a number that may be [null] or [undefined]. *)
Definition unusable (v : option num) : bool :=
  match v with
  | Some x => negb (truthy x)
  | None => true
  end.

(** [a || b] on such numbers. *)
Definition or_num (a b : option num) : option num :=
  if unusable a then b else a.

(** [prices[prices.length - k]], [undefined] when the index is negative. *)
Definition from_end (k : nat) (prices : list (option num)) : option num :=
  if k <=? List.length prices
  then match nth_error prices (List.length prices - k) with
       | Some v => v
       | None => None
       end
  else None.

(** [fetchYahooFinance(symbol)]. [answer] is the first chart result of the
    reply, [None] when the request fails, the status is not ok, the body
    has no such result or the result lacks [meta] or the list of closes:
    each of these ends in the [catch] and gives [null]. [now] is the time
    the quote is stamped with. *)
Definition fetchYahooFinance (answer : option chart) (now : string)
  (sym : string) : option quote :=
  match answer with
  | None => None
  | Some result =>
      let prices := close result in
      let currentPrice := or_num (regularMarketPrice result) (from_end 1 prices) in
      let previousPrice := or_num (from_end 2 prices) currentPrice in
      if unusable currentPrice || unusable previousPrice
      then None
      else
        match currentPrice, previousPrice with
        | Some c, Some p =>
            if is_zero p then None
            else
              let change := sub c p in
              Some {| symbol := sym;
                      price := c;
                      change := change;
                      changePercent := mul (div change p) hundred;
                      quote_currency :=
                        match or_else (currency result) (Some "USD") with
                        | Some cur => cur
                        | None => "USD"
                        end;
                      timestamp := now;
                      error := None |}
        | _, _ => None
        end
  end.

(** The entry that stands in for a symbol when no quote came back. *)
Definition unavailable (now : string) (sym : string) : quote :=
  {| symbol := sym; price := zero; change := zero; changePercent := zero;
     quote_currency := "USD"; timestamp := now;
     error := Some "API unavailable" |}.

(** [results.filter(s => s !== null)] *)
Fixpoint present (results : list (option quote)) : list quote :=
  match results with
  | [] => []
  | Some q :: rest => q :: present rest
  | None :: rest => present rest
  end.

(** GET /api/stocks: the list it sends. [yahoo sym] is the answer for
    [sym], [clock sym] the time its entry is stamped with. *)
Definition get_stocks (yahoo : string -> option chart) (clock : string -> string)
  : list quote :=
  let results := map (fun sym => fetchYahooFinance (yahoo sym) (clock sym) sym)
                     STOCKS in
  let stocks := present results in
  if List.length stocks =? 0
  then map (fun sym => unavailable (clock sym) sym) STOCKS
  else stocks.

End Numbers.

End Stocks.

(** ** The JSON-file server: the loop of its [fetchArticles] *)

Module Legacy.
Import Js.

Record source : Type := {
  j_id : Z;
  j_name : string;
  j_url : string;
  j_type : string;
  j_enabled : bool
}.

(** An entry of [articles.json]; a field that was [undefined] when the
    entry was pushed is missing from the file. *)
Record article : Type := {
  j_sourceId : Z;
  j_sourceName : string;
  j_title : option string;
  j_link : option string;
  j_published_at : option string;
  j_summary : string;
  j_fetched_at : string
}.

(** [utils/fetcher.js] is not among the sources: [fetchSource src] is
    what [fetcher.fetchSource(src)] settles with. [toISOString n] is
    [new Date().toISOString()] when new article number [n] is pushed. *)
Record world : Type := {
  fetchSource : source -> outcome (list Server.item);
  toISOString : nat -> string
}.

(** [a === b] on strings that may be [undefined]. *)
Definition same (a b : option string) : bool :=
  match a, b with
  | Some x, Some y => (x =? y)%string
  | None, None => true
  | _, _ => false
  end.

(** [articles.find(a => a.link === it.link)], as a truth value. *)
Definition stored (l : option string) (articles : list article) : bool :=
  existsb (fun a => same (j_link a) l) articles.

(** The loop [for (const it of items)] on [articles] and [newCount]. *)
Fixpoint for_items (w : world) (src : source) (items : list Server.item)
  (articles : list article) (newCount : nat) : list article * nat :=
  match items with
  | [] => (articles, newCount)
  | it :: rest =>
      if stored (Server.link it) articles
      then for_items w src rest articles newCount
      else
        let summary := ai.summarize (Server.content it) in
        for_items w src rest
          (articles ++ [{| j_sourceId := j_id src;
                           j_sourceName := j_name src;
                           j_title := Server.title it;
                           j_link := Server.link it;
                           j_published_at := Server.published it;
                           j_summary := summary;
                           j_fetched_at := toISOString w newCount |}])
          (S newCount)
  end.

(** One turn of [for (const src of sources.filter(s => s.enabled))]. *)
Definition for_source (w : world) (st : list article * nat) (src : source)
  : list article * nat :=
  match fetchSource w src with
  | Throw _ => st
  | Ok items => for_items w src items (fst st) (snd st)
  end.

(** The loop over the sources, from the articles read from the file. *)
Definition fetch_loop (w : world) (sources : list source)
  (articles : list article) : list article * nat :=
  fold_left (for_source w) (filter j_enabled sources) (articles, 0).

End Legacy.

(** ** Table constraints *)

Module Wf.
Import Js Database.

(** No two users have emails that are equal when case is ignored. *)
Definition emails_unique (d : database) : Prop :=
  NoDup (map (fun u => toLowerCase (u_email u)) (users d)).

(** Every stored email is in lower case. *)
Definition emails_lower (d : database) : Prop :=
  Forall (fun u => toLowerCase (u_email u) = u_email u) (users d).

(** [id] is the primary key of [articles]. *)
Definition article_ids_unique (d : database) : Prop :=
  NoDup (map a_id (articles d)).

(** [link] is UNIQUE in [articles]. *)
Definition links_unique (d : database) : Prop :=
  NoDup (map a_link (articles d)).

(** The tables a fetch does not write to are the same in [d] and [d']. *)
Definition same_owners (d d' : database) : Prop :=
  users d' = users d /\ sources d' = sources d /\ seq_sources d' = seq_sources d.

(** [isRunning] is set exactly while a fetch is suspended, and a
    suspended fetch awaits a source. *)
Definition guard_inv (s : EventLoop.server) : Prop :=
  match EventLoop.inflight s with
  | Some fr =>
      Server.isRunning (EventLoop.proc s) = true /\ EventLoop.f_pending fr <> []
  | None => Server.isRunning (EventLoop.proc s) = false
  end.

End Wf.

(** ** Host names, in plain terms *)

Module Hosts.
Import Js.

Fixpoint all_digits (s : string) : bool :=
  match s with
  | EmptyString => true
  | String c s' => is_digit c && all_digits s'
  end.

(** A non-empty run of decimal digits. *)
Definition number (s : string) : Prop := s <> "" /\ all_digits s = true.

(** [a.b.c.d] *)
Definition quad (a b c d : string) : string :=
  String.append a (String "." (String.append b
    (String "." (String.append c (String "." d))))).

(** The decimal numbers 16 to 31. *)
Definition sixteen_to_thirty_one (s : string) : Prop :=
  exists n, 16 <= n <= 31 /\ s = show_nat n.

(** The first two parts of the quads that the patterns name. *)
Definition private_prefix (a b : string) : Prop :=
  a = "127" \/ a = "0" \/ a = "10" \/
  (a = "172" /\ sixteen_to_thirty_one b) \/
  (a = "192" /\ b = "168").

(** The lower-case host names that the patterns name, the string [::1]
    apart. *)
Definition blocked (h : string) : Prop :=
  h = "localhost" \/
  h = "localhost.localdomain" \/
  (exists p, h = String.append p ".local") \/
  (exists a b c d,
      number b /\ number c /\ number d /\ private_prefix a b /\
      h = quad a b c d).

(** An IPv4 address as [URL] prints it. *)
Definition dotted (a b c d : nat) : string :=
  quad (show_nat a) (show_nat b) (show_nat c) (show_nat d).

(** The address lies in 127.0.0.0/8, 0.0.0.0/8, 10.0.0.0/8,
    172.16.0.0/12 or 192.168.0.0/16. *)
Definition private_range (a b : nat) : Prop :=
  a = 127 \/ a = 0 \/ a = 10 \/ (a = 172 /\ 16 <= b <= 31) \/
  (a = 192 /\ b = 168).

(** Made of digits and dots only. *)
Fixpoint plain (s : string) : bool :=
  match s with
  | EmptyString => true
  | String c s' => (is_digit c || Ascii.eqb c ".") && plain s'
  end.

Fixpoint no_dot (s : string) : bool :=
  match s with
  | EmptyString => true
  | String c s' => negb (Ascii.eqb c ".") && no_dot s'
  end.

Fixpoint has_colon (s : string) : bool :=
  match s with
  | EmptyString => false
  | String c s' => Ascii.eqb c ":" || has_colon s'
  end.

End Hosts.

(** ** The constraints of the schema *)

Module Schema.
Import Js Database Server.

(** [id] is the primary key of [users]. *)
Definition user_ids_unique (d : database) : Prop :=
  NoDup (map u_id (users d)).

(** [email] is UNIQUE in [users]. *)
Definition stored_emails_unique (d : database) : Prop :=
  NoDup (map u_email (users d)).

(** [id] is the primary key of [sources]. *)
Definition source_ids_unique (d : database) : Prop :=
  NoDup (map s_id (sources d)).

(** All the keys and UNIQUE columns of the three tables. *)
Definition constraints (d : database) : Prop :=
  user_ids_unique d /\ stored_emails_unique d /\ source_ids_unique d /\
  Wf.article_ids_unique d /\ Wf.links_unique d.

(** An insert with these values throws while the table holds the links
    [table]: one of the values is [undefined], or some row holds the
    link. *)
Definition refused (title link published_at : option string)
  (table : list string) : Prop :=
  match title, link, published_at with
  | Some _, Some l, Some _ => In l table
  | _, _, _ => True
  end.

(** An item that has a link has a title and a date as well. *)
Definition complete (it : item) : Prop :=
  link it <> None -> title it <> None /\ published it <> None.

(** The same of an item as the parser hands it over. *)
Definition complete_item (i : feed_item) : Prop :=
  i_link i <> None -> i_title i <> None /\ i_pubDate i <> None.

(** Nothing in [items] can be inserted for a user whose set of links is
    [links] while the table holds the links [table]: the loop over the
    items skips them one after the other, or stops at the first it does
    not skip because the insert is refused. *)
Fixpoint settled (links table : list string) (items : list item) : Prop :=
  match items with
  | [] => True
  | it :: rest =>
      if has_value (link it) links then settled links table rest
      else refused (title it) (link it) (published it) table
  end.

(** The set [existingLinks] holds exactly the links of the articles of
    [u] in the table. *)
Definition tracks (u : string) (st : progress) : Prop :=
  forall l, has l (existingLinks st) = true <->
            exists a, In a (articles (db_of st)) /\ a_user_id a = u /\ a_link a = l.

(** From [st] to [st'] the set of links and the links of the table have
    only grown, and no link has joined the set that the table held
    already. *)
Definition grows (st st' : progress) : Prop :=
  (forall l, has l (existingLinks st) = true ->
             has l (existingLinks st') = true) /\
  (forall l, In l (map a_link (articles (db_of st))) ->
             In l (map a_link (articles (db_of st')))) /\
  (forall l, has l (existingLinks st') = true ->
             has l (existingLinks st) = true \/
             ~ In l (map a_link (articles (db_of st)))).

End Schema.

(** ** Sample tables and worlds *)

Module Samples.
Import Js Database Server EventLoop.

Definition alice : user :=
  {| u_id := "alice"; u_email := "alice@example.com";
     u_password := "$2a$10$alice"; u_created_at := "2024-01-01 00:00:00" |}.

Definition bob : user :=
  {| u_id := "bob"; u_email := "bob@example.com";
     u_password := "$2a$10$bob"; u_created_at := "2024-01-01 00:00:01" |}.

Definition alice_source : source :=
  {| s_id := 1; s_user_id := "alice"; s_name := "Example News";
     s_url := "https://news.example/rss"; s_type := "rss"; s_enabled := 1;
     s_created_at := "2024-01-01 00:01:00" |}.

Definition bob_source : source :=
  {| s_id := 2; s_user_id := "bob"; s_name := "Example News";
     s_url := "https://news.example/rss"; s_type := "rss"; s_enabled := 1;
     s_created_at := "2024-01-01 00:02:00" |}.

(** A source of [alice] that is switched off. *)
Definition alice_muted : source :=
  {| s_id := 3; s_user_id := "alice"; s_name := "Muted";
     s_url := "https://muted.example/rss"; s_type := "rss"; s_enabled := 0;
     s_created_at := "2024-01-01 00:03:00" |}.

Definition story (n : string) (body : option string) : feed_item :=
  {| i_title := Some (String.append "Story " n);
     i_link := Some (String.append "https://news.example/story/" n);
     i_pubDate := Some "Mon, 01 Jan 2024 10:00:00 GMT";
     i_contentSnippet := body;
     i_content := None |}.

Definition feed : list feed_item := [story "1" (Some "First."); story "2" None].

(** [bob] has fetched the feed already: story 1 and story 2 are his. *)
Definition bob_story (id : Z) (n published fetched : string) : article :=
  {| a_id := id; a_user_id := "bob"; a_source_id := Some 2%Z;
     a_source_name := Some "Example News";
     a_title := String.append "Story " n;
     a_link := String.append "https://news.example/story/" n;
     a_summary := Some "";
     a_published_at := Some published;
     a_fetched_at := fetched |}.

Definition two_users : database :=
  {| users := [alice; bob];
     sources := [alice_source; bob_source; alice_muted];
     articles := [];
     seq_sources := 3; seq_articles := 0 |}.

Definition bob_has_story_1 : database :=
  with_articles
    [bob_story 1 "1" "Mon, 01 Jan 2024 10:00:00 GMT" "2024-01-01 12:00:00"]
    1 two_users.

Definition bob_has_two : database :=
  with_articles
    [bob_story 1 "1" "2024-01-01" "2024-01-01 12:00:00";
     bob_story 2 "2" "2024-01-02" "2024-01-01 12:00:00"]
    2 two_users.

Definition news : world :=
  {| parseURL := fun url =>
       if (url =? "https://news.example/rss")%string then Ok feed
       else Throw "getaddrinfo ENOTFOUND";
     datetime_now := fun _ => "2024-01-02 08:00:00";
     db_error := None |}.

(** The same world, but the muted feed now answers. *)
Definition news_and_muted : world :=
  {| parseURL := fun url =>
       if (url =? "https://news.example/rss")%string then Ok feed
       else Ok [story "9" (Some "Muted.")];
     datetime_now := fun _ => "2024-01-02 08:00:00";
     db_error := None |}.

Definition at_rest (d : database) : process :=
  {| isRunning := false; db := d |}.

(** 201 articles of [alice]; the lower the rowid, the earlier the fetch
    and the later the publication. *)
Definition old_story (n : nat) : article :=
  {| a_id := Z.of_nat n; a_user_id := "alice"; a_source_id := Some 1%Z;
     a_source_name := Some "Example News";
     a_title := String.append "Story " (show_nat n);
     a_link := String.append "https://news.example/story/" (show_nat n);
     a_summary := Some "";
     a_published_at := Some (show_nat (2000 - n));
     a_fetched_at := show_nat (1000 + n) |}.

Definition crowded : database :=
  {| users := [alice]; sources := []; articles := map old_story (seq 1 201);
     seq_sources := 0; seq_articles := 201 |}.

Fixpoint replicate (n : nat) (c : ascii) : string :=
  match n with
  | 0 => ""
  | S n' => String c (replicate n' c)
  end.

(** A content of 151 characters. *)
Definition long_content : string := replicate 151 "a".

(** What [new URL('http://169.254.169.254/latest/meta-data/')] gives. *)
Definition metadata_url : URL :=
  {| protocol := "http:"; hostname := "169.254.169.254" |}.

End Samples.

(** ** More sample data: passwords, prices, a fetch under way *)

Module Fixtures.
Import Js Database Server EventLoop.

(** A stand-in for bcrypt: the hash is the password behind a prefix. *)
Definition toy_hash (pw : string) : string := String.append "$2a$10$" pw.

Definition toy_compare (pw hashed : string) : bool :=
  (hashed =? toy_hash pw)%string.

(** An email that begins with the code unit U+00C9, a capital E with an
    acute accent, and the same email in small letters, which begins with
    U+00E9. *)
Definition Eric : string := String (ascii_of_nat 201) "ric@Example.com".

Definition eric : string := String (ascii_of_nat 233) "ric@example.com".

(** The users after the first of them has registered, with the password
    "secret". *)
Definition eric_registered : database :=
  snd (post_register (Some Eric) (Some "secret") (toy_hash "secret") "lx1"
         "2024-01-01 00:00:00" Database.empty).

(** Prices in cents. *)
Definition truthy (x : Z) : bool := negb (x =? 0)%Z.

Definition is_zero (x : Z) : bool := (x =? 0)%Z.

(** An answer with a market price, one close and no currency. *)
Definition tesla : Stocks.chart Z :=
  {| Stocks.regularMarketPrice := Some 25000%Z;
     Stocks.currency := None;
     Stocks.close := [Some 24000%Z; None] |}.

(** The service answers for one symbol only. *)
Definition only_tesla (sym : string) : option (Stocks.chart Z) :=
  if (sym =? "TSLA")%string then Some tesla else None.

Definition noon (sym : string) : string := "2024-01-02T12:00:00.000Z".

(** [alice] has posted /api/fetch; her fetch awaits her one feed. *)
Definition alice_fetching : server :=
  fst (step Samples.news (PostFetch (Some "alice")) (idle Samples.two_users)).

Definition alice_frame : frame :=
  {| f_userId := "alice"; f_pending := [Samples.alice_source];
     f_links := []; f_new := 0 |}.

(** The feeds answer as in [Samples.news], the database raises at the
    count after the loop. *)
Definition broken : world :=
  {| parseURL := parseURL Samples.news;
     datetime_now := datetime_now Samples.news;
     db_error := Some "database disk image is malformed" |}.

(** A second source of [alice], created after her first, so that a fetch
    reads it first. *)
Definition alice_second : source :=
  {| s_id := 4; s_user_id := "alice"; s_name := "Second";
     s_url := "https://second.example/rss"; s_type := "rss"; s_enabled := 1;
     s_created_at := "2024-01-01 00:04:00" |}.

Definition two_feeds : database :=
  with_sources (sources Samples.two_users ++ [alice_second]) 4 Samples.two_users.

(** Story 1 as a feed gives it that leaves the title out. *)
Definition untitled_story : feed_item :=
  {| i_title := None;
     i_link := Some "https://news.example/story/1";
     i_pubDate := Some "Mon, 01 Jan 2024 10:00:00 GMT";
     i_contentSnippet := None;
     i_content := None |}.

(** The second feed gives story 1 without its title and story 2, the
    first feed gives story 1. *)
Definition untitled : world :=
  {| parseURL := fun url =>
       if (url =? "https://second.example/rss")%string
       then Ok [untitled_story; Samples.story "2" None]
       else if (url =? "https://news.example/rss")%string
       then Ok [Samples.story "1" (Some "First.")]
       else Throw "getaddrinfo ENOTFOUND";
     datetime_now := fun _ => "2024-01-02 08:00:00";
     db_error := None |}.

(** A source and a world of the JSON-file server. *)
Definition blog : Legacy.source :=
  {| Legacy.j_id := 1; Legacy.j_name := "Blog";
     Legacy.j_url := "https://blog.example/rss"; Legacy.j_type := "rss";
     Legacy.j_enabled := true |}.

Definition post : item :=
  {| title := Some "Post"; link := Some "https://blog.example/1";
     published := Some "Mon, 01 Jan 2024 10:00:00 GMT";
     content := Some "Hello" |}.

(** The feed lists the same post twice. *)
Definition blog_world : Legacy.world :=
  {| Legacy.fetchSource := fun _ => Ok [post; post];
     Legacy.toISOString := fun _ => "2024-01-02T08:00:00.000Z" |}.

End Fixtures.

(** * Properties *)

(** ** Strings *)

Module JsFacts.
Import Js.

Lemma lower_char_idem (c : ascii) : lower_char (lower_char c) = lower_char c.
Proof. destruct c as [[] [] [] [] [] [] [] []]; reflexivity. Qed.

Lemma toLowerCase_idem (s : string) : toLowerCase (toLowerCase s) = toLowerCase s.
Proof.
  induction s as [|c s IH]; simpl; [reflexivity|].
  now rewrite lower_char_idem, IH.
Qed.

Lemma prefix_length (n : nat) (s : string) :
  String.length (prefix n s) = Nat.min n (String.length s).
Proof.
  unfold prefix. revert s.
  induction n as [|n IH]; intros [|c s]; simpl; try reflexivity.
  now rewrite IH.
Qed.

Lemma prefix_all (n : nat) (s : string) :
  String.length s <= n -> prefix n s = s.
Proof.
  unfold prefix. revert s.
  induction n as [|n IH]; intros [|c s] Hlen; simpl in *; try reflexivity; try lia.
  f_equal. apply IH. lia.
Qed.

Lemma prefix_append (n : nat) (s t : string) :
  n <= String.length s -> prefix n (String.append s t) = prefix n s.
Proof.
  unfold prefix. revert s.
  induction n as [|n IH]; intros [|c s] Hlen; simpl in *; try reflexivity; try lia.
  - now destruct t.
  - f_equal. apply IH. lia.
Qed.

Lemma prefix_prefix (n : nat) (s : string) : prefix n (prefix n s) = prefix n s.
Proof.
  apply prefix_all. rewrite prefix_length. lia.
Qed.

(** [s.substring(0, n)] is an initial segment of [s]. *)
Lemma prefix_is_prefix (n : nat) (s : string) :
  exists rest, s = String.append (prefix n s) rest.
Proof.
  unfold prefix. revert s.
  induction n as [|n IH]; intros [|c s]; simpl.
  - now exists "".
  - now exists (String c s).
  - now exists "".
  - destruct (IH s) as [rest Hr]. exists rest. now rewrite <- Hr.
Qed.

Lemma falsy_false (v : option string) :
  falsy v = false -> exists s, v = Some s /\ s <> "".
Proof.
  destruct v as [s|]; simpl; [|discriminate].
  intros H. exists s. split; [reflexivity|]. now apply String.eqb_neq.
Qed.

Lemma falsy_some (s : string) : s <> "" -> falsy (Some s) = false.
Proof. intros H. simpl. now apply String.eqb_neq. Qed.

End JsFacts.

(** ** ORDER BY and LIMIT *)

Module SqlFacts.
Import Sql.

Lemma ascii_compare_trans (a b c : ascii) :
  Ascii.compare a b <> Gt -> Ascii.compare b c <> Gt -> Ascii.compare a c <> Gt.
Proof.
  unfold Ascii.compare. rewrite !N.compare_ngt_iff. lia.
Qed.

Lemma ascii_compare_eq (a b : ascii) : Ascii.compare a b = Eq <-> a = b.
Proof.
  split; [apply Ascii.compare_eq_iff|].
  intros ->. unfold Ascii.compare. apply N.compare_refl.
Qed.

Lemma string_compare_trans (s1 s2 s3 : string) :
  String.compare s1 s2 <> Gt -> String.compare s2 s3 <> Gt ->
  String.compare s1 s3 <> Gt.
Proof.
  revert s2 s3.
  induction s1 as [|a s1 IH]; intros [|b s2] [|c s3]; simpl; try congruence.
  destruct (Ascii.compare a b) eqn:Hab; try congruence;
    destruct (Ascii.compare b c) eqn:Hbc; try congruence.
  - apply ascii_compare_eq in Hab, Hbc. subst.
    rewrite (proj2 (ascii_compare_eq c c) eq_refl). apply IH.
  - apply ascii_compare_eq in Hab. subst. now rewrite Hbc.
  - apply ascii_compare_eq in Hbc. subst. now rewrite Hab.
  - intros _ _.
    assert (H : Ascii.compare a c = Lt).
    { unfold Ascii.compare in *. rewrite N.compare_lt_iff in *. lia. }
    now rewrite H.
Qed.

Lemma string_leb_trans (s1 s2 s3 : string) :
  String.leb s1 s2 = true -> String.leb s2 s3 = true -> String.leb s1 s3 = true.
Proof.
  unfold String.leb. intros H12 H23.
  assert (H := string_compare_trans s1 s2 s3).
  destruct (String.compare s1 s2), (String.compare s2 s3),
    (String.compare s1 s3); try reflexivity; try discriminate;
    exfalso; apply H; congruence.
Qed.

Lemma text_leb_total (a b : option string) :
  text_leb a b = true \/ text_leb b a = true.
Proof.
  destruct a, b; simpl; auto. apply String.leb_total.
Qed.

Lemma text_leb_trans (a b c : option string) :
  text_leb a b = true -> text_leb b c = true -> text_leb a c = true.
Proof.
  destruct a, b, c; simpl; try congruence. apply string_leb_trans.
Qed.

Section OrderByFacts.
Context {row : Type}.
Variable leb : row -> row -> bool.
Hypothesis leb_total : forall x y, leb x y = true \/ leb y x = true.

Lemma place_perm (r : row) (l : list row) : Permutation (r :: l) (place leb r l).
Proof.
  induction l as [|x l IH]; simpl; [reflexivity|].
  destruct (leb r x); [reflexivity|].
  rewrite perm_swap. now apply perm_skip.
Qed.

Lemma order_by_perm (l : list row) : Permutation l (order_by leb l).
Proof.
  induction l as [|x l IH]; simpl; [constructor|].
  rewrite <- place_perm. now apply perm_skip.
Qed.

Lemma place_hdrel (a r : row) (l : list row) :
  leb a r = true -> HdRel (fun x y => leb x y = true) a l ->
  HdRel (fun x y => leb x y = true) a (place leb r l).
Proof.
  intros Har Hl. destruct l as [|x l]; simpl.
  - now constructor.
  - destruct (leb r x); constructor; [assumption|].
    now inversion Hl.
Qed.

Lemma place_sorted (r : row) (l : list row) :
  Sorted (fun x y => leb x y = true) l ->
  Sorted (fun x y => leb x y = true) (place leb r l).
Proof.
  induction 1 as [|x l Hs IH Hhd]; simpl.
  - repeat constructor.
  - destruct (leb r x) eqn:Hrx.
    + constructor; [now constructor|now constructor].
    + constructor; [exact IH|].
      apply place_hdrel; [|exact Hhd].
      destruct (leb_total r x); congruence.
Qed.

(** The rows come out of [ORDER BY] in order. *)
Lemma order_by_sorted (l : list row) :
  Sorted (fun x y => leb x y = true) (order_by leb l).
Proof.
  induction l as [|x l IH]; simpl; [constructor|now apply place_sorted].
Qed.

Hypothesis leb_trans :
  forall x y z, leb x y = true -> leb y z = true -> leb x z = true.

Lemma order_by_strongly_sorted (l : list row) :
  StronglySorted (fun x y => leb x y = true) (order_by leb l).
Proof.
  apply Sorted_StronglySorted; [|apply order_by_sorted].
  intros x y z. apply leb_trans.
Qed.

(** Of a sorted list cut in two, the first part lies below the second. *)
Lemma strongly_sorted_split (l1 l2 : list row) :
  StronglySorted (fun x y => leb x y = true) (l1 ++ l2) ->
  forall a b, In a l1 -> In b l2 -> leb a b = true.
Proof.
  induction l1 as [|x l1 IH]; simpl; intros Hs a b Ha Hb; [contradiction|].
  inversion Hs as [|? ? Hs' Hall]; subst.
  destruct Ha as [->|Ha].
  - rewrite Forall_forall in Hall. apply Hall, in_or_app. now right.
  - now apply IH.
Qed.

End OrderByFacts.

End SqlFacts.

(** ** Rows written by the queries *)

Module DatabaseFacts.
Import Js Database.

Lemma article_create_ok user_id source_id source_name title link summary
  published_at now d d' :
  articleQueries.create user_id source_id source_name title link summary
    published_at now d = Ok d' ->
  exists a,
    articles d' = articles d ++ [a] /\ users d' = users d /\
    sources d' = sources d /\ seq_sources d' = seq_sources d /\
    a_user_id a = user_id /\ a_source_id a = Some source_id /\
    link = Some (a_link a) /\ a_summary a = Some summary /\
    a_fetched_at a = now /\
    a_id a = Sql.next_rowid (seq_articles d) (map a_id (articles d)) /\
    seq_articles d' = a_id a /\
    ~ In (a_link a) (map a_link (articles d)).
Proof.
  unfold articleQueries.create.
  destruct title as [t|], link as [l|], published_at as [p|]; try discriminate.
  destruct (existsb _ (articles d)) eqn:Hex; [discriminate|].
  intros [= <-]. eexists. simpl. repeat (split; [reflexivity|]).
  intros Hin. apply in_map_iff in Hin as (a & Ha & Hin).
  assert (Ht : existsb (fun a => (a_link a =? l)%string) (articles d) = true).
  { apply existsb_exists. exists a. split; [assumption|]. now apply String.eqb_eq. }
  congruence.
Qed.

Lemma article_create_throws user_id source_id source_name title link summary
  published_at now d :
  Schema.refused title link published_at (map a_link (articles d)) ->
  exists e, articleQueries.create user_id source_id source_name title link
              summary published_at now d = Throw e.
Proof.
  unfold Schema.refused, articleQueries.create.
  destruct title as [t|], link as [l|], published_at as [p|]; eauto.
  intros Hin. apply in_map_iff in Hin as (a & Ha & Hin).
  assert (Ht : existsb (fun a => (a_link a =? l)%string) (articles d) = true).
  { apply existsb_exists. exists a. split; [assumption|]. now apply String.eqb_eq. }
  rewrite Ht. eauto.
Qed.

(** The other way round: an insert throws only when it is refused. *)
Lemma article_create_refused user_id source_id source_name title link summary
  published_at now d e :
  articleQueries.create user_id source_id source_name title link summary
    published_at now d = Throw e ->
  Schema.refused title link published_at (map a_link (articles d)).
Proof.
  unfold Schema.refused, articleQueries.create.
  destruct title as [t|], link as [l|], published_at as [p|]; auto.
  destruct (existsb (fun a => (a_link a =? l)%string) (articles d)) eqn:Hex;
    [|discriminate].
  intros _. apply existsb_exists in Hex as (a & Ha & Hl).
  apply String.eqb_eq in Hl. subst l. now apply in_map.
Qed.

End DatabaseFacts.

(** ** Summaries *)

Module SummaryFacts.
Import Js Database Server.

Lemma summarizeArticle_some (c : string) :
  summarizeArticle (Some c) = prefix 150 c.
Proof.
  unfold summarizeArticle. simpl.
  destruct (String.eqb_spec c ""); [now subst|reflexivity].
Qed.

Lemma summarize_some (c : string) :
  ai.summarize (Some c) =
  String.append (prefix 150 c) (if 150 <? String.length c then ai.marker else "").
Proof.
  unfold ai.summarize. simpl.
  destruct (String.eqb_spec c ""); [now subst|reflexivity].
Qed.

Lemma append_empty_r (s : string) : String.append s "" = s.
Proof. induction s as [|c s IH]; simpl; [reflexivity|now rewrite IH]. Qed.

(** What the loop over the items adds to the table. *)
Lemma for_items_new_rows (w : world) (userId : string) (src : source)
  (items : list item) (st : progress) (a : article) :
  In a (articles (db_of (fst (for_items w userId src items st)))) ->
  In a (articles (db_of st)) \/
  exists it, In it items /\ link it = Some (a_link a) /\
             a_summary a = Some (summarizeArticle (content it)) /\
             a_user_id a = userId /\ a_source_id a = Some (s_id src).
Proof.
  revert st. induction items as [|it rest IH]; intros st; simpl; [auto|].
  destruct (has_value (link it) (existingLinks st)).
  - intros H. destruct (IH _ H) as [?|(it' & ? & ?)]; [auto|].
    right. exists it'. simpl. auto.
  - destruct (articleQueries.create _ _ _ _ _ _ _ _ _) as [d|e] eqn:Hc; simpl; [|auto].
    intros H. apply DatabaseFacts.article_create_ok in Hc
      as (a0 & Harts & _ & _ & _ & Hu & Hs & Hl & Hsum & _).
    destruct (IH _ H) as [Hin|(it' & ? & ?)]; simpl in *.
    + rewrite Harts in Hin. apply in_app_or in Hin as [?|[<-|[]]]; [auto|].
      right. exists it. auto 10.
    + right. exists it'. auto.
Qed.

End SummaryFacts.

(** C5, as the code has it. The database server stores
    [summarizeArticle(content)]: the first 150 characters of the content,
    the whole content when it is no longer than that, never more than 150
    characters, and the empty string for an empty or missing content. The
    JSON-file servers store [ai.summarize(content)]: the same for a content
    of at most 150 characters, and the first 150 characters followed by the
    marker for a longer one, so that the first 150 characters of the summary
    are still those of the content. *)
Theorem C5_summary_is_truncated_content :
  (forall content : option string,
      String.length (Server.summarizeArticle content) <= 150 /\
      (Js.falsy content = true -> Server.summarizeArticle content = "") /\
      (forall c, content = Some c ->
                 Server.summarizeArticle content = Js.prefix 150 c /\
                 (String.length c <= 150 -> Server.summarizeArticle content = c)))
  /\
  (forall w userId src items st a,
      In a (Database.articles
              (Server.db_of (fst (Server.for_items w userId src items st)))) ->
      ~ In a (Database.articles (Server.db_of st)) ->
      exists it, In it items /\ Server.link it = Some (Database.a_link a) /\
                 Database.a_summary a =
                 Some (Server.summarizeArticle (Server.content it)))
  /\
  (forall content : option string,
      (Js.falsy content = true -> ai.summarize content = "") /\
      (forall c, content = Some c ->
                 Js.prefix 150 (ai.summarize content) = Js.prefix 150 c /\
                 (String.length c <= 150 -> ai.summarize content = c) /\
                 (150 < String.length c ->
                  ai.summarize content = String.append (Js.prefix 150 c) ai.marker))).
Proof.
  split; [|split].
  - intros content. split; [|split].
    + destruct content as [c|]; [|simpl; lia].
      rewrite SummaryFacts.summarizeArticle_some, JsFacts.prefix_length. lia.
    + unfold Server.summarizeArticle. now intros ->.
    + intros c ->. rewrite SummaryFacts.summarizeArticle_some.
      split; [reflexivity|apply JsFacts.prefix_all].
  - intros w userId src items st a Hin Hold.
    destruct (SummaryFacts.for_items_new_rows _ _ _ _ _ _ Hin)
      as [?|(it & ? & ? & ? & _)]; [contradiction|eauto].
  - intros content. split.
    + unfold ai.summarize. now intros ->.
    + intros c ->. rewrite SummaryFacts.summarize_some.
      destruct (Nat.ltb_spec 150 (String.length c)) as [Hlt|Hle].
      * split; [|split]; [|lia|reflexivity].
        rewrite JsFacts.prefix_append; [apply JsFacts.prefix_prefix|].
        rewrite JsFacts.prefix_length. lia.
      * rewrite SummaryFacts.append_empty_r.
        split; [apply JsFacts.prefix_prefix|].
        split; [intros _; now apply JsFacts.prefix_all|lia].
Qed.

(** ** The read path: feeds and source lists *)

Module ReadFacts.
Import Js Database Server.

Lemma sorted_adjacent {A : Type} (R : A -> A -> Prop) (l : list A) :
  Sorted R l ->
  forall i a b, nth_error l i = Some a -> nth_error l (S i) = Some b -> R a b.
Proof.
  induction 1 as [|x l Hs IH Hhd]; intros i a b Ha Hb.
  - now destruct i.
  - destruct i as [|i]; simpl in *.
    + injection Ha as <-. destruct l as [|y l]; [discriminate|].
      injection Hb as <-. now inversion Hhd.
    + eapply IH; eassumption.
Qed.

Lemma requireAuth_some (u : string) : u <> "" -> requireAuth (Some u) = Some u.
Proof. intros H. unfold requireAuth. now rewrite JsFacts.falsy_some. Qed.

Lemma requireAuth_inv (session : option string) (u : string) :
  requireAuth session = Some u -> session = Some u /\ u <> "".
Proof.
  unfold requireAuth. destruct (falsy session) eqn:Hf; [discriminate|].
  intros ->. split; [reflexivity|].
  apply JsFacts.falsy_false in Hf as (s & [= ->] & ?). assumption.
Qed.

Lemma get_feed_rows (session : option string) (d : database) (rows : list article) :
  get_feed session d = reply 200 (ArticleRows rows) ->
  exists u, session = Some u /\ u <> "" /\ rows = articleQueries.findByUser u d.
Proof.
  unfold get_feed. destruct (requireAuth session) as [u|] eqn:Hs; [|discriminate].
  intros [= <-]. apply requireAuth_inv in Hs as []. eauto.
Qed.

Lemma findByUser_articles_perm (u : string) (d : database) :
  Permutation (articleQueries.findByUser u d)
              (filter (articleQueries.of_user u) (articles d)).
Proof. symmetry. apply SqlFacts.order_by_perm. Qed.

Lemma findByUser_sources_perm (u : string) (d : database) :
  Permutation (sourceQueries.findByUser u d)
              (filter (fun s => (s_user_id s =? u)%string) (sources d)).
Proof. symmetry. apply SqlFacts.order_by_perm. Qed.

Lemma in_findByUser_articles (u : string) (d : database) (a : article) :
  In a (articleQueries.findByUser u d) <-> In a (articles d) /\ a_user_id a = u.
Proof.
  split.
  - intros H. apply (Permutation_in _ (findByUser_articles_perm u d)) in H.
    apply filter_In in H as [? H]. now apply String.eqb_eq in H.
  - intros [H1 H2].
    apply (Permutation_in _ (Permutation_sym (findByUser_articles_perm u d))).
    apply filter_In. split; [assumption|now apply String.eqb_eq].
Qed.

Lemma in_findByUser_sources (u : string) (d : database) (s : source) :
  In s (sourceQueries.findByUser u d) <-> In s (sources d) /\ s_user_id s = u.
Proof.
  split.
  - intros H. apply (Permutation_in _ (findByUser_sources_perm u d)) in H.
    apply filter_In in H as [? H]. now apply String.eqb_eq in H.
  - intros [H1 H2].
    apply (Permutation_in _ (Permutation_sym (findByUser_sources_perm u d))).
    apply filter_In. split; [assumption|now apply String.eqb_eq].
Qed.

End ReadFacts.

(** C8. The rows GET /api/feed returns are in descending order of
    [published_at] under the order of the query (text comparison, NULL
    lowest): each row's [published_at] is at least that of the row after
    it. *)
Theorem C8_feed_is_sorted_newest_first :
  forall (session : option string) (d : Database.database)
         (rows : list Database.article),
    Server.get_feed session d = Server.reply 200 (Server.ArticleRows rows) ->
    forall i a b,
      nth_error rows i = Some a -> nth_error rows (S i) = Some b ->
      Sql.text_leb (Database.a_published_at b) (Database.a_published_at a) = true.
Proof.
  intros session d rows Hfeed.
  apply ReadFacts.get_feed_rows in Hfeed as (u & _ & _ & ->).
  apply (ReadFacts.sorted_adjacent
           (fun a b => Sql.text_leb (Database.a_published_at b)
                                    (Database.a_published_at a) = true)).
  unfold Database.articleQueries.findByUser.
  apply (SqlFacts.order_by_sorted
           (fun r1 r2 => Sql.text_leb (Database.a_published_at r2)
                                      (Database.a_published_at r1))).
  intros x y. apply SqlFacts.text_leb_total.
Qed.

(** C7. For an authenticated user [u], GET /api/feed answers with exactly
    the articles whose [user_id] is [u], and GET /api/sources with exactly
    the sources whose [user_id] is [u]; two databases that hold the same
    rows of [u] give the same responses, whatever the rows of the other
    users are. *)
Theorem C7_feed_and_sources_are_per_user :
  forall u : string,
    u <> "" ->
    (forall d,
        exists rows,
          Server.get_feed (Some u) d = Server.reply 200 (Server.ArticleRows rows) /\
          Permutation rows
            (filter (Database.articleQueries.of_user u) (Database.articles d)) /\
          (forall a, In a rows <->
                     In a (Database.articles d) /\ Database.a_user_id a = u)) /\
    (forall d1 d2,
        filter (Database.articleQueries.of_user u) (Database.articles d1) =
        filter (Database.articleQueries.of_user u) (Database.articles d2) ->
        Server.get_feed (Some u) d1 = Server.get_feed (Some u) d2) /\
    (forall d,
        exists rows,
          Server.get_sources (Some u) d = Server.reply 200 (Server.SourceRows rows) /\
          Permutation rows
            (filter (fun s => (Database.s_user_id s =? u)%string)
                    (Database.sources d)) /\
          (forall s, In s rows <->
                     In s (Database.sources d) /\ Database.s_user_id s = u)) /\
    (forall d1 d2,
        filter (fun s => (Database.s_user_id s =? u)%string) (Database.sources d1) =
        filter (fun s => (Database.s_user_id s =? u)%string) (Database.sources d2) ->
        Server.get_sources (Some u) d1 = Server.get_sources (Some u) d2).
Proof.
  intros u Hu.
  pose proof (ReadFacts.requireAuth_some u Hu) as Hauth.
  split; [|split; [|split]].
  - intros d. exists (Database.articleQueries.findByUser u d).
    unfold Server.get_feed. rewrite Hauth. split; [reflexivity|].
    split; [apply ReadFacts.findByUser_articles_perm|].
    intros a. apply ReadFacts.in_findByUser_articles.
  - intros d1 d2. unfold Server.get_feed, Database.articleQueries.findByUser.
    rewrite Hauth. now intros ->.
  - intros d. exists (Database.sourceQueries.findByUser u d).
    unfold Server.get_sources. rewrite Hauth. split; [reflexivity|].
    split; [apply ReadFacts.findByUser_sources_perm|].
    intros s. apply ReadFacts.in_findByUser_sources.
  - intros d1 d2. unfold Server.get_sources, Database.sourceQueries.findByUser.
    rewrite Hauth. now intros ->.
Qed.

(** ** Deleting a source *)

Module DeleteFacts.
Import Js Database Server.

Lemma filter_all {A : Type} (f : A -> bool) (l : list A) :
  (forall x, In x l -> f x = true) -> filter f l = l.
Proof.
  induction l as [|x l IH]; simpl; intros H; [reflexivity|].
  rewrite (H x (or_introl eq_refl)). f_equal. apply IH. auto.
Qed.

Lemma filter_none {A : Type} (f : A -> bool) (l : list A) :
  (forall x, In x l -> f x = false) -> filter f l = [].
Proof.
  induction l as [|x l IH]; simpl; intros H; [reflexivity|].
  rewrite (H x (or_introl eq_refl)). apply IH. auto.
Qed.

Lemma filter_filter {A : Type} (f g : A -> bool) (l : list A) :
  filter f (filter g l) = filter (fun x => g x && f x) l.
Proof.
  induction l as [|x l IH]; simpl; [reflexivity|].
  destruct (g x); simpl; [destruct (f x)|]; now rewrite IH.
Qed.

Lemma delete_hits_iff (id : option Z) (u : string) (s : source) :
  sourceQueries.delete_hits id u s = true <-> id = Some (s_id s) /\ s_user_id s = u.
Proof.
  unfold sourceQueries.delete_hits. destruct id as [i|].
  - rewrite andb_true_iff, Z.eqb_eq, String.eqb_eq. split.
    + intros [-> ->]. auto.
    + intros [[= ->] ->]. auto.
  - split; [discriminate|]. intros [? _]. discriminate.
Qed.

Lemma with_sources_same (d : database) :
  with_sources (sources d) (seq_sources d) d = d.
Proof. now destruct d. Qed.

End DeleteFacts.

(** C10. DELETE /api/sources/:id of an authenticated user [u] removes
    exactly the sources that have the given id and belong to [u]. When
    there is none (the id may belong to another user) the answer is 404
    'Source not found' and the database is as before. In every case the
    sources of each other user, the other sources of [u], the users and
    the articles are as before. *)
Theorem C10_delete_source_only_own :
  forall (u : string) (id : option Z) (d : Database.database),
    u <> "" ->
    let r := fst (Server.delete_sources (Some u) id d) in
    let d' := snd (Server.delete_sources (Some u) id d) in
    (forall s, In s (Database.sources d') <->
               In s (Database.sources d) /\
               ~ (id = Some (Database.s_id s) /\ Database.s_user_id s = u)) /\
    ((forall s, In s (Database.sources d) ->
                ~ (id = Some (Database.s_id s) /\ Database.s_user_id s = u)) ->
     r = Server.reply 404 (Server.Error "Source not found") /\ d' = d) /\
    (forall v, v <> u ->
               filter (fun s => (Database.s_user_id s =? v)%string)
                      (Database.sources d') =
               filter (fun s => (Database.s_user_id s =? v)%string)
                      (Database.sources d)) /\
    filter (fun s => negb (Database.sourceQueries.delete_hits id u s))
           (Database.sources d') =
    filter (fun s => negb (Database.sourceQueries.delete_hits id u s))
           (Database.sources d) /\
    Database.users d' = Database.users d /\
    Database.articles d' = Database.articles d.
Proof.
  intros u id d Hu r d'. subst r d'.
  unfold Server.delete_sources. rewrite (ReadFacts.requireAuth_some u Hu).
  unfold Database.sourceQueries.delete.
  set (hit := Database.sourceQueries.delete_hits id u).
  assert (Hd' : forall b : bool,
             snd (if b
                  then (Server.reply 404 (Server.Error "Source not found"),
                        Database.with_sources
                          (filter (fun s => negb (hit s)) (Database.sources d))
                          (Database.seq_sources d) d)
                  else (Server.reply 200 Server.Done,
                        Database.with_sources
                          (filter (fun s => negb (hit s)) (Database.sources d))
                          (Database.seq_sources d) d)) =
             Database.with_sources
               (filter (fun s => negb (hit s)) (Database.sources d))
               (Database.seq_sources d) d) by (intros []; reflexivity).
  rewrite Hd'. simpl.
  split; [|split; [|split; [|split; [|split]]]]; try reflexivity.
  - intros s. rewrite filter_In, negb_true_iff.
    rewrite <- (DeleteFacts.delete_hits_iff id u s). fold hit.
    destruct (hit s); intuition congruence.
  - intros Hnone.
    assert (Hf : forall s, In s (Database.sources d) -> hit s = false).
    { intros s Hs. destruct (hit s) eqn:Hh; [|reflexivity].
      apply DeleteFacts.delete_hits_iff in Hh. now apply Hnone in Hs. }
    rewrite DeleteFacts.filter_all
      by (intros s Hs; now rewrite (Hf s Hs)).
    split; [reflexivity|apply DeleteFacts.with_sources_same].
  - intros v Hv. rewrite DeleteFacts.filter_filter.
    apply filter_ext. intros s.
    destruct (String.eqb_spec (Database.s_user_id s) v) as [He|He];
      [|now rewrite andb_false_r].
    rewrite andb_true_r.
    destruct (hit s) eqn:Hh; [|reflexivity].
    apply DeleteFacts.delete_hits_iff in Hh as [_ Hh]. congruence.
  - rewrite DeleteFacts.filter_filter. apply filter_ext. intros s.
    now destruct (hit s).
Qed.

(** ** What a fetch leaves alone *)

Module FrameFacts.
Import Js Database Server.

Lemma same_owners_refl (d : database) : Wf.same_owners d d.
Proof. now repeat split. Qed.

Lemma same_owners_trans (d1 d2 d3 : database) :
  Wf.same_owners d1 d2 -> Wf.same_owners d2 d3 -> Wf.same_owners d1 d3.
Proof. unfold Wf.same_owners. intuition congruence. Qed.

Lemma for_items_owners (w : world) (userId : string) (src : source)
  (items : list item) (st : progress) :
  Wf.same_owners (db_of st) (db_of (fst (for_items w userId src items st))).
Proof.
  revert st. induction items as [|it rest IH]; intros st; simpl;
    [apply same_owners_refl|].
  destruct (has_value (link it) (existingLinks st)); [apply IH|].
  destruct (articleQueries.create _ _ _ _ _ _ _ _ _) as [d|e] eqn:Hc; simpl;
    [|apply same_owners_refl].
  apply DatabaseFacts.article_create_ok in Hc as (a & _ & Hu & Hs & Hq & _).
  eapply same_owners_trans; [|apply IH]. simpl. now repeat split.
Qed.

Lemma for_source_owners (w : world) (userId : string) (st : progress)
  (src : source) :
  Wf.same_owners (db_of st) (db_of (for_source w userId st src)).
Proof.
  unfold for_source. destruct (fetchSource w src);
    [apply for_items_owners|apply same_owners_refl].
Qed.

Lemma for_sources_owners (w : world) (userId : string) (srcs : list source)
  (st : progress) :
  Wf.same_owners (db_of st) (db_of (fold_left (for_source w userId) srcs st)).
Proof.
  revert st. induction srcs as [|src srcs IH]; intros st; simpl;
    [apply same_owners_refl|].
  eapply same_owners_trans; [apply for_source_owners|apply IH].
Qed.

Lemma prune_owners (userId : string) (d : database) :
  Wf.same_owners d (prune userId d).
Proof.
  unfold prune. destruct (_ <? _); [|apply same_owners_refl].
  now repeat split.
Qed.

Lemma conclude_owners (w : world) (userId : string) (st : progress) :
  Wf.same_owners (db_of st) (snd (conclude w userId st)).
Proof.
  unfold conclude. destruct (db_error w); simpl;
    [apply same_owners_refl|apply prune_owners].
Qed.

Lemma fetchArticles_owners (w : world) (userId : string) (p : process) :
  Wf.same_owners (db p) (db (snd (fetchArticles w userId p))).
Proof.
  unfold fetchArticles. destruct (isRunning p); [apply same_owners_refl|].
  destruct (conclude _ _ _) as [r d] eqn:Hc. simpl.
  set (st0 := {| db_of := db p; existingLinks := links_of userId (db p);
                 newCount := 0 |}) in *.
  apply (same_owners_trans _ _ _
           (for_sources_owners w userId (enabled_sources userId (db p)) st0)).
  change d with (snd (r, d)). rewrite <- Hc. apply conclude_owners.
Qed.

End FrameFacts.

(** ** Registration *)

Module RegisterFacts.
Import Js Database Server.

Lemma findByEmail_some (email : string) (d : database) (u : user) :
  In u (users d) -> u_email u = email ->
  exists u', userQueries.findByEmail email d = Some u'.
Proof.
  intros Hin He. unfold userQueries.findByEmail.
  destruct (find _ (users d)) as [u'|] eqn:Hf; [eauto|].
  apply (find_none _ _ Hf) in Hin. apply String.eqb_neq in Hin. contradiction.
Qed.

Lemma user_create_ok (id email password now : string) (d d' : database) :
  userQueries.create id email password now d = Ok d' ->
  exists u, users d' = users d ++ [u] /\ u_email u = email /\
            ~ In email (map u_email (users d)).
Proof.
  unfold userQueries.create.
  destruct (existsb (fun u => (u_email u =? email)%string) (users d)) eqn:Hex;
    [discriminate|].
  destruct (existsb (fun u => (u_id u =? id)%string) (users d));
    [discriminate|].
  intros [= <-]. eexists. simpl. split; [reflexivity|]. split; [reflexivity|].
  intros Hin. apply in_map_iff in Hin as (u & Hu & Hin).
  assert (Ht : existsb (fun u => (u_email u =? email)%string) (users d) = true).
  { apply existsb_exists. exists u. split; [assumption|]. now apply String.eqb_eq. }
  congruence.
Qed.

Lemma lower_map_id (us : list user) :
  Forall (fun u => toLowerCase (u_email u) = u_email u) us ->
  map (fun u => toLowerCase (u_email u)) us = map u_email us.
Proof.
  induction 1 as [|u us Hu _ IH]; simpl; [reflexivity|].
  now rewrite Hu, IH.
Qed.

(** The second half of a registration keeps the emails unique up to case,
    whatever ran since its first half. *)
Lemma register_commit_inv (email hashedPassword userId now : string)
  (d : database) :
  Wf.emails_unique d -> Wf.emails_lower d ->
  Wf.emails_unique (snd (register_commit email hashedPassword userId now d)) /\
  Wf.emails_lower (snd (register_commit email hashedPassword userId now d)).
Proof.
  intros Hu Hl. unfold register_commit.
  destruct (userQueries.create _ _ _ _ _) as [d'|e] eqn:Hc; simpl; [|auto].
  apply user_create_ok in Hc as (u & Hus & He & Hnew).
  unfold Wf.emails_unique, Wf.emails_lower in *. rewrite Hus.
  assert (Hlu : toLowerCase (u_email u) = u_email u)
    by (rewrite He; apply JsFacts.toLowerCase_idem).
  split.
  - rewrite map_app. simpl. rewrite Hlu, He.
    rewrite lower_map_id in * by assumption.
    apply NoDup_app; [assumption|repeat constructor; auto|].
    intros x Hx [<-|[]]. contradiction.
  - apply Forall_app. split; [assumption|]. now constructor.
Qed.

(** An email stored in some casing stops the first half. *)
Lemma register_check_duplicate (e : string) (password : option string)
  (d : database) :
  Wf.emails_lower d ->
  falsy (Some e) = false -> falsy password = false ->
  (exists u, In u (users d) /\ toLowerCase (u_email u) = toLowerCase e) ->
  register_check (Some e) password d =
  inl (reply 400 (Error "Email already exists")).
Proof.
  intros Hl He Hp (u & Hin & Heq). unfold register_check.
  rewrite He, Hp. simpl.
  unfold Wf.emails_lower in Hl. rewrite Forall_forall in Hl.
  rewrite (Hl u Hin) in Heq.
  destruct (findByEmail_some (toLowerCase e) d u Hin Heq) as [u' ->].
  reflexivity.
Qed.

End RegisterFacts.

(** ** Invariants of the event loop *)

Module LoopFacts.
Import Js Database Server EventLoop.

Lemma post_sources_users new_URL session name url type now d :
  users (snd (post_sources new_URL session name url type now d)) = users d.
Proof.
  unfold post_sources. destruct (requireAuth session); [|reflexivity].
  destruct (falsy name || falsy url || falsy type); [reflexivity|].
  destruct name, url, type; try reflexivity.
  destruct (new_URL _); [|reflexivity].
  destruct (negb _); [reflexivity|].
  destruct (is_private _); reflexivity.
Qed.

Lemma delete_sources_users session id d :
  users (snd (delete_sources session id d)) = users d.
Proof.
  unfold delete_sources. destruct (requireAuth session); [|reflexivity].
  reflexivity.
Qed.

Lemma advance_users (w : world) (fr : frame) (p : process) :
  users (db (proc (fst (advance w fr p)))) = users (db p).
Proof.
  unfold advance, leave. destruct (f_pending fr); [|reflexivity].
  destruct (conclude _ _ _) as [r d] eqn:Hc. simpl.
  change d with (snd (r, d)). rewrite <- Hc.
  apply (FrameFacts.conclude_owners w (f_userId fr) (locals fr (db p))).
Qed.

(** Only the second half of a registration writes to [users]. *)
Lemma step_users (w : world) (e : event) (s : server) :
  users (db (proc (fst (step w e s)))) = users (db (proc s)) \/
  exists email hashedPassword userId now,
    e = Hashed email hashedPassword userId now /\
    db (proc (fst (step w e s))) =
    snd (register_commit email hashedPassword userId now (db (proc s))).
Proof.
  destruct e; simpl.
  - left. destruct (register_check _ _ _); reflexivity.
  - right. exists email, hashedPassword, userId, now. split; [reflexivity|].
    destruct (register_commit _ _ _ _ _); reflexivity.
  - now left.
  - left.
    pose proof (post_sources_users new_URL session name url type now
                  (db (proc s))) as H.
    destruct (post_sources _ _ _ _ _ _ _); exact H.
  - left. pose proof (delete_sources_users session id (db (proc s))) as H.
    destruct (delete_sources _ _ _); exact H.
  - now left.
  - left. destruct (requireAuth session); [|reflexivity].
    unfold enter. destruct (isRunning (proc s)); [reflexivity|].
    now rewrite advance_users.
  - left. destruct (inflight s) as [fr|]; [|reflexivity].
    destruct (f_pending fr) as [|src rest]; [reflexivity|].
    rewrite advance_users. simpl.
    apply (FrameFacts.for_source_owners w (f_userId fr) (locals fr (db (proc s))) src).
Qed.

Lemma run_emails (turns : list (world * event)) (s : server) :
  Wf.emails_unique (db (proc s)) -> Wf.emails_lower (db (proc s)) ->
  Wf.emails_unique (db (proc (run turns s))) /\
  Wf.emails_lower (db (proc (run turns s))).
Proof.
  revert s. induction turns as [|[w e] turns IH]; intros s Hu Hl; simpl; [auto|].
  apply IH.
  - destruct (step_users w e s) as [Heq|(em & h & i & n & _ & Heq)].
    + unfold Wf.emails_unique in *. now rewrite Heq.
    + rewrite Heq. now apply RegisterFacts.register_commit_inv.
  - destruct (step_users w e s) as [Heq|(em & h & i & n & _ & Heq)].
    + unfold Wf.emails_lower in *. now rewrite Heq.
    + rewrite Heq. now apply RegisterFacts.register_commit_inv.
Qed.

End LoopFacts.


(** ** The guard [isRunning] *)

Module GuardFacts.
Import Js Database Server EventLoop.

Lemma advance_guard (w : world) (fr : frame) (p : process) :
  isRunning p = true -> Wf.guard_inv (fst (advance w fr p)).
Proof.
  intros Hp. unfold advance, leave, Wf.guard_inv.
  destruct (f_pending fr) as [|src rest] eqn:Hpend.
  - destruct (conclude _ _ _). reflexivity.
  - simpl. rewrite Hpend. split; [assumption|discriminate].
Qed.

Lemma set_db_guard (d : database) (s : server) :
  Wf.guard_inv s -> Wf.guard_inv (set_db d s).
Proof. unfold Wf.guard_inv, set_db. simpl. auto. Qed.

Lemma step_guard (w : world) (e : event) (s : server) :
  Wf.guard_inv s -> Wf.guard_inv (fst (step w e s)).
Proof.
  intros Hs. destruct e; simpl.
  - destruct (register_check _ _ _); assumption.
  - destruct (register_commit _ _ _ _ _). now apply set_db_guard.
  - assumption.
  - destruct (post_sources _ _ _ _ _ _ _). now apply set_db_guard.
  - destruct (delete_sources _ _ _). now apply set_db_guard.
  - assumption.
  - destruct (requireAuth session); [|assumption].
    unfold enter. destruct (isRunning (proc s)); [assumption|].
    now apply advance_guard.
  - pose proof Hs as Hs'. unfold Wf.guard_inv in Hs'.
    destruct (inflight s) as [fr|] eqn:Hfl; [|exact Hs].
    destruct (f_pending fr) as [|src rest]; [exact Hs|].
    apply advance_guard. simpl. apply Hs'.
Qed.

Lemma run_guard (turns : list (world * event)) (s : server) :
  Wf.guard_inv s -> Wf.guard_inv (run turns s).
Proof.
  revert s. induction turns as [|[w e] turns IH]; intros s Hs; simpl;
    [assumption|].
  apply IH. now apply step_guard.
Qed.

Lemma reachable_guard (s : server) : reachable s -> Wf.guard_inv s.
Proof.
  intros (d & turns & ->). apply run_guard. reflexivity.
Qed.

Lemma reachable_step (w : world) (e : event) (s : server) :
  reachable s -> reachable (fst (step w e s)).
Proof.
  intros (d & turns & ->). exists d, (turns ++ [(w, e)]).
  generalize (idle d). induction turns as [|[w' e'] turns IH]; intros s0; simpl;
    [reflexivity|apply IH].
Qed.

(** The result of the statements after the loop says whether the
    database raised. *)
Lemma leave_clears (w : world) (fr : frame) (p : process) :
  isRunning (snd (leave w fr p)) = false /\
  success (fst (leave w fr p)) =
  match db_error w with Some _ => false | None => true end.
Proof.
  unfold leave, conclude. destruct (db_error w); simpl; auto.
Qed.

(** A fetch that no other handler interrupts is [fetchArticles]. *)
Lemma settle_all (w : world) (u : string) (srcs : list source)
  (links : list string) (n : nat) (d : database) :
  srcs <> [] ->
  run (repeat (w, Settle) (List.length srcs))
      {| proc := {| isRunning := true; db := d |};
         inflight := Some {| f_userId := u; f_pending := srcs;
                             f_links := links; f_new := n |} |} =
  {| proc := {| isRunning := false;
                db := snd (conclude w u
                             (fold_left (for_source w u) srcs
                                {| db_of := d; existingLinks := links;
                                   newCount := n |})) |};
     inflight := None |}.
Proof.
  revert links n d. induction srcs as [|src rest IH]; intros links n d Hne;
    [contradiction|].
  simpl. unfold locals. simpl.
  set (st := for_source w u _ src).
  destruct rest as [|src' rest'].
  - unfold advance, leave, locals. simpl.
    replace {| db_of := db_of st; existingLinks := existingLinks st;
               newCount := newCount st |} with st by now destruct st.
    destruct (conclude w u st). reflexivity.
  - unfold advance. simpl f_pending. cbv iota. cbn [fst].
    rewrite (IH (existingLinks st) (newCount st) (db_of st)) by discriminate.
    replace {| db_of := db_of st; existingLinks := existingLinks st;
               newCount := newCount st |} with st by now destruct st.
    reflexivity.
Qed.

Lemma fetch_uninterrupted (w : world) (u : string) (d : database) :
  u <> "" ->
  run ((w, PostFetch (Some u))
         :: repeat (w, Settle) (List.length (enabled_sources u d)))
      (idle d) =
  {| proc := snd (fetchArticles w u {| isRunning := false; db := d |});
     inflight := None |}.
Proof.
  intros Hu. cbn [run]. cbn [step]. rewrite (ReadFacts.requireAuth_some u Hu).
  unfold enter, fetchArticles. cbn [idle proc isRunning db].
  destruct (enabled_sources u d) as [|src rest] eqn:Hsrcs.
  - unfold advance, leave, locals. cbn [f_pending f_userId f_links f_new db]. 
    destruct (conclude _ _ _). reflexivity.
  - unfold advance. cbn [f_pending]. cbn [fst].
    rewrite settle_all by discriminate.
    destruct (conclude _ _ _). reflexivity.
Qed.

(** The turn in which the last feed settles ends the fetch. *)
Lemma settle_last (w : world) (s : server) (fr : frame) (src : source) :
  inflight s = Some fr -> f_pending fr = [src] ->
  inflight (fst (step w Settle s)) = None /\
  isRunning (proc (fst (step w Settle s))) = false /\
  exists r,
    snd (step w Settle s) = Some (reply 200 (FetchResult r)) /\
    success r = match db_error w with Some _ => false | None => true end.
Proof.
  intros Hi Hp. cbn [step]. rewrite Hi, Hp. unfold advance. cbn [f_pending].
  match goal with
  | |- context [leave w ?f ?p] =>
      pose proof (leave_clears w f p) as [Hflag Hs];
      destruct (leave w f p) as [r p']
  end.
  cbn [fst snd proc inflight] in *.
  split; [reflexivity|]. split; [exact Hflag|]. now exists r.
Qed.

(** A turn in which a feed settles that is not the last goes on to the
    next feed. *)
Lemma settle_next (w : world) (s : server) (fr : frame)
  (src src' : source) (rest : list source) :
  inflight s = Some fr -> f_pending fr = src :: src' :: rest ->
  snd (step w Settle s) = None /\
  isRunning (proc (fst (step w Settle s))) = isRunning (proc s) /\
  exists fr',
    inflight (fst (step w Settle s)) = Some fr' /\
    f_pending fr' = src' :: rest /\ f_userId fr' = f_userId fr.
Proof.
  intros Hi Hp. cbn [step]. rewrite Hi, Hp. unfold advance. cbn [f_pending].
  cbn [fst snd proc inflight isRunning].
  split; [reflexivity|]. split; [reflexivity|].
  eexists. split; [reflexivity|]. split; reflexivity.
Qed.

(** As many settled feeds as the fetch has pending end it, whatever the
    feeds and the database do. *)
Lemma settles_end (ws : list world) :
  forall s fr,
    inflight s = Some fr -> f_pending fr <> [] ->
    List.length ws = List.length (f_pending fr) ->
    inflight (run (map (fun w => (w, Settle)) ws) s) = None /\
    isRunning (proc (run (map (fun w => (w, Settle)) ws) s)) = false.
Proof.
  induction ws as [|w ws IH]; intros s fr Hi Hne Hlen.
  - destruct (f_pending fr); [now elim Hne|discriminate].
  - destruct (f_pending fr) as [|src [|src' rest]] eqn:Hp; [now elim Hne| |].
    + destruct ws; [|discriminate]. cbn [map run].
      destruct (settle_last w s fr src Hi Hp) as (H1 & H2 & _). auto.
    + cbn [map run].
      destruct (settle_next w s fr src src' rest Hi Hp)
        as (_ & _ & fr' & Hi' & Hp' & _).
      apply (IH _ fr' Hi').
      * rewrite Hp'. discriminate.
      * rewrite Hp'. simpl in Hlen. simpl. lia.
Qed.

End GuardFacts.


(** ** Which feeds a fetch reads *)

Module SourceFacts.
Import Js Database Server.

Lemma in_enabled_sources (u : string) (d : database) (s : source) :
  In s (enabled_sources u d) <->
  In s (sources d) /\ s_user_id s = u /\ s_enabled s <> 0%Z.
Proof.
  unfold enabled_sources. rewrite filter_In, ReadFacts.in_findByUser_sources.
  rewrite negb_true_iff, Z.eqb_neq. tauto.
Qed.

(** The items loop reads the world for the clock only. *)
Lemma for_items_ext (w1 w2 : world) (u : string) (src : source)
  (items : list item) (st : progress) :
  (forall n, datetime_now w1 n = datetime_now w2 n) ->
  for_items w1 u src items st = for_items w2 u src items st.
Proof.
  intros Hclock. revert st.
  induction items as [|it rest IH]; intros st; simpl; [reflexivity|].
  destruct (has_value _ _); [apply IH|].
  rewrite Hclock. destruct (articleQueries.create _ _ _ _ _ _ _ _ _);
    [apply IH|reflexivity].
Qed.

Lemma for_source_ext (w1 w2 : world) (u : string) (st : progress) (src : source) :
  parseURL w1 (s_url src) = parseURL w2 (s_url src) ->
  (forall n, datetime_now w1 n = datetime_now w2 n) ->
  for_source w1 u st src = for_source w2 u st src.
Proof.
  intros Hfeed Hclock. unfold for_source, fetchSource. rewrite Hfeed.
  destruct (s_type src =? "rss")%string; [|reflexivity].
  destruct (parseURL w2 (s_url src)); [|reflexivity].
  now rewrite (for_items_ext w1 w2).
Qed.

Lemma for_sources_ext (w1 w2 : world) (u : string) (srcs : list source)
  (st : progress) :
  (forall s, In s srcs -> parseURL w1 (s_url s) = parseURL w2 (s_url s)) ->
  (forall n, datetime_now w1 n = datetime_now w2 n) ->
  fold_left (for_source w1 u) srcs st = fold_left (for_source w2 u) srcs st.
Proof.
  intros Hfeed Hclock. revert st.
  induction srcs as [|src srcs IH]; intros st; simpl; [reflexivity|].
  rewrite (for_source_ext w1 w2) by (auto using in_eq).
  apply IH. intros s Hs. apply Hfeed. now right.
Qed.

(** Where a row that the loop over the sources added comes from. *)
Lemma for_sources_new_rows (w : world) (u : string) (srcs : list source)
  (st : progress) (a : article) :
  In a (articles (db_of (fold_left (for_source w u) srcs st))) ->
  In a (articles (db_of st)) \/
  exists src items it,
    In src srcs /\ fetchSource w src = Ok items /\ In it items /\
    link it = Some (a_link a) /\ a_user_id a = u /\
    a_source_id a = Some (s_id src).
Proof.
  revert st. induction srcs as [|src srcs IH]; intros st; simpl; [auto|].
  intros H. destruct (IH _ H) as [Hin|(src' & items & it & Hs & Hrest)].
  - unfold for_source in Hin.
    destruct (fetchSource w src) as [items|e] eqn:Hf; [|auto].
    destruct (SummaryFacts.for_items_new_rows _ _ _ _ _ _ Hin)
      as [?|(it & Hit & Hl & _ & Hu & Hsid)]; [auto|].
    right. exists src, items, it. auto 10.
  - right. exists src', items, it. auto.
Qed.

Lemma prune_subset (u : string) (d : database) (a : article) :
  In a (articles (prune u d)) -> In a (articles d).
Proof.
  unfold prune. destruct (_ <? _); [|auto].
  simpl. intros H. now apply filter_In in H.
Qed.

Lemma fetchSource_items (w : world) (src : source) (items : list item) (it : item) :
  fetchSource w src = Ok items -> In it items ->
  s_type src = "rss" /\
  exists fed i, parseURL w (s_url src) = Ok fed /\ In i fed /\ link it = i_link i.
Proof.
  unfold fetchSource. destruct (String.eqb_spec (s_type src) "rss") as [Ht|Ht].
  - destruct (parseURL w (s_url src)) as [fed|e]; [|discriminate].
    intros [= <-] Hin. apply in_map_iff in Hin as (i & <- & Hi).
    split; [assumption|]. exists fed, i. auto.
  - intros [= <-] [].
Qed.

End SourceFacts.

(** C6. A fetch for [u] reads the feeds of the sources that belong to [u]
    and are enabled, and of no other: two worlds that agree on the feeds
    of those sources give the same result, whatever a disabled source or
    a source of another user would yield. Every article the fetch adds
    carries [user_id = u] and comes from an item of an enabled RSS source
    of [u]. *)
Theorem C6_fetch_reads_only_own_enabled_sources :
  (forall (w1 w2 : Server.world) (u : string) (p : Server.process),
      (forall s, In s (Database.sources (Server.db p)) ->
                 Database.s_user_id s = u -> Database.s_enabled s <> 0%Z ->
                 Server.parseURL w1 (Database.s_url s) =
                 Server.parseURL w2 (Database.s_url s)) ->
      (forall n, Server.datetime_now w1 n = Server.datetime_now w2 n) ->
      Server.db_error w1 = Server.db_error w2 ->
      Server.fetchArticles w1 u p = Server.fetchArticles w2 u p) /\
  (forall (w : Server.world) (u : string) (p : Server.process) (a : Database.article),
      In a (Database.articles (Server.db (snd (Server.fetchArticles w u p)))) ->
      ~ In a (Database.articles (Server.db p)) ->
      Database.a_user_id a = u /\
      exists s fed i,
        In s (Database.sources (Server.db p)) /\
        Database.s_user_id s = u /\ Database.s_enabled s <> 0%Z /\
        Database.s_type s = "rss" /\
        Database.a_source_id a = Some (Database.s_id s) /\
        Server.parseURL w (Database.s_url s) = Js.Ok fed /\
        In i fed /\ Server.i_link i = Some (Database.a_link a)).
Proof.
  split.
  - intros w1 w2 u p Hfeed Hclock Herr. unfold Server.fetchArticles.
    destruct (Server.isRunning p); [reflexivity|].
    rewrite (SourceFacts.for_sources_ext w1 w2).
    + unfold Server.conclude. now rewrite Herr.
    + intros s Hs. apply SourceFacts.in_enabled_sources in Hs as (? & ? & ?).
      now apply Hfeed.
    + exact Hclock.
  - intros w u p a Hin Hnew. unfold Server.fetchArticles in Hin.
    destruct (Server.isRunning p); [contradiction|].
    destruct (Server.conclude _ _ _) as [r d] eqn:Hc. simpl in Hin.
    assert (Hloop : In a (Database.articles
                            (Server.after_insertions w u (Server.db p)))).
    { unfold Server.conclude in Hc.
      destruct (Server.db_error w); injection Hc as _ <-;
        [exact Hin|exact (SourceFacts.prune_subset _ _ _ Hin)]. }
    apply SourceFacts.for_sources_new_rows in Hloop
      as [?|(src & items & it & Hsrc & Hf & Hit & Hl & Hu & Hsid)];
      [contradiction|].
    split; [exact Hu|].
    apply SourceFacts.in_enabled_sources in Hsrc as (Hs1 & Hs2 & Hs3).
    destruct (SourceFacts.fetchSource_items w src items it Hf Hit)
      as (Ht & fed & i & Hp & Hi & Hli).
    exists src, fed, i. rewrite <- Hli. auto 10.
Qed.

(** ** Pruning *)

Module PruneFacts.
Import Js Database Server.

Lemma in_map_unique {A B : Type} (f : A -> B) (l : list A) (x y : A) :
  NoDup (map f l) -> In x l -> In y l -> f x = f y -> x = y.
Proof.
  induction l as [|z l IH]; simpl; intros Hnd Hx Hy Hf; [contradiction|].
  inversion Hnd as [|? ? Hnotin Hnd']; subst.
  destruct Hx as [->|Hx], Hy as [->|Hy]; auto.
  - exfalso. apply Hnotin. rewrite Hf. now apply in_map.
  - exfalso. apply Hnotin. rewrite <- Hf. now apply in_map.
Qed.

Lemma filter_split_length {A : Type} (f : A -> bool) (l : list A) :
  List.length (filter f l) + List.length (filter (fun x => negb (f x)) l) =
  List.length l.
Proof.
  induction l as [|x l IH]; simpl; [reflexivity|].
  destruct (f x); simpl; lia.
Qed.

(** A test that picks the members of [t] out of [l] picks as many rows
    as [t] has. *)
Lemma filter_picks {A : Type} (f : A -> bool) (l t : list A) :
  NoDup l -> NoDup t ->
  (forall a, In a t -> In a l) ->
  (forall a, In a l -> (f a = true <-> In a t)) ->
  List.length (filter f l) = List.length t.
Proof.
  intros Hl Ht Hsub Hf. apply Permutation_length, NoDup_Permutation.
  - now apply NoDup_filter.
  - assumption.
  - intros a. rewrite filter_In. split.
    + intros [Hin Hfa]. now apply Hf.
    + intros Hin. split; [auto|]. apply Hf; auto.
Qed.

Lemma max_bounds (seq : Z) (l : list Z) (x : Z) :
  In x l -> (x <= fold_right Z.max seq l)%Z.
Proof.
  induction l as [|y l IH]; simpl; [contradiction|].
  intros [->|Hin]; [lia|]. specialize (IH Hin). lia.
Qed.

Lemma create_ids_unique user_id source_id source_name title link summary
  published_at now d d' :
  articleQueries.create user_id source_id source_name title link summary
    published_at now d = Ok d' ->
  Wf.article_ids_unique d -> Wf.article_ids_unique d'.
Proof.
  intros Hc Hu.
  apply DatabaseFacts.article_create_ok in Hc
    as (a & Harts & _ & _ & _ & _ & _ & _ & _ & _ & Hid & _).
  unfold Wf.article_ids_unique in *. rewrite Harts, map_app. simpl.
  apply NoDup_app; [assumption|repeat constructor; auto|].
  intros x Hx [<-|[]]. rewrite Hid in Hx. unfold Sql.next_rowid in Hx.
  apply (max_bounds (seq_articles d)) in Hx. lia.
Qed.

Lemma for_items_ids_unique (w : world) (u : string) (src : source)
  (items : list item) (st : progress) :
  Wf.article_ids_unique (db_of st) ->
  Wf.article_ids_unique (db_of (fst (for_items w u src items st))).
Proof.
  revert st. induction items as [|it rest IH]; intros st Hu; simpl; [assumption|].
  destruct (has_value _ _); [now apply IH|].
  destruct (articleQueries.create _ _ _ _ _ _ _ _ _) as [d|e] eqn:Hc;
    [|assumption].
  apply IH. simpl. eapply create_ids_unique; eassumption.
Qed.

Lemma for_sources_ids_unique (w : world) (u : string) (srcs : list source)
  (st : progress) :
  Wf.article_ids_unique (db_of st) ->
  Wf.article_ids_unique (db_of (fold_left (for_source w u) srcs st)).
Proof.
  revert st. induction srcs as [|src srcs IH]; intros st Hu; simpl; [assumption|].
  apply IH. unfold for_source.
  destruct (fetchSource w src); [now apply for_items_ids_unique|assumption].
Qed.

Section DeleteOldest.
Variable u : string.
Variable k : nat.
Variable d : database.
Hypothesis ids_unique : Wf.article_ids_unique d.
Hypothesis k_le : k <= articleQueries.countByUser u d.

Local Abbreviation by_fetched :=
  (fun r1 r2 : article => String.leb (a_fetched_at r1) (a_fetched_at r2)).
Local Abbreviation own := (filter (articleQueries.of_user u) (articles d)).
Local Abbreviation sorted := (Sql.order_by by_fetched own).
Local Abbreviation oldest := (firstn k sorted).
Local Abbreviation doomed :=
  (fun a : article => existsb (Z.eqb (a_id a)) (map a_id oldest)).

Lemma oldest_ids_eq : articleQueries.oldest_ids u (Z.of_nat k) d = map a_id oldest.
Proof.
  unfold articleQueries.oldest_ids, Sql.limit.
  destruct (Z.ltb_spec (Z.of_nat k) 0); [lia|]. now rewrite Nat2Z.id.
Qed.

Lemma deleted_articles :
  articles (articleQueries.deleteOldest u (Z.of_nat k) d) =
  filter (fun a => negb (doomed a)) (articles d).
Proof. unfold articleQueries.deleteOldest. simpl. now rewrite oldest_ids_eq. Qed.

Lemma rows_unique : NoDup (articles d).
Proof. exact (NoDup_map_inv _ _ ids_unique). Qed.

Lemma sorted_perm : Permutation own sorted.
Proof. apply SqlFacts.order_by_perm. Qed.

Lemma oldest_in_own (a : article) : In a oldest -> In a own.
Proof.
  intros H. apply (Permutation_in _ (Permutation_sym sorted_perm)).
  rewrite <- (firstn_skipn k sorted). apply in_or_app. now left.
Qed.

Lemma oldest_unique : NoDup oldest.
Proof.
  apply (NoDup_app_remove_r oldest (skipn k sorted)).
  rewrite firstn_skipn.
  apply (Permutation_NoDup sorted_perm), NoDup_filter, rows_unique.
Qed.

Lemma oldest_length : List.length oldest = k.
Proof.
  rewrite length_firstn.
  rewrite <- (Permutation_length sorted_perm).
  unfold articleQueries.countByUser in k_le. lia.
Qed.

Lemma doomed_iff (a : article) :
  In a (articles d) -> (doomed a = true <-> In a oldest).
Proof.
  intros Hin. rewrite existsb_exists. split.
  - intros (i & Hi & Heq). apply Z.eqb_eq in Heq.
    apply in_map_iff in Hi as (t & Ht & Hto).
    assert (Ht' : In t (articles d)).
    { apply oldest_in_own in Hto. now apply filter_In in Hto. }
    rewrite (in_map_unique a_id (articles d) a t ids_unique Hin Ht'); congruence.
  - intros Ho. exists (a_id a). split; [now apply in_map|apply Z.eqb_refl].
Qed.

(** Exactly [k] rows go. *)
Lemma deleteOldest_length :
  List.length (articles (articleQueries.deleteOldest u (Z.of_nat k) d)) + k =
  List.length (articles d).
Proof.
  rewrite deleted_articles, <- (filter_split_length doomed (articles d)).
  rewrite (filter_picks doomed (articles d) oldest), oldest_length.
  - lia.
  - exact rows_unique.
  - exact oldest_unique.
  - intros a Ha. apply oldest_in_own in Ha. now apply filter_In in Ha.
  - exact doomed_iff.
Qed.

(** All of them rows of [u]. *)
Lemma deleteOldest_count :
  articleQueries.countByUser u (articleQueries.deleteOldest u (Z.of_nat k) d) + k =
  articleQueries.countByUser u d.
Proof.
  unfold articleQueries.countByUser. rewrite deleted_articles.
  rewrite DeleteFacts.filter_filter.
  rewrite (filter_ext _ (fun x => articleQueries.of_user u x && negb (doomed x)))
    by (intros x; apply andb_comm).
  rewrite <- DeleteFacts.filter_filter.
  rewrite <- (filter_split_length doomed own).
  rewrite (filter_picks doomed own oldest), oldest_length.
  - lia.
  - apply NoDup_filter, rows_unique.
  - exact oldest_unique.
  - exact oldest_in_own.
  - intros a Ha. apply doomed_iff. now apply filter_In in Ha.
Qed.

Lemma deleteOldest_in (a : article) :
  In a (articles (articleQueries.deleteOldest u (Z.of_nat k) d)) <->
  In a (articles d) /\ ~ In a oldest.
Proof.
  rewrite deleted_articles, filter_In, negb_true_iff. split.
  - intros [Hin Hd]. split; [assumption|].
    rewrite <- (doomed_iff a Hin). congruence.
  - intros [Hin Hd]. split; [assumption|].
    destruct (doomed a) eqn:Hda; [|reflexivity].
    now apply (doomed_iff a Hin) in Hda.
Qed.

(** The rows that go are rows of [u], none fetched later than a row of
    [u] that stays. *)
Lemma deleteOldest_order (a b : article) :
  In a (articles d) ->
  ~ In a (articles (articleQueries.deleteOldest u (Z.of_nat k) d)) ->
  a_user_id a = u /\
  (In b (articles (articleQueries.deleteOldest u (Z.of_nat k) d)) ->
   a_user_id b = u ->
   String.leb (a_fetched_at a) (a_fetched_at b) = true).
Proof.
  intros Ha Hgone.
  assert (Hao : In a oldest).
  { destruct (doomed a) eqn:Hd; [now apply (doomed_iff a Ha)|].
    exfalso. apply Hgone. rewrite deleted_articles, filter_In. now rewrite Hd. }
  split.
  - apply oldest_in_own, filter_In in Hao as [_ Hu]. now apply String.eqb_eq.
  - intros Hb Hbu. apply deleteOldest_in in Hb as [Hb Hbo].
    assert (Hbs : In b (skipn k sorted)).
    { assert (Hbsorted : In b sorted).
      { apply (Permutation_in _ sorted_perm), filter_In.
        split; [assumption|now apply String.eqb_eq]. }
      rewrite <- (firstn_skipn k sorted) in Hbsorted.
      apply in_app_or in Hbsorted as [?|?]; [contradiction|assumption]. }
    apply (SqlFacts.strongly_sorted_split by_fetched (firstn k sorted)
             (skipn k sorted)); [|exact Hao|exact Hbs].
    rewrite firstn_skipn.
    apply SqlFacts.order_by_strongly_sorted.
    + intros x y. apply String.leb_total.
    + intros x y z. apply SqlFacts.string_leb_trans.
Qed.

End DeleteOldest.

End PruneFacts.


(** ** Links *)

Module LinkFacts.
Import Js Database Server.

Lemma nodup_map_filter {A B : Type} (f : A -> B) (g : A -> bool) (l : list A) :
  NoDup (map f l) -> NoDup (map f (filter g l)).
Proof.
  induction l as [|x l IH]; simpl; intros Hnd; [constructor|].
  inversion Hnd as [|? ? Hnotin Hnd']; subst.
  destruct (g x); simpl; [|auto].
  constructor; [|auto]. intros Hin. apply Hnotin.
  apply in_map_iff in Hin as (y & Hy & Hin). apply filter_In in Hin as [Hin _].
  rewrite <- Hy. now apply in_map.
Qed.

Lemma for_items_links_unique (w : world) (u : string) (src : source)
  (items : list item) (st : progress) :
  Wf.links_unique (db_of st) ->
  Wf.links_unique (db_of (fst (for_items w u src items st))).
Proof.
  revert st. induction items as [|it rest IH]; intros st Hu; simpl; [assumption|].
  destruct (has_value _ _); [now apply IH|].
  destruct (articleQueries.create _ _ _ _ _ _ _ _ _) as [d|e] eqn:Hc;
    [|assumption].
  apply IH. simpl.
  apply DatabaseFacts.article_create_ok in Hc
    as (a & Harts & _ & _ & _ & _ & _ & Hl & _ & _ & _ & _ & Hnew).
  unfold Wf.links_unique in *. rewrite Harts, map_app. simpl.
  apply NoDup_app; [assumption|repeat constructor; auto|].
  intros x Hx [<-|[]]. contradiction.
Qed.

(** An item whose link the set of the user does not hold, but some row of
    the table does, ends the loop over the items of its source: neither
    it nor the items after it are inserted. So does an item that lacks
    its title, its link or its date. *)
Lemma for_items_stops_at_held_link (w : world) (u : string) (src : source)
  (it : item) (rest : list item) (st : progress) :
  has_value (link it) (existingLinks st) = false ->
  Schema.refused (title it) (link it) (published it)
    (map a_link (articles (db_of st))) ->
  exists e, for_items w u src (it :: rest) st = (st, Some e).
Proof.
  intros Hset Hheld. simpl. rewrite Hset.
  destruct (DatabaseFacts.article_create_throws u (s_id src) (s_name src)
              (title it) (link it) (summarizeArticle (content it))
              (published it) (datetime_now w (newCount st)) (db_of st) Hheld)
    as [e ->].
  now exists e.
Qed.

(** No fetch makes two articles share a link, for one user or for two. *)
Lemma fetchArticles_links_unique (w : world) (u : string) (p : process) :
  Wf.links_unique (db p) ->
  Wf.links_unique (db (snd (fetchArticles w u p))).
Proof.
  intros Hu. unfold fetchArticles. destruct (isRunning p); [assumption|].
  set (st0 := {| db_of := db p; existingLinks := links_of u (db p);
                 newCount := 0 |}).
  assert (Hloop : forall srcs st, Wf.links_unique (db_of st) ->
            Wf.links_unique (db_of (fold_left (for_source w u) srcs st))).
  { induction srcs as [|src srcs IH]; intros st Hst; simpl; [assumption|].
    apply IH. unfold for_source.
    destruct (fetchSource w src); [now apply for_items_links_unique|assumption]. }
  specialize (Hloop (enabled_sources u (db p)) st0 Hu).
  unfold conclude. destruct (db_error w); simpl; [assumption|].
  unfold prune. destruct (_ <? _); [|assumption].
  unfold Wf.links_unique, articleQueries.deleteOldest. simpl.
  now apply nodup_map_filter.
Qed.

End LinkFacts.

(** C1, at an input where the code departs from it. [bob] holds story 1.
    [alice] holds nothing, and her enabled source yields story 1 and
    story 2. Neither link is stored for [alice], so both items should be
    inserted for her; the fetch inserts neither: the insert of story 1
    violates the table-wide UNIQUE constraint on [link], the exception
    leaves the loop over the items, and story 2 is never tried. When [bob]
    holds nothing, the same fetch inserts both. *)
Theorem C1_link_held_by_another_user_blocks_the_source :
  Server.links_of "alice" Samples.bob_has_story_1 = [] /\
  Server.enabled_sources "alice" Samples.bob_has_story_1 = [Samples.alice_source] /\
  (exists i1 i2,
      Server.fetchSource Samples.news Samples.alice_source = Js.Ok [i1; i2] /\
      Server.link i1 = Some "https://news.example/story/1" /\
      Server.link i2 = Some "https://news.example/story/2") /\
  Database.articleQueries.findByUser "alice"
    (Server.db (snd (Server.fetchArticles Samples.news "alice"
                       (Samples.at_rest Samples.bob_has_story_1)))) = [] /\
  fst (Server.fetchArticles Samples.news "alice"
         (Samples.at_rest Samples.bob_has_story_1)) =
  {| Server.success := true;
     Server.message := "Fetched 0 new articles. Total: 0" |} /\
  map Database.a_link
    (Database.articleQueries.findByUser "alice"
       (Server.db (snd (Server.fetchArticles Samples.news "alice"
                          (Samples.at_rest Samples.two_users))))) =
  ["https://news.example/story/1"; "https://news.example/story/2"].
Proof.
  split; [reflexivity|]. split; [reflexivity|].
  split; [eexists; eexists; split; [reflexivity|split; reflexivity]|].
  split; [reflexivity|]. split; reflexivity.
Qed.

(** ** [matches] decides [lang] *)

Module RegexFacts.
Import Js Regex Language.

Lemma append_nil_inv (s1 s2 : string) :
  String.append s1 s2 = "" -> s1 = "" /\ s2 = "".
Proof. destruct s1; simpl; [auto|discriminate]. Qed.

Lemma lang_nullable (i : bool) (r : regex) : nullable r = true <-> lang i r "".
Proof.
  split.
  - induction r; simpl; intros H; try discriminate.
    + constructor.
    + apply andb_true_iff in H as [H1 H2].
      change "" with (String.append "" ""). constructor; auto.
    + apply orb_true_iff in H as [H|H]; [apply L_AltL|apply L_AltR]; auto.
    + constructor.
  - intros H. remember "" as s eqn:Hs.
    induction H; try discriminate; try reflexivity; simpl.
    + apply append_nil_inv in Hs as [-> ->]. rewrite IHlang1, IHlang2; auto.
    + rewrite IHlang; auto.
    + rewrite IHlang; auto using orb_true_r.
Qed.

Lemma lang_deriv_sound (i : bool) (c : ascii) (r : regex) (s : string) :
  lang i (deriv i c r) s -> lang i r (String c s).
Proof.
  revert s. induction r; simpl; intros s H.
  - inversion H.
  - inversion H.
  - destruct (chr_eqb i c0 c) eqn:Hc; inversion H; subst. now constructor.
  - destruct (is_digit c) eqn:Hc; inversion H; subst. now constructor.
  - destruct (in_class lo hi c) eqn:Hc; inversion H; subst. now constructor.
  - inversion H; subst. constructor.
  - assert (Hseq : forall s, lang i (Seq (deriv i c r1) r2) s ->
                             lang i (Seq r1 r2) (String c s)).
    { intros s' H'. inversion H'; subst.
      change (String c (String.append s1 s2))
        with (String.append (String c s1) s2).
      constructor; auto. }
    destruct (nullable r1) eqn:Hn; [|auto].
    inversion H; subst; [auto|].
    change (String c s) with (String.append "" (String c s)).
    constructor; [now apply lang_nullable|auto].
  - inversion H; subst; [apply L_AltL|apply L_AltR]; auto.
  - inversion H; subst.
    change (String c (String.append s1 s2))
      with (String.append (String c s1) s2).
    constructor; auto.
Qed.

Lemma lang_deriv_complete (i : bool) (c : ascii) (r : regex) (s : string) :
  lang i r (String c s) -> lang i (deriv i c r) s.
Proof.
  intros H. remember (String c s) as x eqn:Hx. revert c s Hx.
  induction H; intros c0 s0 Hx; simpl; try discriminate.
  - injection Hx as -> <-. rewrite H. constructor.
  - injection Hx as -> <-. rewrite H. constructor.
  - injection Hx as -> <-. rewrite H. constructor.
  - injection Hx as -> <-. constructor.
  - destruct s1 as [|c1 s1]; simpl in Hx.
    + subst s2. rewrite (proj2 (lang_nullable i r1) H).
      apply L_AltR. auto.
    + injection Hx as -> <-.
      assert (Hs : lang i (Seq (deriv i c0 r1) r2) (String.append s1 s2))
        by (constructor; auto).
      destruct (nullable r1); [now apply L_AltL|assumption].
  - apply L_AltL. auto.
  - apply L_AltR. auto.
  - destruct s1 as [|c1 s1]; simpl in Hx.
    + subst s2. exact (IHlang2 c0 s0 eq_refl).
    + injection Hx as -> <-. constructor; auto.
Qed.

(** The matcher accepts exactly the words of the expression. *)
Lemma matches_lang (i : bool) (r : regex) (s : string) :
  matches i r s = true <-> lang i r s.
Proof.
  revert r. induction s as [|c s IH]; intros r; simpl.
  - apply lang_nullable.
  - rewrite IH. split; [apply lang_deriv_sound|apply lang_deriv_complete].
Qed.

End RegexFacts.

(** ** The patterns of [privatePatterns], read as sets of host names *)

Module HostFacts.
Import Js Regex Language Hosts Server.

Lemma lang_eps (i : bool) (s : string) : lang i Eps s <-> s = "".
Proof. split; [now inversion 1|intros ->; constructor]. Qed.

Lemma lang_seq (i : bool) (r1 r2 : regex) (s : string) :
  lang i (Seq r1 r2) s <->
  exists s1 s2, s = String.append s1 s2 /\ lang i r1 s1 /\ lang i r2 s2.
Proof.
  split.
  - inversion 1; subst. eauto.
  - intros (s1 & s2 & -> & H1 & H2). now constructor.
Qed.

Lemma lang_alt (i : bool) (r1 r2 : regex) (s : string) :
  lang i (Alt r1 r2) s <-> lang i r1 s \/ lang i r2 s.
Proof.
  split.
  - inversion 1; subst; auto.
  - intros [H|H]; [now apply L_AltL|now apply L_AltR].
Qed.

Lemma lang_chr (i : bool) (l : ascii) (s : string) :
  lang i (Chr l) s <-> exists c, s = String c "" /\ chr_eqb i l c = true.
Proof.
  split.
  - inversion 1; subst. eauto.
  - intros (c & -> & H). now constructor.
Qed.

Lemma lower_dot (c : ascii) : lower_char "." = lower_char c -> c = "."%char.
Proof. destruct c as [[] [] [] [] [] [] [] []]; vm_compute; congruence. Qed.

Lemma lang_dot (i : bool) (s : string) : lang i dot s <-> s = ".".
Proof.
  unfold dot. rewrite lang_chr. split.
  - intros (c & -> & H). unfold chr_eqb in H.
    destruct i; apply Ascii.eqb_eq in H; [apply lower_dot in H|]; now subst.
  - intros ->. exists "."%char. split; [reflexivity|]. now destruct i.
Qed.

Lemma lang_str (i : bool) (lit s : string) :
  lang i (Str lit) s <->
  if i then toLowerCase s = toLowerCase lit else s = lit.
Proof.
  revert s. induction lit as [|l lit IH]; intros s; simpl.
  - rewrite lang_eps. destruct i; [|reflexivity].
    destruct s; simpl; split; intros H; try discriminate; reflexivity.
  - rewrite lang_seq. split.
    + intros (s1 & s2 & -> & H1 & H2).
      apply lang_chr in H1 as (c & -> & Hc). apply IH in H2. simpl.
      unfold chr_eqb in Hc. destruct i; apply Ascii.eqb_eq in Hc; congruence.
    + intros H. destruct s as [|c s].
      { destruct i; simpl in H; discriminate. }
      exists (String c ""), s. split; [reflexivity|].
      rewrite lang_chr, IH. unfold chr_eqb.
      destruct i; simpl in H; injection H as Hc Hs;
        (split; [exists c; split; [reflexivity|apply Ascii.eqb_eq; congruence]
                |assumption]).
Qed.

Lemma lang_star_any (i : bool) (s : string) : lang i (Star Any) s.
Proof.
  induction s as [|c s IH]; [constructor|].
  change (String c s) with (String.append (String c "") s).
  constructor; [constructor|assumption].
Qed.

Lemma lang_star_digit (i : bool) (s : string) :
  lang i (Star Digit) s <-> all_digits s = true.
Proof.
  split.
  - intros H. remember (Star Digit) as r eqn:Hr.
    induction H; try discriminate; [reflexivity|].
    injection Hr as ->. inversion H; subst. simpl.
    rewrite IHlang2 by reflexivity. now rewrite andb_true_r.
  - induction s as [|c s IH]; simpl; intros H; [constructor|].
    apply andb_true_iff in H as [Hc Hs].
    change (String c s) with (String.append (String c "") s).
    constructor; [now constructor|auto].
Qed.

Lemma lang_num (i : bool) (s : string) : lang i num s <-> number s.
Proof.
  unfold num, Plus, number. rewrite lang_seq. split.
  - intros (s1 & s2 & -> & H1 & H2). inversion H1; subst.
    apply lang_star_digit in H2. simpl.
    match goal with Hd : is_digit _ = true |- _ => rewrite Hd end.
    rewrite H2. split; [discriminate|reflexivity].
  - intros [Hne Hd]. destruct s as [|c s]; [contradiction|].
    simpl in Hd. apply andb_true_iff in Hd as [Hc Hs].
    exists (String c ""), s. split; [reflexivity|].
    split; [now constructor|now apply lang_star_digit].
Qed.

(** The shape shared by the five patterns for IPv4 addresses. *)
Lemma lang_quad (i : bool) (ra rb : regex) (s : string) :
  lang i (cat [ra; dot; rb; dot; num; dot; num]) s <->
  exists a b c d,
    lang i ra a /\ lang i rb b /\ number c /\ number d /\ s = quad a b c d.
Proof.
  unfold cat. simpl. split.
  - intros H.
    apply lang_seq in H as (a & t1 & -> & Ha & H).
    apply lang_seq in H as (x1 & t2 & -> & Hx1 & H).
    apply lang_seq in H as (b & t3 & -> & Hb & H).
    apply lang_seq in H as (x2 & t4 & -> & Hx2 & H).
    apply lang_seq in H as (c & t5 & -> & Hc & H).
    apply lang_seq in H as (x3 & t6 & -> & Hx3 & H).
    apply lang_seq in H as (d & t7 & -> & Hd & H).
    apply lang_eps in H. apply lang_dot in Hx1, Hx2, Hx3.
    apply lang_num in Hc, Hd. subst.
    exists a, b, c, d. rewrite SummaryFacts.append_empty_r. auto.
  - intros (a & b & c & d & Ha & Hb & Hc & Hd & ->).
    unfold quad.
    assert (Hdot : forall r t, lang i r t -> lang i (Seq dot r) (String "." t)).
    { intros r t Ht. change (String "." t) with (String.append "." t).
      constructor; [now apply lang_dot|assumption]. }
    apply L_Seq; [assumption|]. apply Hdot.
    apply L_Seq; [assumption|]. apply Hdot.
    apply L_Seq; [now apply lang_num|]. apply Hdot.
    rewrite <- (SummaryFacts.append_empty_r d).
    apply L_Seq; [now apply lang_num|constructor].
Qed.

Lemma below_256 (P : nat -> bool) :
  forallb P (seq 0 256) = true -> forall n, n < 256 -> P n = true.
Proof.
  intros H n Hn. rewrite forallb_forall in H. apply H, in_seq. lia.
Qed.

Lemma show_nat_inj (a b : nat) : show_nat a = show_nat b -> a = b.
Proof.
  unfold show_nat. intros H.
  apply (f_equal NilEmpty.uint_of_string) in H.
  rewrite !NilEmpty.usu in H. injection H as H.
  now apply Unsigned.to_uint_inj.
Qed.

Lemma show_nat_number (n : nat) : n < 256 -> number (show_nat n).
Proof.
  intros Hn.
  pose proof (below_256
                (fun n => negb (show_nat n =? "")%string && all_digits (show_nat n))
                eq_refl n Hn) as H.
  apply andb_true_iff in H as [H1 H2]. split; [|assumption].
  apply negb_true_iff in H1. now apply String.eqb_neq.
Qed.

Ltac find_number n fuel :=
  lazymatch fuel with
  | O => fail
  | S ?f => first [ exists n; split; [lia | reflexivity] | find_number (S n) f ]
  end.

Lemma lang_second_of_172 (b : string) :
  lang false second_of_172 b <-> sixteen_to_thirty_one b.
Proof.
  unfold second_of_172, sixteen_to_thirty_one. split.
  - intros H.
    repeat (apply lang_alt in H as [H|H]);
      apply lang_seq in H as (s1 & s2 & -> & H1 & H2);
      apply lang_chr in H1 as (c1 & -> & Hc1);
      apply Ascii.eqb_eq in Hc1; subst c1;
      inversion H2 as [| |c2 Hc2|lo hi c2 Hc2| | | | | |]; subst;
      destruct c2 as [[] [] [] [] [] [] [] []];
      try (vm_compute in Hc2; discriminate Hc2);
      find_number 16 16.
  - intros (n & Hn & ->). apply RegexFacts.matches_lang.
    assert (H : forallb (fun n => matches false second_of_172 (show_nat n))
                  (seq 16 16) = true) by reflexivity.
    rewrite forallb_forall in H. apply H, in_seq. lia.
Qed.

Lemma sixteen_number (b : string) : sixteen_to_thirty_one b -> number b.
Proof. intros (n & Hn & ->). apply show_nat_number. lia. Qed.

(** *** One pattern at a time *)

Lemma test_literal (lit h : string) :
  test (anchored false (Str lit)) h = true <-> h = lit.
Proof.
  unfold test, anchored. simpl. rewrite RegexFacts.matches_lang.
  apply (lang_str false).
Qed.

Lemma test_literal_ci (lit h : string) :
  toLowerCase lit = lit -> toLowerCase h = h ->
  (test (anchored true (Str lit)) h = true <-> h = lit).
Proof.
  intros Hlit Hh. unfold test, anchored. simpl.
  rewrite RegexFacts.matches_lang, (lang_str true). now rewrite Hlit, Hh.
Qed.

Lemma test_quad (ra rb : regex) (h : string) :
  test (anchored false (cat [ra; dot; rb; dot; num; dot; num])) h = true <->
  exists a b c d,
    lang false ra a /\ lang false rb b /\ number c /\ number d /\ h = quad a b c d.
Proof.
  unfold test, anchored. cbn [Regex.from_start Regex.body Regex.ignore_case].
  rewrite RegexFacts.matches_lang. apply lang_quad.
Qed.

Lemma toLowerCase_append (p q : string) :
  toLowerCase (String.append p q) = String.append (toLowerCase p) (toLowerCase q).
Proof. induction p as [|c p IH]; simpl; [reflexivity|now rewrite IH]. Qed.

Lemma append_same_length (p p' q q' : string) :
  String.length p = String.length p' ->
  String.append p q = String.append p' q' -> p = p' /\ q = q'.
Proof.
  revert p'. induction p as [|c p IH]; intros [|c' p'] Hlen H; simpl in *;
    try discriminate; [auto|].
  injection H as -> H. injection Hlen as Hlen.
  destruct (IH p' Hlen H) as [-> ->]. auto.
Qed.

Lemma toLowerCase_length (s : string) :
  String.length (toLowerCase s) = String.length s.
Proof. induction s as [|c s IH]; simpl; [reflexivity|now rewrite IH]. Qed.

Lemma test_dot_local (h : string) :
  toLowerCase h = h ->
  (test {| Regex.from_start := false; Regex.body := Str ".local";
           Regex.ignore_case := true |} h
   = true <-> exists p, h = String.append p ".local").
Proof.
  intros Hh. unfold test. cbn [Regex.from_start Regex.body Regex.ignore_case].
  rewrite RegexFacts.matches_lang, lang_seq. split.
  - intros (p & q & -> & _ & Hq). apply (lang_str true) in Hq.
    rewrite toLowerCase_append in Hh.
    apply append_same_length in Hh as [_ Hq'];
      [|apply toLowerCase_length].
    exists p. f_equal. rewrite <- Hq'. exact Hq.
  - intros (p & ->). exists p, ".local".
    split; [reflexivity|]. split; [apply lang_star_any|].
    now apply (lang_str true).
Qed.

(** What the nine patterns accept among lower-case host names. *)
Lemma is_private_iff (h : string) :
  toLowerCase h = h -> (is_private h = true <-> blocked h \/ h = "::1").
Proof.
  intros Hh. unfold is_private, privatePatterns. cbn [existsb].
  rewrite !orb_true_iff.
  rewrite (test_literal_ci "localhost" h eq_refl Hh).
  rewrite (test_literal_ci "localhost.localdomain" h eq_refl Hh).
  rewrite (test_literal "::1" h).
  rewrite !test_quad, (test_dot_local h Hh).
  unfold blocked. split.
  - intros [H|[H|[H|[H|[H|[H|[H|[H|[H|H]]]]]]]]]; try discriminate; auto.
    + destruct H as (a & b & c & d & Ha & Hb & Hc & Hd & ->).
      apply (lang_str false) in Ha. apply lang_num in Hb.
      left. right. right. right. exists a, b, c, d.
      unfold private_prefix. auto 10.
    + destruct H as (a & b & c & d & Ha & Hb & Hc & Hd & ->).
      apply (lang_str false) in Ha. apply lang_num in Hb.
      left. right. right. right. exists a, b, c, d.
      unfold private_prefix. auto 10.
    + destruct H as (a & b & c & d & Ha & Hb & Hc & Hd & ->).
      apply (lang_str false) in Ha. apply lang_num in Hb.
      left. right. right. right. exists a, b, c, d.
      unfold private_prefix. auto 10.
    + destruct H as (a & b & c & d & Ha & Hb & Hc & Hd & ->).
      apply (lang_str false) in Ha. apply lang_second_of_172 in Hb.
      left. right. right. right. exists a, b, c, d.
      pose proof (sixteen_number b Hb). unfold private_prefix. auto 10.
    + destruct H as (a & b & c & d & Ha & Hb & Hc & Hd & ->).
      apply (lang_str false) in Ha, Hb.
      left. right. right. right. exists a, b, c, d.
      assert (number b) by (subst b; split; [discriminate|reflexivity]).
      unfold private_prefix. auto 10.
  - intros [[H|[H|[H|H]]]|H]; auto 10.
    destruct H as (a & b & c & d & Hb & Hc & Hd & Hpre & ->).
    destruct Hpre as [->|[->|[->|[[-> H172]|[-> ->]]]]].
    + right. left. exists "127", b, c, d.
      split; [now apply (lang_str false)|]. split; [now apply lang_num|auto].
    + do 3 right. left. exists "0", b, c, d.
      split; [now apply (lang_str false)|]. split; [now apply lang_num|auto].
    + do 4 right. left. exists "10", b, c, d.
      split; [now apply (lang_str false)|]. split; [now apply lang_num|auto].
    + do 5 right. left. exists "172", b, c, d.
      split; [now apply (lang_str false)|].
      split; [now apply lang_second_of_172|auto].
    + do 6 right. left. exists "192", "168", c, d.
      split; [now apply (lang_str false)|].
      split; [now apply (lang_str false)|auto].
Qed.

End HostFacts.

(** ** IPv4 addresses among the host names *)

Module QuadFacts.
Import Js Hosts Server.

Lemma digit_char (c : ascii) :
  is_digit c = true ->
  Ascii.eqb c "." = false /\ Ascii.eqb c ":" = false /\ lower_char c = c.
Proof.
  destruct c as [[] [] [] [] [] [] [] []]; vm_compute; intros H;
    try discriminate H; auto.
Qed.

Lemma all_digits_no_dot (s : string) : all_digits s = true -> no_dot s = true.
Proof.
  induction s as [|c s IH]; simpl; [reflexivity|].
  intros H. apply andb_true_iff in H as [Hc Hs].
  destruct (digit_char c Hc) as (-> & _). simpl. auto.
Qed.

Lemma all_digits_plain (s : string) : all_digits s = true -> plain s = true.
Proof.
  induction s as [|c s IH]; simpl; [reflexivity|].
  intros H. apply andb_true_iff in H as [-> Hs]. simpl. auto.
Qed.

Lemma plain_append (p q : string) :
  plain (String.append p q) = plain p && plain q.
Proof.
  induction p as [|c p IH]; simpl; [reflexivity|].
  now rewrite IH, andb_assoc.
Qed.

Lemma plain_quad (a b c d : string) :
  plain a = true -> plain b = true -> plain c = true -> plain d = true ->
  plain (quad a b c d) = true.
Proof.
  intros Ha Hb Hc Hd. unfold quad.
  rewrite plain_append, Ha. simpl.
  rewrite plain_append, Hb. simpl.
  now rewrite plain_append, Hc.
Qed.

Lemma plain_lower (s : string) : plain s = true -> toLowerCase s = s.
Proof.
  induction s as [|c s IH]; simpl; [reflexivity|].
  intros H. apply andb_true_iff in H as [Hc Hs]. rewrite (IH Hs). f_equal.
  apply orb_true_iff in Hc as [Hc|Hc].
  - now apply digit_char.
  - apply Ascii.eqb_eq in Hc. now subst.
Qed.

Lemma plain_no_colon (s : string) : plain s = true -> has_colon s = false.
Proof.
  induction s as [|c s IH]; simpl; [reflexivity|].
  intros H. apply andb_true_iff in H as [Hc Hs]. rewrite (IH Hs).
  apply orb_true_iff in Hc as [Hc|Hc].
  - destruct (digit_char c Hc) as (_ & -> & _). reflexivity.
  - apply Ascii.eqb_eq in Hc. now subst.
Qed.

(** A string has one first dot. *)
Lemma split_first_dot (a a' r r' : string) :
  no_dot a = true -> no_dot a' = true ->
  String.append a (String "." r) = String.append a' (String "." r') ->
  a = a' /\ r = r'.
Proof.
  revert a'. induction a as [|c a IH]; intros [|c' a']; simpl; intros Ha Ha' H.
  - injection H as ->. auto.
  - injection H as <- _. discriminate.
  - injection H as -> _. discriminate.
  - injection H as -> H.
    apply andb_true_iff in Ha as [_ Ha]. apply andb_true_iff in Ha' as [_ Ha'].
    destruct (IH a' Ha Ha' H) as [-> ->]. auto.
Qed.

Lemma dotted_plain (a b c d : nat) :
  a < 256 -> b < 256 -> c < 256 -> d < 256 -> plain (dotted a b c d) = true.
Proof.
  intros Ha Hb Hc Hd. unfold dotted.
  apply plain_quad; apply all_digits_plain, HostFacts.show_nat_number; assumption.
Qed.

Lemma prefix_no_dot (a b : string) : private_prefix a b -> no_dot a = true.
Proof.
  intros [->|[->|[->|[[-> _]|[-> _]]]]]; reflexivity.
Qed.

(** Among the addresses that [URL] prints, the blocked ones are those of
    the five ranges. *)
Lemma dotted_blocked (a b c d : nat) :
  a < 256 -> b < 256 -> c < 256 -> d < 256 ->
  (blocked (dotted a b c d) <-> private_range a b).
Proof.
  intros Ha Hb Hc Hd.
  pose proof (dotted_plain a b c d Ha Hb Hc Hd) as Hplain.
  pose proof (HostFacts.show_nat_number a Ha) as [_ Hna].
  pose proof (HostFacts.show_nat_number b Hb) as Hnb.
  pose proof (HostFacts.show_nat_number c Hc) as Hnc.
  pose proof (HostFacts.show_nat_number d Hd) as Hnd.
  split.
  - intros [H|[H|[(p & H)|(a' & b' & c' & d' & Hb' & Hc' & Hd' & Hpre & H)]]].
    + rewrite H in Hplain. discriminate.
    + rewrite H in Hplain. discriminate.
    + rewrite H, plain_append in Hplain.
      apply andb_true_iff in Hplain as [_ Hplain]. discriminate.
    + unfold dotted, quad in H.
      apply split_first_dot in H as [Ha' H];
        [|now apply all_digits_no_dot|now apply (prefix_no_dot a' b')].
      apply split_first_dot in H as [Hb'' _];
        [|apply all_digits_no_dot, Hnb|apply all_digits_no_dot, Hb'].
      subst a' b'. unfold private_range.
      destruct Hpre as [H|[H|[H|[[H (n & Hn & H')]|[H H']]]]].
      * left. now apply HostFacts.show_nat_inj.
      * right. left. now apply HostFacts.show_nat_inj.
      * do 2 right. left. now apply HostFacts.show_nat_inj.
      * do 3 right. left. apply HostFacts.show_nat_inj in H'. subst n.
        split; [now apply HostFacts.show_nat_inj|assumption].
      * do 4 right. split; now apply HostFacts.show_nat_inj.
  - intros Hrange. do 3 right.
    exists (show_nat a), (show_nat b), (show_nat c), (show_nat d).
    repeat (split; [assumption|]). split; [|reflexivity].
    unfold private_prefix.
    destruct Hrange as [->|[->|[->|[[-> Hn]|[-> ->]]]]].
    + now left.
    + right. now left.
    + do 2 right. now left.
    + do 3 right. left. split; [reflexivity|]. now exists b.
    + do 4 right. split; reflexivity.
Qed.

Lemma no_colon_not_loopback6 (h : string) : has_colon h = false -> h <> "::1".
Proof. intros H ->. discriminate. Qed.

End QuadFacts.

(** C3, as the code has it. POST /api/sources of an authenticated user
    with a name, a url and a type answers 400 and creates no source when
    the url does not parse, when its protocol is neither [http:] nor
    [https:], and when its lower-cased host name is [localhost],
    [localhost.localdomain], ends in [.local], or is a dotted quad of
    decimal numbers that starts 127., 0., 10., 172.16. to 172.31., or
    192.168. Every other parsed http or https url whose host name has no
    colon is accepted and stored. For the IPv4 addresses, the rejected
    ones are those of 127.0.0.0/8, 0.0.0.0/8, 10.0.0.0/8, 172.16.0.0/12 and
    192.168.0.0/16. *)
Theorem C3_source_urls_are_screened :
  forall (new_URL : string -> Js.outcome Server.URL)
         (u name url type now : string) (d : Database.database),
    u <> "" -> name <> "" -> url <> "" -> type <> "" ->
    let out := Server.post_sources new_URL (Some u) (Some name) (Some url)
                 (Some type) now d in
    match new_URL url with
    | Js.Throw _ => out = (Server.reply 400 (Server.Error "Invalid URL format"), d)
    | Js.Ok parsed =>
        let h := Js.toLowerCase (Server.hostname parsed) in
        (Server.protocol parsed <> "http:" /\ Server.protocol parsed <> "https:" ->
         out = (Server.reply 400 (Server.Error "URL must use HTTP or HTTPS"), d)) /\
        (Server.protocol parsed = "http:" \/ Server.protocol parsed = "https:" ->
         (Hosts.blocked h ->
          out = (Server.reply 400
                   (Server.Error "Private/local URLs are not allowed"), d)) /\
         (~ Hosts.blocked h -> Hosts.has_colon h = false ->
          out = Server.accept_source u name url type now d)) /\
        (forall a b c e,
            a < 256 -> b < 256 -> c < 256 -> e < 256 ->
            Server.hostname parsed = Hosts.dotted a b c e ->
            (Hosts.blocked h <-> Hosts.private_range a b) /\
            Hosts.has_colon h = false)
    end.
Proof.
  intros new_URL u name url type now d Hu Hname Hurl Htype out. subst out.
  unfold Server.post_sources. rewrite (ReadFacts.requireAuth_some u Hu).
  rewrite !JsFacts.falsy_some by assumption. cbn [orb].
  destruct (new_URL url) as [parsed|e]; [|reflexivity].
  cbn zeta.
  assert (Hproto : existsb (String.eqb (Server.protocol parsed)) ["http:"; "https:"]
                   = true <->
                   Server.protocol parsed = "http:" \/ Server.protocol parsed = "https:").
  { cbn [existsb]. rewrite !orb_true_iff, !String.eqb_eq. intuition discriminate. }
  pose proof (JsFacts.toLowerCase_idem (Server.hostname parsed)) as Hlow.
  pose proof (HostFacts.is_private_iff _ Hlow) as Hpriv.
  split; [|split].
  - intros [H1 H2].
    destruct (existsb _ _); [|reflexivity].
    destruct (proj1 Hproto eq_refl); contradiction.
  - intros Hp. apply Hproto in Hp. rewrite Hp. cbn [negb]. split.
    + intros Hb. now rewrite (proj2 Hpriv (or_introl Hb)).
    + intros Hnb Hcol.
      destruct (Server.is_private _); [|reflexivity].
      destruct (proj1 Hpriv eq_refl) as [?|Hip]; [contradiction|].
      now apply QuadFacts.no_colon_not_loopback6 in Hcol.
  - intros a b c e Ha Hb Hc He Hhost. rewrite Hhost.
    rewrite (QuadFacts.plain_lower _ (QuadFacts.dotted_plain a b c e Ha Hb Hc He)).
    split; [now apply QuadFacts.dotted_blocked|].
    apply QuadFacts.plain_no_colon. now apply QuadFacts.dotted_plain.
Qed.

(** * The theorems at sample inputs *)


(** The row that goes is the one fetched first, though it is the one
    published last. *)
Example crowded_loses_first_fetched :
  map Database.a_id
    (firstn 2 (Database.articles
                 (Server.db (snd (Server.fetchArticles Samples.news "alice"
                                    (Samples.at_rest Samples.crowded))))))
  = [2%Z; 3%Z].
Proof. vm_compute. reflexivity. Qed.

(** An address of 10.0.0.0/8 is turned away. *)
Lemma C3_screen_witness :
  "alice" <> "" /\ "Intranet" <> "" /\ "https://10.0.0.5/feed" <> "" /\
  "rss" <> "" /\
  Server.post_sources
    (fun _ => Js.Ok {| Server.protocol := "https:"; Server.hostname := "10.0.0.5" |})
    (Some "alice") (Some "Intranet") (Some "https://10.0.0.5/feed") (Some "rss")
    "2024-01-02 09:00:00" Samples.two_users =
  (Server.reply 400 (Server.Error "Private/local URLs are not allowed"),
   Samples.two_users).
Proof.
  assert (H1 : "alice" <> "") by discriminate.
  assert (H2 : "Intranet" <> "") by discriminate.
  assert (H3 : "https://10.0.0.5/feed" <> "") by discriminate.
  assert (H4 : "rss" <> "") by discriminate.
  repeat (split; [assumption|]).
  pose proof (C3_source_urls_are_screened
                (fun _ => Js.Ok {| Server.protocol := "https:";
                                   Server.hostname := "10.0.0.5" |})
                "alice" "Intranet" "https://10.0.0.5/feed" "rss"
                "2024-01-02 09:00:00" Samples.two_users H1 H2 H3 H4) as H.
  cbv beta iota zeta in H. destruct H as (_ & H & _).
  apply H; [right; reflexivity|].
  do 3 right. exists "10", "0", "0", "5".
  repeat split; try discriminate. now right; right; left.
Defined.

(** C3 fails at a link-local address: 169.254.169.254 lies in
    169.254.0.0/16, the url is http, and the source is created. *)
Lemma C3_link_local_address_is_accepted :
  Server.hostname Samples.metadata_url = Hosts.dotted 169 254 169 254 /\
  Server.protocol Samples.metadata_url = "http:" /\
  Server.status
    (fst (Server.post_sources (fun _ => Js.Ok Samples.metadata_url)
            (Some "alice") (Some "Metadata")
            (Some "http://169.254.169.254/latest/meta-data/") (Some "rss")
            "2024-01-02 09:00:00" Samples.two_users)) = 200 /\
  map Database.s_url
    (Database.sources
       (snd (Server.post_sources (fun _ => Js.Ok Samples.metadata_url)
               (Some "alice") (Some "Metadata")
               (Some "http://169.254.169.254/latest/meta-data/") (Some "rss")
               "2024-01-02 09:00:00" Samples.two_users))) =
  ["https://news.example/rss"; "https://news.example/rss";
   "https://muted.example/rss"; "http://169.254.169.254/latest/meta-data/"].
Proof. repeat split. Qed.

(** The host name of [http://[::1]/] keeps its brackets, and the pattern
    [/^::1$/] does not see it. *)
Example bracketed_loopback_is_not_matched :
  Server.is_private "[::1]" = false /\ Server.is_private "::1" = true.
Proof. split; reflexivity. Qed.

Example sample_hosts :
  map Server.is_private
    ["localhost"; "localhost.localdomain"; "printer.local"; "127.0.0.1";
     "0.0.0.0"; "10.20.30.40"; "172.16.0.1"; "172.31.255.255"; "192.168.1.1"]
  = [true; true; true; true; true; true; true; true; true] /\
  map Server.is_private
    ["example.com"; "172.15.0.1"; "172.32.0.1"; "192.169.1.1"; "11.0.0.1";
     "169.254.169.254"; "localhost.example.com"; "10.0.0"]
  = [false; false; false; false; false; false; false; false].
Proof. split; reflexivity. Qed.


(** A short content is its own summary. *)
Lemma C5_summary_witness :
  Server.summarizeArticle (Some "First.") = "First." /\
  ai.summarize (Some "First.") = "First.".
Proof.
  destruct C5_summary_is_truncated_content as (H1 & _ & H3). split.
  - destruct (H1 (Some "First.")) as (_ & _ & H).
    apply (H "First." eq_refl). vm_compute. repeat constructor.
  - destruct (H3 (Some "First.")) as (_ & H).
    apply (H "First." eq_refl). vm_compute. repeat constructor.
Defined.

(** C5 fails for [ai.summarize] at a content of 151 characters: the
    summary has 153 and is not the first 150 characters of the content. *)
Lemma C5_marker_makes_the_summary_longer :
  String.length Samples.long_content = 151 /\
  String.length (ai.summarize (Some Samples.long_content)) = 153 /\
  ~ String.length (ai.summarize (Some Samples.long_content)) <= 150 /\
  ai.summarize (Some Samples.long_content) <> Js.prefix 150 Samples.long_content.
Proof.
  split; [reflexivity|]. split; [reflexivity|]. split.
  - vm_compute. lia.
  - intros H. apply (f_equal String.length) in H. vm_compute in H. discriminate.
Qed.

(** The muted source of [alice] and the source of [bob] do not count:
    whether the muted feed fails or yields a story, the fetch is the
    same. *)
Lemma C6_sources_witness :
  Server.parseURL Samples.news "https://muted.example/rss" <>
  Server.parseURL Samples.news_and_muted "https://muted.example/rss" /\
  Server.fetchArticles Samples.news "alice" (Samples.at_rest Samples.two_users) =
  Server.fetchArticles Samples.news_and_muted "alice"
    (Samples.at_rest Samples.two_users).
Proof.
  split; [discriminate|].
  apply (proj1 C6_fetch_reads_only_own_enabled_sources).
  - intros s [<-|[<-|[<-|[]]]] Hu He.
    + reflexivity.
    + discriminate Hu.
    + now contradiction He.
  - reflexivity.
  - reflexivity.
Defined.

(** What [bob] holds does not show in the feed of [alice]. *)
Lemma C7_feed_witness :
  "alice" <> "" /\
  Server.get_feed (Some "alice") Samples.two_users =
  Server.get_feed (Some "alice") Samples.bob_has_two.
Proof.
  assert (H : "alice" <> "") by discriminate.
  split; [exact H|].
  destruct (C7_feed_and_sources_are_per_user "alice" H) as (_ & H2 & _).
  apply H2. reflexivity.
Defined.

(** The feed of [bob]: story 2, of 2 January, before story 1. *)
Lemma C8_order_witness :
  Server.get_feed (Some "bob") Samples.bob_has_two =
  Server.reply 200
    (Server.ArticleRows
       [Samples.bob_story 2 "2" "2024-01-02" "2024-01-01 12:00:00";
        Samples.bob_story 1 "1" "2024-01-01" "2024-01-01 12:00:00"]) /\
  Sql.text_leb (Some "2024-01-01") (Some "2024-01-02") = true.
Proof.
  split; [reflexivity|].
  apply (C8_feed_is_sorted_newest_first (Some "bob") Samples.bob_has_two _
           eq_refl 0
           (Samples.bob_story 2 "2" "2024-01-02" "2024-01-01 12:00:00")
           (Samples.bob_story 1 "1" "2024-01-01" "2024-01-01 12:00:00")
           eq_refl eq_refl).
Defined.



(** [alice] cannot delete the source of [bob]. *)
Lemma C10_delete_witness :
  "alice" <> "" /\
  Server.delete_sources (Some "alice") (Some 2%Z) Samples.two_users =
  (Server.reply 404 (Server.Error "Source not found"), Samples.two_users).
Proof.
  assert (H : "alice" <> "") by discriminate.
  split; [exact H|].
  destruct (C10_delete_source_only_own "alice" (Some 2%Z) Samples.two_users H)
    as (_ & H2 & _).
  destruct H2 as [Hr Hd].
  - intros s [<-|[<-|[<-|[]]]] [H1 H2]; discriminate.
  - rewrite (surjective_pairing (Server.delete_sources _ _ _)).
    now rewrite Hr, Hd.
Defined.

(** * Further properties of the code *)

(** ** database.js: inserts and lookups *)

Module LookupFacts.
Import Js Database.

Lemma find_app {A : Type} (f : A -> bool) (l l' : list A) :
  find f (l ++ l') = match find f l with Some x => Some x | None => find f l' end.
Proof.
  induction l as [|x l IH]; simpl; [reflexivity|].
  destruct (f x); [reflexivity|exact IH].
Qed.

Lemma find_none_iff {A : Type} (f : A -> bool) (l : list A) :
  find f l = None <-> forall x, In x l -> f x = false.
Proof.
  split; [apply find_none|].
  induction l as [|x l IH]; simpl; intros H; [reflexivity|].
  rewrite (H x (or_introl eq_refl)). apply IH. auto.
Qed.

Lemma existsb_false_iff {A : Type} (f : A -> bool) (l : list A) :
  existsb f l = false <-> forall x, In x l -> f x = false.
Proof.
  split.
  - intros H x Hx. destruct (f x) eqn:Hf; [|reflexivity].
    assert (existsb f l = true) by (apply existsb_exists; eauto). congruence.
  - intros H. destruct (existsb f l) eqn:He; [|reflexivity].
    apply existsb_exists in He as (x & Hx & Hf). rewrite (H x Hx) in Hf. discriminate.
Qed.

Lemma next_rowid_above (seq : Z) (ids : list Z) :
  (seq < Sql.next_rowid seq ids)%Z /\
  forall i, In i ids -> (i < Sql.next_rowid seq ids)%Z.
Proof.
  unfold Sql.next_rowid. split.
  - induction ids as [|i ids IH]; simpl; lia.
  - intros i Hi. apply (PruneFacts.max_bounds seq) in Hi. lia.
Qed.

End LookupFacts.

(** X1. [userQueries.create] throws exactly when the id or the email, compared
    as they are, is taken. When it succeeds the table has one more row,
    [findByEmail] and [findById] find it, [findById] hands out its id,
    email and creation time, and the lookups of other emails are as
    before; the other tables are untouched. *)
Theorem X1_user_create_then_lookup :
  forall (id email password now : string) (d : Database.database),
    ((exists u, In u (Database.users d) /\
                (Database.u_id u = id \/ Database.u_email u = email)) ->
     exists e, Database.userQueries.create id email password now d = Js.Throw e) /\
    ((forall u, In u (Database.users d) ->
                Database.u_id u <> id /\ Database.u_email u <> email) ->
     exists d',
       Database.userQueries.create id email password now d = Js.Ok d' /\
       Database.users d' =
       Database.users d ++
         [{| Database.u_id := id; Database.u_email := email;
             Database.u_password := password; Database.u_created_at := now |}] /\
       Database.userQueries.findByEmail email d' =
       Some {| Database.u_id := id; Database.u_email := email;
               Database.u_password := password; Database.u_created_at := now |} /\
       Database.userQueries.findById id d' =
       Some {| Database.userQueries.p_id := id;
               Database.userQueries.p_email := email;
               Database.userQueries.p_created_at := now |} /\
       (forall e', e' <> email ->
                   Database.userQueries.findByEmail e' d' =
                   Database.userQueries.findByEmail e' d) /\
       Database.sources d' = Database.sources d /\
       Database.articles d' = Database.articles d).
Proof.
  intros id email password now d. split.
  - intros (u & Hin & Hu). unfold Database.userQueries.create.
    destruct (existsb (fun u0 => (Database.u_email u0 =? email)%string)
                (Database.users d)) eqn:Hem; [eauto|].
    destruct (existsb (fun u0 => (Database.u_id u0 =? id)%string)
                (Database.users d)) eqn:Hid; [eauto|].
    exfalso.
    rewrite LookupFacts.existsb_false_iff in Hid, Hem.
    specialize (Hid u Hin). specialize (Hem u Hin).
    apply String.eqb_neq in Hid, Hem. tauto.
  - intros Hfree. unfold Database.userQueries.create.
    assert (Hid : existsb (fun u => (Database.u_id u =? id)%string)
                    (Database.users d) = false).
    { apply LookupFacts.existsb_false_iff. intros u Hu.
      apply String.eqb_neq. now apply Hfree. }
    assert (Hem : existsb (fun u => (Database.u_email u =? email)%string)
                    (Database.users d) = false).
    { apply LookupFacts.existsb_false_iff. intros u Hu.
      apply String.eqb_neq. now apply Hfree. }
    rewrite Hid, Hem. eexists. split; [reflexivity|].
    rewrite LookupFacts.existsb_false_iff in Hid, Hem.
    unfold Database.userQueries.findByEmail, Database.userQueries.findById.
    simpl. rewrite !LookupFacts.find_app.
    rewrite (proj2 (LookupFacts.find_none_iff _ _) Hem).
    rewrite (proj2 (LookupFacts.find_none_iff _ _) Hid).
    simpl. rewrite !String.eqb_refl.
    repeat (split; [reflexivity|]). split; [|split; reflexivity].
    intros e' He'. rewrite LookupFacts.find_app. simpl.
    replace (email =? e')%string with false
      by (symmetry; apply String.eqb_neq; congruence).
    now destruct (find _ (Database.users d)).
Qed.

(** X2. [sourceQueries.create] adds one row, with the values given, under an
    id above every id in the table and above the counter, so the new row
    is the only one with its id: [findById] with that id finds it for its
    owner and nothing for any other user, and every other lookup is as
    before. *)
Theorem X2_source_create_then_findById :
  forall (u name url type : string) (enabled : Z) (now : string)
         (d : Database.database),
    let d' := snd (Database.sourceQueries.create u name url type enabled now d) in
    exists id,
      let s := {| Database.s_id := id; Database.s_user_id := u;
                  Database.s_name := name; Database.s_url := url;
                  Database.s_type := type; Database.s_enabled := enabled;
                  Database.s_created_at := now |} in
      Database.sources d' = Database.sources d ++ [s] /\
      (Database.seq_sources d < id)%Z /\
      (forall s0, In s0 (Database.sources d) -> (Database.s_id s0 < id)%Z) /\
      Database.sourceQueries.findById id u d' = Some s /\
      (forall v, v <> u -> Database.sourceQueries.findById id v d' = None) /\
      (forall i v, i <> id ->
                   Database.sourceQueries.findById i v d' =
                   Database.sourceQueries.findById i v d) /\
      Database.users d' = Database.users d /\
      Database.articles d' = Database.articles d.
Proof.
  intros u name url type enabled now d d'. subst d'.
  unfold Database.sourceQueries.create. cbn [snd].
  set (id := Sql.next_rowid (Database.seq_sources d)
               (map Database.s_id (Database.sources d))).
  destruct (LookupFacts.next_rowid_above (Database.seq_sources d)
              (map Database.s_id (Database.sources d))) as [Hseq Hids].
  fold id in Hseq, Hids.
  assert (Hold : forall s, In s (Database.sources d) -> (Database.s_id s < id)%Z)
    by (intros s Hs; apply Hids; now apply in_map).
  assert (Hmiss : forall v,
             find (fun s => (Database.s_id s =? id)%Z &&
                            (Database.s_user_id s =? v)%string)
               (Database.sources d) = None).
  { intros v. apply LookupFacts.find_none_iff. intros s Hs.
    apply Hold in Hs. apply andb_false_iff. left. apply Z.eqb_neq. lia. }
  exists id. cbn zeta.
  split; [reflexivity|]. split; [exact Hseq|]. split; [exact Hold|].
  unfold Database.sourceQueries.findById. simpl.
  split; [|split; [|split]].
  - rewrite LookupFacts.find_app, Hmiss. simpl.
    now rewrite Z.eqb_refl, String.eqb_refl.
  - intros v Hv. rewrite LookupFacts.find_app, Hmiss. simpl.
    replace (u =? v)%string with false
      by (symmetry; apply String.eqb_neq; congruence).
    now rewrite andb_false_r.
  - intros i v Hi. rewrite LookupFacts.find_app. simpl.
    replace (id =? i)%Z with false by (symmetry; apply Z.eqb_neq; congruence).
    simpl. now destruct (find _ (Database.sources d)).
  - split; reflexivity.
Qed.

Module RowFacts.
Import Js Database.

Lemma find_filter_kept {A : Type} (f g : A -> bool) (l : list A) :
  (forall x, In x l -> f x = true -> g x = true) ->
  find f (filter g l) = find f l.
Proof.
  induction l as [|x l IH]; simpl; intros H; [reflexivity|].
  destruct (f x) eqn:Hf.
  - rewrite (H x (or_introl eq_refl) Hf). simpl. now rewrite Hf.
  - destruct (g x); simpl; [rewrite Hf|]; apply IH; auto.
Qed.

Lemma find_filter_gone {A : Type} (f g : A -> bool) (l : list A) :
  (forall x, In x l -> g x = true -> f x = false) ->
  find f (filter g l) = None.
Proof.
  intros H. apply LookupFacts.find_none_iff. intros x Hx.
  apply filter_In in Hx as [Hx Hg]. now apply H.
Qed.

Lemma same_key_once {A B : Type} (f : A -> B) (k : B) (l : list A) :
  NoDup (map f l) -> (forall x, In x l -> f x = k) -> List.length l <= 1.
Proof.
  destruct l as [|x [|y l]]; simpl; intros Hnd Hk; try lia.
  exfalso. inversion Hnd as [|? ? Hnot _]; subst. apply Hnot.
  rewrite (Hk x), <- (Hk y) by auto. now left.
Qed.

Lemma with_articles_same (d : database) :
  with_articles (articles d) (seq_articles d) d = d.
Proof. now destruct d. Qed.

Lemma deletes_keep_seq (dels : list (option Z * string)) (d : database) :
  seq_sources
    (fold_left (fun d0 del => snd (sourceQueries.delete (fst del) (snd del) d0))
       dels d) = seq_sources d.
Proof.
  revert d. induction dels as [|del dels IH]; intros d; simpl; [reflexivity|].
  now rewrite IH.
Qed.

Lemma limit_incl {A : Type} (n : Z) (l : list A) (x : A) :
  In x (Sql.limit n l) -> In x l.
Proof.
  unfold Sql.limit. destruct (n <? 0)%Z; [auto|]. intros H.
  rewrite <- (firstn_skipn (Z.to_nat n) l). apply in_or_app. now left.
Qed.

Lemma limit_all {A : Type} (n : Z) (l : list A) :
  (n < 0 \/ Z.of_nat (List.length l) <= n)%Z -> Sql.limit n l = l.
Proof.
  unfold Sql.limit. intros H. destruct (n <? 0)%Z eqn:Hn; [reflexivity|].
  apply Z.ltb_ge in Hn. apply firstn_all2. lia.
Qed.

(** The ids the subquery of [deleteOldest] selects are ids of rows of the
    user. *)
Lemma oldest_ids_own (u : string) (count : Z) (d : database) (i : Z) :
  In i (articleQueries.oldest_ids u count d) ->
  exists a, In a (articles d) /\ a_user_id a = u /\ a_id a = i.
Proof.
  unfold articleQueries.oldest_ids. intros H.
  apply in_map_iff in H as (a & Ha & Hin). apply limit_incl in Hin.
  apply (Permutation_in a (Permutation_sym (SqlFacts.order_by_perm _ _))) in Hin.
  apply filter_In in Hin as [Hin Hu]. apply String.eqb_eq in Hu. eauto.
Qed.

Lemma existsb_eqb_in (i : Z) (ids : list Z) :
  existsb (Z.eqb i) ids = true <-> In i ids.
Proof.
  rewrite existsb_exists. split.
  - intros (x & Hx & He). apply Z.eqb_eq in He. now subst.
  - intros H. exists i. split; [exact H|apply Z.eqb_refl].
Qed.

(** With [id] the primary key, [deleteOldest] for one user leaves the
    rows of every other user as they are. *)
Lemma deleteOldest_others (u v : string) (count : Z) (d : database) :
  Wf.article_ids_unique d -> v <> u ->
  filter (articleQueries.of_user v)
    (articles (articleQueries.deleteOldest u count d)) =
  filter (articleQueries.of_user v) (articles d).
Proof.
  intros Hnd Hv. unfold articleQueries.deleteOldest.
  cbn [articles with_articles].
  rewrite DeleteFacts.filter_filter. apply filter_ext_in.
  intros a Ha. destruct (articleQueries.of_user v a) eqn:Hva;
    [|now rewrite andb_false_r].
  rewrite andb_true_r. apply negb_true_iff.
  destruct (existsb (Z.eqb (a_id a)) (articleQueries.oldest_ids u count d))
    eqn:Hex; [|reflexivity].
  exfalso. apply existsb_eqb_in, oldest_ids_own in Hex as (b & Hb & Hbu & Hid).
  assert (a = b) by (apply (PruneFacts.in_map_unique a_id (articles d)); auto).
  subst b. apply String.eqb_eq in Hva. congruence.
Qed.

End RowFacts.

(** X3. [sourceQueries.delete]: afterwards [findById] finds nothing under the
    id for the user, and a second delete leaves the table as the first
    left it. The table is unchanged exactly when [findById] found nothing
    before. Lookups with another id or for another user are as before.
    With [id] the primary key, at most one row goes. A bound id that is
    NaN removes nothing. *)
Theorem X3_source_delete_then_findById :
  forall (id : Z) (u : string) (d : Database.database),
    let d' := snd (Database.sourceQueries.delete (Some id) u d) in
    Database.sourceQueries.findById id u d' = None /\
    snd (Database.sourceQueries.delete (Some id) u d') = d' /\
    (Database.sourceQueries.findById id u d = None <-> d' = d) /\
    (forall i v, i <> id \/ v <> u ->
                 Database.sourceQueries.findById i v d' =
                 Database.sourceQueries.findById i v d) /\
    (Schema.source_ids_unique d ->
     List.length (Database.sources d) <= S (List.length (Database.sources d'))) /\
    snd (Database.sourceQueries.delete None u d) = d.
Proof.
  intros id u d d'. subst d'.
  unfold Database.sourceQueries.delete, Database.sourceQueries.findById.
  cbn [fst snd Database.sources Database.with_sources Database.seq_sources].
  set (hit := Database.sourceQueries.delete_hits (Some id) u).
  assert (Hhit : forall s, hit s =
                           (Database.s_id s =? id)%Z &&
                           (Database.s_user_id s =? u)%string) by reflexivity.
  split; [|split; [|split; [|split; [|split]]]].
  - apply RowFacts.find_filter_gone. intros s _ Hs. rewrite <- Hhit.
    now destruct (hit s).
  - unfold Database.with_sources. simpl. f_equal.
    rewrite DeleteFacts.filter_filter. apply filter_ext.
    intros s. now destruct (hit s).
  - rewrite LookupFacts.find_none_iff. split.
    + intros Hnone. rewrite DeleteFacts.filter_all.
      * apply DeleteFacts.with_sources_same.
      * intros s Hs. rewrite Hhit. now rewrite (Hnone s Hs).
    + intros Hsame s Hs. rewrite <- Hhit.
      apply (f_equal Database.sources) in Hsame. simpl in Hsame.
      rewrite <- Hsame in Hs. apply filter_In in Hs as [_ Hs].
      now apply negb_true_iff in Hs.
  - intros i v Hiv. apply RowFacts.find_filter_kept. intros s _ Hs.
    apply andb_true_iff in Hs as [Hi Hv].
    apply Z.eqb_eq in Hi. apply String.eqb_eq in Hv.
    rewrite Hhit. apply negb_true_iff, andb_false_iff.
    destruct Hiv as [Hne|Hne]; [left; apply Z.eqb_neq|right; apply String.eqb_neq];
      congruence.
  - intros Hnd.
    rewrite <- (PruneFacts.filter_split_length hit (Database.sources d)).
    assert (List.length (filter hit (Database.sources d)) <= 1); [|lia].
    apply (RowFacts.same_key_once Database.s_id id).
    + now apply LinkFacts.nodup_map_filter.
    + intros s Hs. apply filter_In in Hs as [_ Hs]. rewrite Hhit in Hs.
      apply andb_true_iff in Hs as [Hi _]. now apply Z.eqb_eq.
  - rewrite DeleteFacts.filter_all by reflexivity.
    now rewrite DeleteFacts.with_sources_same.
Qed.

(** X4. AUTOINCREMENT: whatever is deleted after a source was created, the
    row of a source created later has a larger id, so an id that a client
    still holds never comes to name another source. *)
Theorem X4_source_ids_are_not_reused :
  forall (u name url type : string) (enabled : Z) (now : string)
         (dels : list (option Z * string))
         (u2 name2 url2 type2 : string) (enabled2 : Z) (now2 : string)
         (d : Database.database),
    let d1 := snd (Database.sourceQueries.create u name url type enabled now d) in
    let d2 :=
      fold_left
        (fun d0 del => snd (Database.sourceQueries.delete (fst del) (snd del) d0))
        dels d1 in
    let d3 :=
      snd (Database.sourceQueries.create u2 name2 url2 type2 enabled2 now2 d2) in
    exists s1 s2,
      Database.sources d1 = Database.sources d ++ [s1] /\
      Database.sources d3 = Database.sources d2 ++ [s2] /\
      (Database.s_id s1 < Database.s_id s2)%Z.
Proof.
  intros u name url type enabled now dels u2 name2 url2 type2 enabled2 now2 d
         d1 d2 d3.
  destruct (LookupFacts.next_rowid_above (Database.seq_sources d2)
              (map Database.s_id (Database.sources d2))) as [Hseq _].
  assert (Hkept : Database.seq_sources d2 = Database.seq_sources d1)
    by (subst d2; now rewrite RowFacts.deletes_keep_seq).
  rewrite Hkept in Hseq at 1.
  eexists. eexists. split; [reflexivity|]. split; [reflexivity|]. exact Hseq.
Qed.

(** X5. [articleQueries.create] throws exactly when one of the values
    bound for the title, the link and the date is [undefined], or
    [findByLink] finds the link, whoever owns the row that holds it. When
    it succeeds, the three values were there and [findByLink] finds the
    new row, which carries them, is stamped with the time of the insert
    and is numbered above every row of the table; the lookups of other
    links are as before, and only the count of the user goes up, by
    one. *)
Theorem X5_article_create_then_findByLink :
  forall (u : string) (source_id : Z) (source_name : string)
         (title link : option string) (summary : string)
         (published_at : option string) (now : string)
         (d : Database.database),
    ((exists e,
         Database.articleQueries.create u source_id source_name title link
           summary published_at now d = Js.Throw e) <->
     title = None \/ link = None \/ published_at = None \/
     exists l a, link = Some l /\
                 Database.articleQueries.findByLink l d = Some a) /\
    (forall d',
        Database.articleQueries.create u source_id source_name title link
          summary published_at now d = Js.Ok d' ->
        exists t l p a,
          title = Some t /\ link = Some l /\ published_at = Some p /\
          Database.articleQueries.findByLink l d' = Some a /\
          Database.a_user_id a = u /\ Database.a_title a = t /\
          Database.a_link a = l /\ Database.a_published_at a = Some p /\
          Database.a_fetched_at a = now /\
          Database.a_summary a = Some summary /\
          (forall b, In b (Database.articles d) ->
                     (Database.a_id b < Database.a_id a)%Z) /\
          (forall l', l' <> l ->
                      Database.articleQueries.findByLink l' d' =
                      Database.articleQueries.findByLink l' d) /\
          Database.articleQueries.countByUser u d' =
          S (Database.articleQueries.countByUser u d) /\
          (forall v, v <> u ->
                     Database.articleQueries.countByUser v d' =
                     Database.articleQueries.countByUser v d)).
Proof.
  intros u source_id source_name title link summary published_at now d.
  unfold Database.articleQueries.findByLink, Database.articleQueries.create.
  destruct title as [t|];
    [|split; [split; [auto|eauto]|discriminate]].
  destruct link as [l|];
    [|split; [split; [auto|eauto]|discriminate]].
  destruct published_at as [p|];
    [|split; [split; [auto|eauto]|discriminate]].
  destruct (find (fun a => (Database.a_link a =? l)%string)
              (Database.articles d)) as [a|] eqn:Hfind.
  - pose proof (find_some _ _ Hfind) as [Hin Hl].
    replace (existsb (fun a0 => (Database.a_link a0 =? l)%string)
               (Database.articles d)) with true
      by (symmetry; apply existsb_exists; eauto).
    split; [|discriminate].
    split; [|eauto].
    intros _. right. right. right. exists l, a. auto.
  - pose proof (proj1 (LookupFacts.find_none_iff _ _) Hfind) as Hnone.
    rewrite (proj2 (LookupFacts.existsb_false_iff _ _) Hnone).
    destruct (LookupFacts.next_rowid_above (Database.seq_articles d)
                (map Database.a_id (Database.articles d))) as [_ Hids].
    split.
    + split; [intros [e He]; discriminate|].
      intros [H|[H|[H|(l' & a & Hl & Ha)]]]; try discriminate.
      injection Hl as <-. congruence.
    + intros d' [= <-]. exists t, l, p. eexists.
      repeat (split; [reflexivity|]).
      unfold Database.articleQueries.countByUser. simpl.
      rewrite LookupFacts.find_app, Hfind. simpl. rewrite String.eqb_refl.
      split; [reflexivity|]. repeat (split; [reflexivity|]).
      split; [|split; [|split]].
      * intros b Hb. apply Hids. now apply in_map.
      * intros l' Hl. rewrite LookupFacts.find_app. simpl.
        replace (l =? l')%string with false
          by (symmetry; apply String.eqb_neq; congruence).
        now destruct (find (fun a => (Database.a_link a =? l')%string)
                        (Database.articles d)).
      * rewrite filter_app, length_app. simpl.
        unfold Database.articleQueries.of_user at 2. simpl.
        rewrite String.eqb_refl. simpl. lia.
      * intros v Hv. rewrite filter_app, length_app. simpl.
        unfold Database.articleQueries.of_user at 2. simpl.
        replace (u =? v)%string with false
          by (symmetry; apply String.eqb_neq; congruence).
        simpl. lia.
Qed.

(** X6. [articleQueries.deleteOldest] at its edges: a count of zero deletes
    nothing; a negative count, which SQLite reads as no limit, or a count
    that reaches the number of rows of the user, deletes all of them. It
    only ever removes rows, leaves the other tables alone and, with [id]
    the primary key, leaves the rows of every other user as they are. *)
Theorem X6_deleteOldest_edges_and_frame :
  forall (u : string) (count : Z) (d : Database.database),
    let d' := Database.articleQueries.deleteOldest u count d in
    (count = 0%Z -> d' = d) /\
    ((count < 0 \/
      Z.of_nat (Database.articleQueries.countByUser u d) <= count)%Z ->
     Database.articleQueries.countByUser u d' = 0) /\
    (forall a, In a (Database.articles d') -> In a (Database.articles d)) /\
    (Wf.article_ids_unique d ->
     forall v, v <> u ->
               filter (Database.articleQueries.of_user v) (Database.articles d') =
               filter (Database.articleQueries.of_user v) (Database.articles d)) /\
    Database.users d' = Database.users d /\
    Database.sources d' = Database.sources d.
Proof.
  intros u count d d'. subst d'.
  unfold Database.articleQueries.deleteOldest.
  cbn [Database.articles Database.with_articles Database.users Database.sources].
  split; [|split; [|split; [|split; [|split; reflexivity]]]].
  - intros ->. unfold Database.articleQueries.oldest_ids, Sql.limit. simpl.
    rewrite DeleteFacts.filter_all by reflexivity.
    apply RowFacts.with_articles_same.
  - intros Hall. unfold Database.articleQueries.countByUser. simpl.
    rewrite DeleteFacts.filter_filter, DeleteFacts.filter_none; [reflexivity|].
    intros a Ha. apply andb_false_iff.
    destruct (Database.articleQueries.of_user u a) eqn:Hu; [left|now right].
    apply negb_false_iff, RowFacts.existsb_eqb_in.
    unfold Database.articleQueries.oldest_ids.
    rewrite RowFacts.limit_all.
    + apply in_map.
      apply (Permutation_in a (SqlFacts.order_by_perm _ _)).
      apply filter_In. auto.
    + rewrite <- (Permutation_length (SqlFacts.order_by_perm _ _)). exact Hall.
  - intros a Ha. now apply filter_In in Ha.
  - intros Hnd v Hv. now apply RowFacts.deleteOldest_others.
Qed.

(** ** Sessions *)

Module AuthFacts.
Import Js Database Server.

Lemma lower_nonempty (e e2 : string) :
  toLowerCase e2 = toLowerCase e -> e <> "" -> e2 <> "".
Proof.
  intros H He ->. destruct e; [now apply He|discriminate].
Qed.

Lemma falsy_or (a b : option string) :
  falsy a || falsy b = false ->
  exists x y, a = Some x /\ b = Some y /\ x <> "" /\ y <> "".
Proof.
  intros H. apply orb_false_iff in H as [Ha Hb].
  apply JsFacts.falsy_false in Ha as (x & -> & Hx).
  apply JsFacts.falsy_false in Hb as (y & -> & Hy). eauto 6.
Qed.

(** What a registration that answers 200 has done. *)
Lemma registered (e pw hashed uid now : string) (d : database) :
  status (fst (post_register (Some e) (Some pw) hashed uid now d)) = 200 ->
  e <> "" /\ pw <> "" /\
  userQueries.findByEmail (toLowerCase e) d = None /\
  find (fun u => (u_id u =? uid)%string) (users d) = None /\
  post_register (Some e) (Some pw) hashed uid now d =
  (reply 200 (Registered uid (toLowerCase e)),
   with_users
     (users d ++ [{| u_id := uid; u_email := toLowerCase e;
                     u_password := hashed; u_created_at := now |}]) d).
Proof.
  unfold post_register, register_check.
  destruct (falsy (Some e) || falsy (Some pw)) eqn:Hf;
    [simpl; intros H; discriminate|].
  apply falsy_or in Hf as (x & y & Hx & Hy & Hxe & Hye).
  injection Hx as <-. injection Hy as <-.
  destruct (userQueries.findByEmail (toLowerCase e) d) eqn:Hfind;
    [simpl; intros H; discriminate|].
  unfold register_commit, userQueries.create.
  destruct (existsb (fun u => (u_email u =? toLowerCase e)%string) (users d));
    [simpl; intros H; discriminate|].
  destruct (existsb (fun u => (u_id u =? uid)%string) (users d)) eqn:Hid;
    [simpl; intros H; discriminate|].
  intros _. repeat (split; [assumption || reflexivity|]).
  split; [|reflexivity].
  apply LookupFacts.find_none_iff.
  now apply LookupFacts.existsb_false_iff.
Qed.

End AuthFacts.

(** X7. Register, then log in: a registration that answers 200 leaves a
    session that /api/auth/me reads back as the new user, and a row that
    [findById] finds. From then on a login with the same email in any
    case and a password that [compare] accepts against the stored hash
    answers 200 with the same identity; one that [compare] rejects leaves
    the session of the request as it was. A logout whose store does not
    fail leaves a session that /api/auth/me refuses. *)
Theorem X7_register_then_login :
  forall (compare : string -> string -> bool)
         (e pw hashed uid now : string) (sess : Auth.session)
         (d : Database.database),
    uid <> "" ->
    compare pw hashed = true ->
    Server.status
      (fst (fst (Auth.register (Some e) (Some pw) hashed uid now sess d))) = 200 ->
    let sess1 := snd (fst (Auth.register (Some e) (Some pw) hashed uid now sess d)) in
    let d1 := snd (Auth.register (Some e) (Some pw) hashed uid now sess d) in
    Auth.me sess1 = Auth.Somebody uid (Some (Js.toLowerCase e)) /\
    Database.userQueries.findById uid d1 =
    Some {| Database.userQueries.p_id := uid;
            Database.userQueries.p_email := Js.toLowerCase e;
            Database.userQueries.p_created_at := now |} /\
    (forall e2 sess2,
        Js.toLowerCase e2 = Js.toLowerCase e ->
        Auth.login compare (Some e2) (Some pw) sess2 d1 =
        (Server.reply 200 (Server.Registered uid (Js.toLowerCase e)), sess1)) /\
    (forall e2 pw2 sess2,
        Js.toLowerCase e2 = Js.toLowerCase e ->
        compare pw2 hashed = false ->
        snd (Auth.login compare (Some e2) (Some pw2) sess2 d1) = sess2 /\
        Server.status (fst (Auth.login compare (Some e2) (Some pw2) sess2 d1)) <> 200) /\
    Auth.me (snd (Auth.logout false sess1)) = Auth.Nobody.
Proof.
  intros compare e pw hashed uid now sess d Huid Hcmp H200 sess1 d1.
  assert (H200' : Server.status
                    (fst (Server.post_register (Some e) (Some pw) hashed uid now d))
                  = 200).
  { revert H200. unfold Auth.register.
    destruct (Server.post_register (Some e) (Some pw) hashed uid now d) as [r d'].
    now destruct (Server.json r). }
  destruct (AuthFacts.registered _ _ _ _ _ _ H200')
    as (He & Hpw & Hfree & Hid & Hreg).
  subst sess1 d1. unfold Auth.register. rewrite Hreg.
  cbn [Server.json Server.reply fst snd].
  assert (Hlook : forall e2, Js.toLowerCase e2 = Js.toLowerCase e ->
            Database.userQueries.findByEmail (Js.toLowerCase e2)
              (Database.with_users
                 (Database.users d ++
                  [{| Database.u_id := uid; Database.u_email := Js.toLowerCase e;
                      Database.u_password := hashed;
                      Database.u_created_at := now |}]) d) =
            Some {| Database.u_id := uid; Database.u_email := Js.toLowerCase e;
                    Database.u_password := hashed;
                    Database.u_created_at := now |}).
  { intros e2 ->. unfold Database.userQueries.findByEmail in *. simpl.
    rewrite LookupFacts.find_app, Hfree. simpl. now rewrite String.eqb_refl. }
  split; [|split; [|split; [|split]]].
  - unfold Auth.me. simpl. now rewrite (proj2 (String.eqb_neq _ _) Huid).
  - unfold Database.userQueries.findById. simpl.
    rewrite LookupFacts.find_app, Hid. simpl. now rewrite String.eqb_refl.
  - intros e2 sess2 He2. unfold Auth.login.
    rewrite (JsFacts.falsy_some e2 (AuthFacts.lower_nonempty _ _ He2 He)).
    rewrite (JsFacts.falsy_some pw Hpw). cbn [orb].
    rewrite (Hlook e2 He2). cbn [Database.u_password]. now rewrite Hcmp.
  - intros e2 pw2 sess2 He2 Hno. unfold Auth.login.
    rewrite (JsFacts.falsy_some e2 (AuthFacts.lower_nonempty _ _ He2 He)).
    cbn [orb]. destruct (Js.falsy (Some pw2)); [split; [reflexivity|discriminate]|].
    rewrite (Hlook e2 He2). cbn [Database.u_password]. rewrite Hno.
    split; [reflexivity|discriminate].
  - reflexivity.
Qed.

(** X8. A login answers 200 only for a stored user whose email is the given
    one in lower case and whose stored hash [compare] accepts, and then
    the session and the answer carry the id and email of that row. Every
    other answer leaves the session as it was; it is 400 exactly when the
    email or the password is missing, and otherwise the same 401 whether
    the email is unknown or the password wrong. *)
Theorem X8_login_needs_a_matching_hash :
  forall (compare : string -> string -> bool) (email password : option string)
         (sess : Auth.session) (d : Database.database),
    let r := fst (Auth.login compare email password sess d) in
    let sess' := snd (Auth.login compare email password sess d) in
    (Server.status r = 200 ->
     exists e pw user,
       email = Some e /\ password = Some pw /\ In user (Database.users d) /\
       Database.u_email user = Js.toLowerCase e /\
       compare pw (Database.u_password user) = true /\
       r = Server.reply 200
             (Server.Registered (Database.u_id user) (Database.u_email user)) /\
       sess' = {| Auth.sess_userId := Some (Database.u_id user);
                  Auth.sess_email := Some (Database.u_email user) |}) /\
    (Server.status r <> 200 ->
     sess' = sess /\
     (Js.falsy email || Js.falsy password = true ->
      r = Server.reply 400 (Server.Error "Email and password required")) /\
     (Js.falsy email || Js.falsy password = false ->
      r = Server.reply 401 (Server.Error "Invalid credentials"))).
Proof.
  intros compare email password sess d r sess'. subst r sess'.
  unfold Auth.login.
  destruct (Js.falsy email || Js.falsy password) eqn:Hf.
  - simpl. split; [discriminate|]. intros _.
    split; [reflexivity|]. split; [reflexivity|discriminate].
  - apply AuthFacts.falsy_or in Hf as (e & pw & -> & -> & He & Hpw).
    destruct (Database.userQueries.findByEmail (Js.toLowerCase e) d)
      as [user|] eqn:Hfind.
    + destruct (compare pw (Database.u_password user)) eqn:Hcmp; simpl.
      * split; [|intros H; now elim H]. intros _.
        apply find_some in Hfind as [Hin Hem]. apply String.eqb_eq in Hem.
        exists e, pw, user. repeat (split; [assumption || reflexivity|]).
        reflexivity.
      * split; [discriminate|]. intros _.
        split; [reflexivity|]. split; [discriminate|reflexivity].
    + simpl. split; [discriminate|]. intros _.
      split; [reflexivity|]. split; [discriminate|reflexivity].
Qed.

(** ** Requests without a session *)

(** X9. A request whose session holds no user id is answered 401 by every
    route behind [requireAuth] and by /api/auth/me, and it changes neither
    the database nor the state of a running fetch. *)
Theorem X9_unauthenticated_requests_change_nothing :
  forall (session : option string),
    Js.falsy session = true ->
    forall (w : Server.world) (new_URL : string -> Js.outcome Server.URL)
           (name url type : option string) (now : string) (id : option Z)
           (email : option string) (s : EventLoop.server),
      let d := Server.db (EventLoop.proc s) in
      Server.get_sources session d = Server.not_authenticated /\
      Server.get_feed session d = Server.not_authenticated /\
      Server.post_sources new_URL session name url type now d =
      (Server.not_authenticated, d) /\
      Server.delete_sources session id d = (Server.not_authenticated, d) /\
      EventLoop.step w (EventLoop.PostFetch session) s =
      (s, Some Server.not_authenticated) /\
      fst (EventLoop.step w (EventLoop.AddSource new_URL session name url type now) s)
      = s /\
      fst (EventLoop.step w (EventLoop.DeleteSource session id) s) = s /\
      Auth.me {| Auth.sess_userId := session; Auth.sess_email := email |} =
      Auth.Nobody.
Proof.
  intros session Hf w new_URL name url type now id email s d. subst d.
  unfold Server.get_sources, Server.get_feed, Server.post_sources,
    Server.delete_sources, EventLoop.step, Server.post_sources,
    Server.delete_sources, Auth.me, Server.requireAuth.
  cbn [Auth.sess_userId]. rewrite Hf. cbn [fst].
  unfold EventLoop.set_db. destruct s as [[running d] fr]. simpl.
  repeat split.
Qed.

(** ** The CORS middleware *)

(** X10. In production the header Access-Control-Allow-Origin only ever names
    one of the two allowed origins: an allowed origin is echoed, every
    other request is given the first of the list. Outside production any
    origin is echoed and a request without one gets the wildcard. The
    middleware answers 204 itself exactly for the method OPTIONS. *)
Theorem X10_cors_origin_in_production :
  forall (origin : option string) (method : string),
    In (Cors.allow_origin (fst (Cors.middleware true origin method)))
       Cors.allowedOrigins /\
    (forall isProduction o,
        In o Cors.allowedOrigins ->
        Cors.allow_origin (fst (Cors.middleware isProduction (Some o) method)) = o) /\
    (Cors.includes origin = false ->
     Cors.allow_origin (fst (Cors.middleware true origin method)) =
     "https://shuflov.github.io") /\
    (forall o, o <> "" ->
               Cors.allow_origin (fst (Cors.middleware false (Some o) method)) = o) /\
    (Js.falsy origin = true ->
     Cors.allow_origin (fst (Cors.middleware false origin method)) = "*") /\
    (forall isProduction,
        snd (Cors.middleware isProduction origin method) = Cors.SendStatus 204 <->
        method = "OPTIONS").
Proof.
  intros origin method.
  assert (Hecho : forall isProduction o,
             In o Cors.allowedOrigins ->
             Cors.allow_origin
               (fst (Cors.middleware isProduction (Some o) method)) = o).
  { intros isProduction o Ho. simpl in Ho.
    destruct Ho as [<-|[<-|[]]]; reflexivity. }
  split; [|split; [exact Hecho|split; [|split; [|split]]]].
  - destruct (Cors.includes origin) eqn:Hin.
    + destruct origin as [o|]; [|discriminate]. unfold Cors.includes in Hin.
      assert (Ho : In o Cors.allowedOrigins).
      { apply existsb_exists in Hin as (x & Hx & He).
        apply String.eqb_eq in He. now subst. }
      now rewrite (Hecho true o Ho).
    + unfold Cors.middleware. rewrite Hin. simpl. now left.
  - intros Hin. unfold Cors.middleware. now rewrite Hin.
  - intros o Ho. unfold Cors.middleware. rewrite orb_true_r.
    cbn [fst Cors.allow_origin]. unfold Js.or_else.
    now rewrite (JsFacts.falsy_some o Ho).
  - intros Hf. unfold Cors.middleware. rewrite orb_true_r.
    cbn [fst Cors.allow_origin]. unfold Js.or_else. now rewrite Hf.
  - intros isProduction. unfold Cors.middleware. cbn [snd].
    destruct (method =? "OPTIONS")%string eqn:Hm.
    + apply String.eqb_eq in Hm. tauto.
    + apply String.eqb_neq in Hm. split; [discriminate|tauto].
Qed.

(** ** Stock quotes *)

Module StockFacts.
Import Js.

Lemma present_in {A : Type} (f : string -> option (Stocks.quote A))
  (syms : list string) (q : Stocks.quote A) :
  In q (Stocks.present A (map f syms)) <->
  exists sym, In sym syms /\ f sym = Some q.
Proof.
  induction syms as [|s syms IH]; simpl.
  - split; [intros []|intros (sym & [] & _)].
  - destruct (f s) as [q0|] eqn:Hs; simpl; rewrite ?IH; split.
    + intros [<-|(sym & Hin & Hq)]; eauto.
    + intros (sym & [<-|Hin] & Hq); [left; congruence|eauto].
    + intros (sym & Hin & Hq); eauto.
    + intros (sym & [<-|Hin] & Hq); [congruence|eauto].
Qed.

Lemma present_symbols {A : Type} (f : string -> option (Stocks.quote A))
  (syms : list string) :
  (forall sym q, f sym = Some q -> Stocks.symbol A q = sym) ->
  map (Stocks.symbol A) (Stocks.present A (map f syms)) =
  filter (fun sym => match f sym with Some _ => true | None => false end) syms.
Proof.
  intros Hsym. induction syms as [|s syms IH]; simpl; [reflexivity|].
  destruct (f s) as [q|] eqn:Hs; simpl; [|exact IH].
  now rewrite (Hsym s q Hs), IH.
Qed.

Lemma present_none {A : Type} (f : string -> option (Stocks.quote A))
  (syms : list string) :
  (forall sym, In sym syms -> f sym = None) ->
  Stocks.present A (map f syms) = [].
Proof.
  induction syms as [|s syms IH]; simpl; intros H; [reflexivity|].
  rewrite (H s (or_introl eq_refl)). apply IH. auto.
Qed.

End StockFacts.

Section StockQuotes.
Variable num : Type.
Variable truthy : num -> bool.
Variable is_zero : num -> bool.
Variable zero : num.
Variable hundred : num.
Variable sub : num -> num -> num.
Variable div : num -> num -> num.
Variable mul : num -> num -> num.

Local Abbreviation fetchYahooFinance :=
  (Stocks.fetchYahooFinance num truthy is_zero hundred sub div mul).
Local Abbreviation get_stocks :=
  (Stocks.get_stocks num truthy is_zero zero hundred sub div mul).
Local Abbreviation unusable := (Stocks.unusable num truthy).
Local Abbreviation from_end := (Stocks.from_end num).

Lemma quote_fields (answer : option (Stocks.chart num)) (now sym : string)
  (q : Stocks.quote num) :
  fetchYahooFinance answer now sym = Some q ->
  Stocks.symbol num q = sym /\ Stocks.error num q = None.
Proof.
  unfold Stocks.fetchYahooFinance. destruct answer as [r|]; [|discriminate].
  destruct (_ || _); [discriminate|].
  destruct (Stocks.or_num num truthy (Stocks.regularMarketPrice num r) _);
    [|discriminate].
  destruct (Stocks.or_num num truthy _ _); [|discriminate].
  destruct (is_zero _); [discriminate|].
  intros H. injection H as <-. split; reflexivity.
Qed.

(** X11. [fetchYahooFinance] returns a quote only from an answer with a usable
    current and a usable previous price, the previous one not zero. The
    current price is the market price of the answer when that is usable
    and the last close otherwise; the previous price is the close before
    the last when that is usable and the current price otherwise, which
    makes the change a difference of the price with itself. The quote
    carries the symbol asked for, these two prices' difference and ratio,
    a currency that is never empty, and no error. *)
Theorem X11_quote_needs_two_usable_prices :
  forall (answer : option (Stocks.chart num)) (now sym : string)
         (q : Stocks.quote num),
    fetchYahooFinance answer now sym = Some q ->
    exists r c p,
      answer = Some r /\
      truthy c = true /\ truthy p = true /\ is_zero p = false /\
      (if unusable (Stocks.regularMarketPrice num r)
       then from_end 1 (Stocks.close num r) = Some c
       else Stocks.regularMarketPrice num r = Some c) /\
      (if unusable (from_end 2 (Stocks.close num r))
       then p = c
       else from_end 2 (Stocks.close num r) = Some p) /\
      Stocks.symbol num q = sym /\
      Stocks.price num q = c /\
      Stocks.change num q = sub c p /\
      Stocks.changePercent num q = mul (div (sub c p) p) hundred /\
      Stocks.quote_currency num q <> "" /\
      (Js.falsy (Stocks.currency num r) = true ->
       Stocks.quote_currency num q = "USD") /\
      Stocks.timestamp num q = now /\
      Stocks.error num q = None.
Proof.
  intros answer now sym q. unfold Stocks.fetchYahooFinance.
  destruct answer as [r|]; [|discriminate].
  set (cur := Stocks.or_num num truthy (Stocks.regularMarketPrice num r)
                (Stocks.from_end num 1 (Stocks.close num r))).
  set (prev := Stocks.or_num num truthy
                 (Stocks.from_end num 2 (Stocks.close num r)) cur).
  destruct (Stocks.unusable num truthy cur) eqn:Hc; [discriminate|].
  destruct (Stocks.unusable num truthy prev) eqn:Hp; [discriminate|].
  cbn [orb].
  destruct cur as [c|] eqn:Ecur; [|discriminate].
  destruct prev as [p|] eqn:Eprev; [|discriminate].
  destruct (is_zero p) eqn:Hz; [discriminate|].
  intros H. injection H as <-. exists r, c, p.
  simpl in Hc, Hp. apply negb_false_iff in Hc, Hp.
  split; [reflexivity|]. repeat (split; [assumption|]).
  split; [|split; [|repeat (split; [reflexivity|])]].
  - subst cur. unfold Stocks.or_num in Ecur.
    now destruct (Stocks.unusable num truthy (Stocks.regularMarketPrice num r)).
  - subst prev. unfold Stocks.or_num in Eprev.
    destruct (Stocks.unusable num truthy
                (Stocks.from_end num 2 (Stocks.close num r)));
      [congruence|assumption].
  - cbn [Stocks.quote_currency]. unfold Js.or_else.
    split; [|split; [|split; reflexivity]].
    + destruct (Js.falsy (Stocks.currency num r)) eqn:Hf; [discriminate|].
      apply JsFacts.falsy_false in Hf as (cur' & -> & Hne). exact Hne.
    + now intros ->.
Qed.

(** X12. A usable market price is enough for a quote, whatever the closes
    hold: the test for a previous price of zero never fires, since a
    price that passes the test before it is not zero. *)
Theorem X12_market_price_is_enough :
  (forall x, truthy x = true -> is_zero x = false) ->
  forall (r : Stocks.chart num) (c : num) (now sym : string),
    Stocks.regularMarketPrice num r = Some c ->
    truthy c = true ->
    exists q,
      fetchYahooFinance (Some r) now sym = Some q /\
      Stocks.price num q = c /\ Stocks.symbol num q = sym.
Proof.
  intros Hnz r c now sym Hr Hc. unfold Stocks.fetchYahooFinance.
  rewrite Hr.
  assert (Hcur : Stocks.or_num num truthy (Some c)
                   (Stocks.from_end num 1 (Stocks.close num r)) = Some c)
    by (unfold Stocks.or_num; simpl; now rewrite Hc).
  rewrite Hcur.
  assert (Hprev : exists p,
             Stocks.or_num num truthy
               (Stocks.from_end num 2 (Stocks.close num r)) (Some c) = Some p /\
             truthy p = true).
  { unfold Stocks.or_num.
    destruct (Stocks.unusable num truthy
                (Stocks.from_end num 2 (Stocks.close num r))) eqn:Hu; [eauto|].
    destruct (Stocks.from_end num 2 (Stocks.close num r)) as [p|];
      [|discriminate].
    simpl in Hu. apply negb_false_iff in Hu. eauto. }
  destruct Hprev as (p & -> & Hp). simpl. rewrite Hc, Hp. simpl.
  rewrite (Hnz p Hp). eexists. split; [reflexivity|]. split; reflexivity.
Qed.


End StockQuotes.

(** ** The loop of the JSON-file server *)

Module LegacyFacts.
Import Js Legacy.

Lemma same_eq (a b : option string) : same a b = true <-> a = b.
Proof.
  destruct a as [x|], b as [y|]; simpl;
    try (split; [discriminate|discriminate || congruence]);
    [|tauto].
  rewrite String.eqb_eq. split; congruence.
Qed.

Lemma same_refl (a : option string) : same a a = true.
Proof. now apply same_eq. Qed.

Lemma stored_app (l : option string) (a b : list article) :
  stored l (a ++ b) = stored l a || stored l b.
Proof. apply existsb_app. Qed.

Lemma stored_in (l : option string) (a : list article) :
  stored l a = true <-> In l (map j_link a).
Proof.
  unfold stored. rewrite existsb_exists, in_map_iff. split.
  - intros (x & Hx & He). apply same_eq in He. eauto.
  - intros (x & He & Hx). exists x. split; [exact Hx|now apply same_eq].
Qed.

(** What one pass over the items of a source does to the list. *)
Lemma for_items_spec (w : world) (src : source) (items : list Server.item) :
  forall (articles : list article) (n : nat),
  exists new,
    for_items w src items articles n = (articles ++ new, n + List.length new) /\
    (forall it, In it items ->
                stored (Server.link it) (articles ++ new) = true) /\
    (NoDup (map j_link articles) -> NoDup (map j_link (articles ++ new))) /\
    (forall a, In a new ->
               exists it, In it items /\ j_link a = Server.link it /\
                          j_summary a = ai.summarize (Server.content it) /\
                          j_sourceId a = j_id src /\
                          stored (j_link a) articles = false).
Proof.
  induction items as [|it rest IH]; intros articles n.
  - exists []. simpl. rewrite app_nil_r, Nat.add_0_r.
    split; [reflexivity|]. split; [intros it []|]. split; [auto|intros a []].
  - cbn [for_items]. destruct (stored (Server.link it) articles) eqn:Hst.
    + destruct (IH articles n) as (new & Hrun & Hall & Hnd & Hnew).
      exists new. split; [exact Hrun|]. split; [|split; [exact Hnd|]].
      * intros it' [<-|Hin]; [|now apply Hall].
        rewrite stored_app, Hst. reflexivity.
      * intros a Ha. destruct (Hnew a Ha) as (it' & Hin & Hrest).
        exists it'. split; [now right|exact Hrest].
    + set (row := {| j_sourceId := j_id src; j_sourceName := j_name src;
                     j_title := Server.title it; j_link := Server.link it;
                     j_published_at := Server.published it;
                     j_summary := ai.summarize (Server.content it);
                     j_fetched_at := toISOString w n |}).
      destruct (IH (articles ++ [row]) (S n)) as (new & Hrun & Hall & Hnd & Hnew).
      exists (row :: new).
      replace (articles ++ row :: new) with ((articles ++ [row]) ++ new)
        by (now rewrite <- app_assoc).
      split; [rewrite Hrun; f_equal; simpl; lia|].
      split; [|split].
      * intros it' [<-|Hin]; [|now apply Hall].
        rewrite !stored_app. simpl. rewrite same_refl.
        now rewrite orb_true_r.
      * intros Hold. apply Hnd. rewrite map_app. simpl.
        apply NoDup_app; [exact Hold|repeat constructor; intros []|].
        intros l Hl [<-|[]]. apply stored_in in Hl. subst row. simpl in Hl.
        congruence.
      * intros a [<-|Ha].
        -- exists it. split; [now left|]. subst row. simpl. auto.
        -- destruct (Hnew a Ha) as (it' & Hin & Hl & Hs & Hi & Hno).
           exists it'. split; [now right|]. repeat (split; [assumption|]).
           rewrite stored_app in Hno. now apply orb_false_iff in Hno.
Qed.

(** The same for the loop over the sources. *)
Lemma for_sources_spec (w : world) (srcs : list source) :
  forall (articles : list article) (n : nat),
  exists new,
    fold_left (for_source w) srcs (articles, n) =
    (articles ++ new, n + List.length new) /\
    (forall src items it,
        In src srcs -> fetchSource w src = Ok items -> In it items ->
        stored (Server.link it) (articles ++ new) = true) /\
    (NoDup (map j_link articles) -> NoDup (map j_link (articles ++ new))) /\
    (forall a, In a new ->
               exists src items it,
                 In src srcs /\ fetchSource w src = Ok items /\ In it items /\
                 j_link a = Server.link it /\
                 j_summary a = ai.summarize (Server.content it) /\
                 j_sourceId a = j_id src /\
                 stored (j_link a) articles = false).
Proof.
  induction srcs as [|src rest IH]; intros articles n.
  - exists []. simpl. rewrite app_nil_r, Nat.add_0_r.
    split; [reflexivity|]. split; [intros ? ? ? []|].
    split; [auto|intros a []].
  - cbn [fold_left]. unfold for_source at 2. cbn [fst snd].
    destruct (fetchSource w src) as [items|e] eqn:Hfetch.
    + destruct (for_items_spec w src items articles n)
        as (new1 & Hrun1 & Hall1 & Hnd1 & Hnew1).
      rewrite Hrun1.
      destruct (IH (articles ++ new1) (n + List.length new1))
        as (new2 & Hrun2 & Hall2 & Hnd2 & Hnew2).
      exists (new1 ++ new2). rewrite app_assoc.
      split; [rewrite Hrun2, length_app; f_equal; lia|].
      split; [|split].
      * intros src' items' it [<-|Hin] Hf Hit; [|now apply (Hall2 src' items')].
        rewrite Hfetch in Hf. injection Hf as <-.
        rewrite stored_app, (Hall1 it Hit). reflexivity.
      * auto.
      * intros a Ha. apply in_app_or in Ha as [Ha|Ha].
        -- destruct (Hnew1 a Ha) as (it & Hin & Hrest).
           exists src, items, it. split; [now left|]. auto.
        -- destruct (Hnew2 a Ha)
             as (src' & items' & it & Hin & Hf & Hit & Hl & Hs & Hi & Hno).
           exists src', items', it. split; [now right|].
           repeat (split; [assumption|]).
           rewrite stored_app in Hno. now apply orb_false_iff in Hno.
    + destruct (IH articles n) as (new & Hrun & Hall & Hnd & Hnew).
      exists new. split; [exact Hrun|]. split; [|split; [exact Hnd|]].
      * intros src' items' it [<-|Hin] Hf Hit; [congruence|].
        now apply (Hall src' items').
      * intros a Ha.
        destruct (Hnew a Ha) as (src' & items' & it & Hin & Hrest).
        exists src', items', it. split; [now right|exact Hrest].
Qed.

End LegacyFacts.

(** X14. The loop of the JSON-file [fetchArticles], before it prunes: it only
    appends to the articles read from the file, and [newCount] counts
    what it appended. Afterwards the link of every item of every enabled
    source whose fetch did not throw is stored; links that were pairwise
    different stay so; and every appended article comes from such an
    item, with the summary [ai.summarize] makes of its content, and had
    no article with its link before. *)
Theorem X14_legacy_loop_stores_each_link_once :
  forall (w : Legacy.world) (sources : list Legacy.source)
         (articles : list Legacy.article),
  exists new,
    Legacy.fetch_loop w sources articles = (articles ++ new, List.length new) /\
    (forall src items it,
        In src sources -> Legacy.j_enabled src = true ->
        Legacy.fetchSource w src = Js.Ok items -> In it items ->
        Legacy.stored (Server.link it) (articles ++ new) = true) /\
    (NoDup (map Legacy.j_link articles) ->
     NoDup (map Legacy.j_link (articles ++ new))) /\
    (forall a, In a new ->
               exists src items it,
                 In src sources /\ Legacy.j_enabled src = true /\
                 Legacy.fetchSource w src = Js.Ok items /\ In it items /\
                 Legacy.j_link a = Server.link it /\
                 Legacy.j_summary a = ai.summarize (Server.content it) /\
                 Legacy.j_sourceId a = Legacy.j_id src /\
                 Legacy.stored (Legacy.j_link a) articles = false).
Proof.
  intros w sources articles. unfold Legacy.fetch_loop.
  destruct (LegacyFacts.for_sources_spec w (filter Legacy.j_enabled sources)
              articles 0) as (new & Hrun & Hall & Hnd & Hnew).
  exists new. split; [exact Hrun|]. split; [|split; [exact Hnd|]].
  - intros src items it Hin Hen. apply Hall. apply filter_In. auto.
  - intros a Ha.
    destruct (Hnew a Ha) as (src & items & it & Hin & Hrest).
    apply filter_In in Hin as [Hin Hen].
    exists src, items, it. auto.
Qed.

(** ** What a fetch writes *)

Module WriteFacts.
Import Js Database Server EventLoop.

(** One pass over the items of a source appends rows of the user, and
    [newCount] counts them. *)
Lemma for_items_appends (w : world) (u : string) (src : source)
  (items : list item) :
  forall st : progress,
  exists new,
    articles (db_of (fst (for_items w u src items st))) =
    articles (db_of st) ++ new /\
    newCount (fst (for_items w u src items st)) = newCount st + List.length new /\
    forall a, In a new -> a_user_id a = u.
Proof.
  induction items as [|it rest IH]; intros st.
  - exists []. simpl. rewrite app_nil_r. split; [reflexivity|].
    split; [lia|intros a []].
  - cbn [for_items].
    destruct (has_value (link it) (existingLinks st)); [apply IH|].
    destruct (articleQueries.create u (s_id src) (s_name src) (title it)
                (link it) (summarizeArticle (content it)) (published it)
                (datetime_now w (newCount st)) (db_of st)) as [d|e] eqn:Hc.
    + apply DatabaseFacts.article_create_ok in Hc
        as (a & Harts & _ & _ & _ & Hu & _).
      destruct (IH {| db_of := d; existingLinks := add_value (link it) (existingLinks st);
                      newCount := S (newCount st) |})
        as (new & Hn & Hcount & Hown).
      exists (a :: new). rewrite Hn, Hcount. cbn [db_of newCount].
      rewrite Harts, <- app_assoc. split; [reflexivity|].
      split; [simpl; lia|]. intros b [<-|Hb]; auto.
    + exists []. simpl. rewrite app_nil_r. split; [reflexivity|].
      split; [lia|intros a []].
Qed.

Lemma for_source_appends (w : world) (u : string) (st : progress) (src : source) :
  exists new,
    articles (db_of (for_source w u st src)) = articles (db_of st) ++ new /\
    newCount (for_source w u st src) = newCount st + List.length new /\
    forall a, In a new -> a_user_id a = u.
Proof.
  unfold for_source. destruct (fetchSource w src) as [items|e].
  - apply for_items_appends.
  - exists []. rewrite app_nil_r. split; [reflexivity|].
    split; [simpl; lia|intros a []].
Qed.

Lemma for_sources_appends (w : world) (u : string) (srcs : list source) :
  forall st : progress,
  exists new,
    articles (db_of (fold_left (for_source w u) srcs st)) =
    articles (db_of st) ++ new /\
    newCount (fold_left (for_source w u) srcs st) =
    newCount st + List.length new /\
    forall a, In a new -> a_user_id a = u.
Proof.
  induction srcs as [|src rest IH]; intros st.
  - exists []. simpl. rewrite app_nil_r. split; [reflexivity|].
    split; [lia|intros a []].
  - cbn [fold_left].
    destruct (for_source_appends w u st src) as (n1 & H1 & C1 & O1).
    destruct (IH (for_source w u st src)) as (n2 & H2 & C2 & O2).
    exists (n1 ++ n2). rewrite H2, C2, H1, C1, <- app_assoc, length_app.
    split; [reflexivity|]. split; [lia|].
    intros a Ha. apply in_app_or in Ha as [Ha|Ha]; auto.
Qed.

Lemma filter_other_app (u v : string) (l new : list article) :
  v <> u -> (forall a, In a new -> a_user_id a = u) ->
  filter (articleQueries.of_user v) (l ++ new) =
  filter (articleQueries.of_user v) l.
Proof.
  intros Hv Hown. rewrite filter_app, (DeleteFacts.filter_none _ new).
  - apply app_nil_r.
  - intros a Ha. apply String.eqb_neq. rewrite (Hown a Ha). congruence.
Qed.

Lemma for_source_others (w : world) (u v : string) (st : progress) (src : source) :
  v <> u ->
  filter (articleQueries.of_user v) (articles (db_of (for_source w u st src))) =
  filter (articleQueries.of_user v) (articles (db_of st)).
Proof.
  intros Hv. destruct (for_source_appends w u st src) as (new & -> & _ & Hown).
  now apply (filter_other_app u).
Qed.

Lemma for_sources_others (w : world) (u v : string) (srcs : list source)
  (st : progress) :
  v <> u ->
  filter (articleQueries.of_user v)
    (articles (db_of (fold_left (for_source w u) srcs st))) =
  filter (articleQueries.of_user v) (articles (db_of st)).
Proof.
  intros Hv. destruct (for_sources_appends w u srcs st) as (new & -> & _ & Hown).
  now apply (filter_other_app u).
Qed.

Lemma prune_others (u v : string) (d : database) :
  Wf.article_ids_unique d -> v <> u ->
  filter (articleQueries.of_user v) (articles (prune u d)) =
  filter (articleQueries.of_user v) (articles d).
Proof.
  intros Hnd Hv. unfold prune.
  destruct (MAX_ARTICLES <? articleQueries.countByUser u d); [|reflexivity].
  now apply RowFacts.deleteOldest_others.
Qed.

Lemma conclude_others (w : world) (u v : string) (st : progress) :
  Wf.article_ids_unique (db_of st) -> v <> u ->
  filter (articleQueries.of_user v) (articles (snd (conclude w u st))) =
  filter (articleQueries.of_user v) (articles (db_of st)).
Proof.
  intros Hnd Hv. unfold conclude.
  destruct (db_error w); [reflexivity|]. cbn [snd].
  now apply prune_others.
Qed.

Lemma advance_others (w : world) (v : string) (fr : frame) (p : process) :
  Wf.article_ids_unique (db p) -> v <> f_userId fr ->
  filter (articleQueries.of_user v)
    (articles (db (proc (fst (advance w fr p))))) =
  filter (articleQueries.of_user v) (articles (db p)).
Proof.
  intros Hnd Hv. unfold advance. destruct (f_pending fr); [|reflexivity].
  unfold leave.
  pose proof (conclude_others w (f_userId fr) v (locals fr (db p)) Hnd Hv) as H.
  destruct (conclude w (f_userId fr) (locals fr (db p))) as [r d']. exact H.
Qed.

Lemma post_sources_articles new_URL session name url type now d :
  articles (snd (post_sources new_URL session name url type now d)) = articles d.
Proof.
  unfold post_sources. destruct (requireAuth session); [|reflexivity].
  destruct (falsy name || falsy url || falsy type); [reflexivity|].
  destruct name, url, type; try reflexivity.
  destruct (new_URL _); [|reflexivity].
  destruct (negb _); [reflexivity|]. destruct (is_private _); reflexivity.
Qed.

Lemma delete_sources_articles session id d :
  articles (snd (delete_sources session id d)) = articles d.
Proof.
  unfold delete_sources. destruct (requireAuth session); [|reflexivity].
  reflexivity.
Qed.

Lemma register_commit_articles email hashed uid now d :
  articles (snd (register_commit email hashed uid now d)) = articles d.
Proof.
  unfold register_commit, userQueries.create.
  destruct (existsb _ _); [reflexivity|]. destruct (existsb _ _); reflexivity.
Qed.

End WriteFacts.

(** X15. In a turn of the event loop the articles of a user change only if the
    turn belongs to a fetch of that user: it is the user's POST /api/fetch,
    or the turn in which a suspended fetch of the user goes on. No other
    request, and no fetch of anyone else, adds, removes or alters an
    article of the user. *)
Theorem X15_articles_change_only_in_own_fetch :
  forall (w : Server.world) (e : EventLoop.event) (s : EventLoop.server)
         (v : string),
    Wf.article_ids_unique (Server.db (EventLoop.proc s)) ->
    e <> EventLoop.PostFetch (Some v) ->
    (forall fr, e = EventLoop.Settle -> EventLoop.inflight s = Some fr ->
                EventLoop.f_userId fr <> v) ->
    filter (Database.articleQueries.of_user v)
      (Database.articles
         (Server.db (EventLoop.proc (fst (EventLoop.step w e s))))) =
    filter (Database.articleQueries.of_user v)
      (Database.articles (Server.db (EventLoop.proc s))).
Proof.
  intros w e s v Hnd Hpost Hsettle.
  destruct e as [email password|email hashed uid now|session
                |new_URL session name url type now|session id|session
                |session|]; cbn [EventLoop.step].
  - now destruct (Server.register_check email password _).
  - pose proof (WriteFacts.register_commit_articles email hashed uid now
                  (Server.db (EventLoop.proc s))) as H.
    destruct (Server.register_commit email hashed uid now _) as [r d'].
    simpl in *. now rewrite H.
  - reflexivity.
  - pose proof (WriteFacts.post_sources_articles new_URL session name url type
                  now (Server.db (EventLoop.proc s))) as H.
    destruct (Server.post_sources new_URL session name url type now _) as [r d'].
    simpl in *. now rewrite H.
  - pose proof (WriteFacts.delete_sources_articles session id
                  (Server.db (EventLoop.proc s))) as H.
    destruct (Server.delete_sources session id _) as [r d'].
    simpl in *. now rewrite H.
  - reflexivity.
  - destruct (Server.requireAuth session) as [u|] eqn:Hauth; [|reflexivity].
    apply ReadFacts.requireAuth_inv in Hauth as [-> _].
    assert (Hv : v <> u) by congruence.
    unfold EventLoop.enter.
    destruct (Server.isRunning (EventLoop.proc s)); [reflexivity|].
    rewrite WriteFacts.advance_others; [reflexivity|exact Hnd|exact Hv].
  - destruct (EventLoop.inflight s) as [fr|] eqn:Hfr; [|reflexivity].
    destruct (EventLoop.f_pending fr) as [|src rest]; [reflexivity|].
    assert (Hv : v <> EventLoop.f_userId fr)
      by (intros ->; now apply (Hsettle fr)).
    rewrite WriteFacts.advance_others; cbn [Server.db EventLoop.f_userId].
    + now apply WriteFacts.for_source_others.
    + apply (PruneFacts.for_sources_ids_unique w (EventLoop.f_userId fr) [src]).
      exact Hnd.
    + exact Hv.
Qed.

(** X16. What /api/fetch answers, against what the fetch did. The loop over
    the sources only appends rows of the user. When the database raises
    nothing after the loop, the answer is a success whose message counts
    exactly the appended rows and gives the number of articles the user
    has afterwards. When it raises, the answer is a failure with the
    message of the exception, and the rows the loop had inserted stay in
    the table, unpruned. *)
Theorem X16_fetch_report_counts_the_new_rows :
  forall (w : Server.world) (u : string) (d : Database.database),
    let r := fst (Server.fetchArticles w u {| Server.isRunning := false;
                                               Server.db := d |}) in
    let d' := Server.db (snd (Server.fetchArticles w u
                                {| Server.isRunning := false; Server.db := d |})) in
    exists new,
      Database.articles (Server.after_insertions w u d) =
      Database.articles d ++ new /\
      (forall a, In a new -> Database.a_user_id a = u) /\
      match Server.db_error w with
      | None =>
          r = {| Server.success := true;
                 Server.message :=
                   String.append "Fetched "
                     (String.append (Js.show_nat (List.length new))
                        (String.append " new articles. Total: "
                           (Js.show_nat
                              (Database.articleQueries.countByUser u d')))) |} /\
          d' = Server.prune u (Server.after_insertions w u d)
      | Some e =>
          r = {| Server.success := false; Server.message := e |} /\
          d' = Server.after_insertions w u d
      end.
Proof.
  intros w u d r d'. subst r d'.
  unfold Server.fetchArticles, Server.after_insertions. cbn [Server.isRunning Server.db].
  set (st0 := {| Server.db_of := d;
                 Server.existingLinks := Server.links_of u d;
                 Server.newCount := 0 |}).
  destruct (WriteFacts.for_sources_appends w u (Server.enabled_sources u d) st0)
    as (new & Harts & Hcount & Hown).
  exists new. split; [exact Harts|]. split; [exact Hown|].
  unfold Server.conclude. destruct (Server.db_error w) as [e|].
  - split; reflexivity.
  - cbn [fst snd Server.db]. rewrite Hcount. split; reflexivity.
Qed.

(** X17. A source whose type is not rss, or whose feed cannot be fetched or
    parsed, neither stops the loop over the sources nor leaves a trace: the
    fetch does what it would do had the source not been in the list. *)
Theorem X17_failing_feeds_are_skipped :
  forall (w : Server.world) (u : string) (srcs : list Database.source)
         (st : Server.progress),
    fold_left (Server.for_source w u) srcs st =
    fold_left (Server.for_source w u)
      (filter (fun s => (Database.s_type s =? "rss")%string &&
                        match Server.parseURL w (Database.s_url s) with
                        | Js.Ok _ => true
                        | Js.Throw _ => false
                        end) srcs)
      st.
Proof.
  intros w u srcs. induction srcs as [|src rest IH]; intros st; [reflexivity|].
  cbn [fold_left filter].
  assert (Hsrc : ((Database.s_type src =? "rss")%string &&
                  match Server.parseURL w (Database.s_url src) with
                  | Js.Ok _ => true
                  | Js.Throw _ => false
                  end) = false ->
                 Server.for_source w u st src = st).
  { unfold Server.for_source, Server.fetchSource.
    destruct (Database.s_type src =? "rss")%string; [|reflexivity].
    now destruct (Server.parseURL w (Database.s_url src)). }
  destruct ((Database.s_type src =? "rss")%string && _) eqn:Hlive.
  - cbn [fold_left]. apply IH.
  - rewrite (Hsrc eq_refl). apply IH.
Qed.

(** ** The constraints of the schema, turn by turn *)

Module SchemaFacts.
Import Js Database Server EventLoop.

Lemma nodup_snoc {A : Type} (l : list A) (x : A) :
  NoDup l -> ~ In x l -> NoDup (l ++ [x]).
Proof.
  intros Hl Hx. apply NoDup_app; [exact Hl|repeat constructor; intros []|].
  intros a Ha [<-|[]]. now apply Hx.
Qed.

Lemma same_tables (d d' : database) :
  users d' = users d -> sources d' = sources d -> articles d' = articles d ->
  Schema.constraints d -> Schema.constraints d'.
Proof.
  unfold Schema.constraints, Schema.user_ids_unique, Schema.stored_emails_unique,
    Schema.source_ids_unique, Wf.article_ids_unique, Wf.links_unique.
  now intros -> -> ->.
Qed.

Lemma register_commit_constraints (email hashed uid now : string) (d : database) :
  Schema.constraints d ->
  Schema.constraints (snd (register_commit email hashed uid now d)).
Proof.
  intros Hc. unfold register_commit, userQueries.create.
  destruct (existsb (fun u => (u_email u =? toLowerCase email)%string) (users d))
    eqn:Hem; [exact Hc|].
  destruct (existsb (fun u => (u_id u =? uid)%string) (users d)) eqn:Hid;
    [exact Hc|].
  rewrite LookupFacts.existsb_false_iff in Hid, Hem.
  destruct Hc as (Hu & He & Hrest).
  unfold Schema.constraints, Schema.user_ids_unique, Schema.stored_emails_unique.
  cbn [snd users with_users]. rewrite !map_app. cbn [map].
  split; [|split; [|exact Hrest]].
  - apply nodup_snoc; [exact Hu|]. intros Hin.
    apply in_map_iff in Hin as (x & Hx & Hin).
    specialize (Hid x Hin). apply String.eqb_neq in Hid. now apply Hid.
  - apply nodup_snoc; [exact He|]. intros Hin.
    apply in_map_iff in Hin as (x & Hx & Hin).
    specialize (Hem x Hin). apply String.eqb_neq in Hem. now apply Hem.
Qed.

Lemma source_create_constraints (u name url type : string) (enabled : Z)
  (now : string) (d : database) :
  Schema.constraints d ->
  Schema.constraints (snd (sourceQueries.create u name url type enabled now d)).
Proof.
  intros (Hu & He & Hs & Hrest).
  unfold Schema.constraints, Schema.source_ids_unique, sourceQueries.create.
  cbn [snd sources with_sources]. rewrite map_app. cbn [map].
  split; [exact Hu|]. split; [exact He|]. split; [|exact Hrest].
  apply nodup_snoc; [exact Hs|]. intros Hin.
  apply (proj2 (LookupFacts.next_rowid_above (seq_sources d)
                  (map s_id (sources d)))) in Hin. cbn [s_id] in Hin. lia.
Qed.

Lemma post_sources_constraints new_URL session name url type now d :
  Schema.constraints d ->
  Schema.constraints (snd (post_sources new_URL session name url type now d)).
Proof.
  intros Hc. unfold post_sources.
  destruct (requireAuth session); [|exact Hc].
  destruct (falsy name || falsy url || falsy type); [exact Hc|].
  destruct name, url, type; try exact Hc.
  destruct (new_URL _); [|exact Hc].
  destruct (negb _); [exact Hc|]. destruct (is_private _); [exact Hc|].
  unfold accept_source.
  pose proof (source_create_constraints s s0 s1 s2 1 now d Hc) as H.
  destruct (sourceQueries.create s s0 s1 s2 1 now d). exact H.
Qed.

Lemma delete_sources_constraints session id d :
  Schema.constraints d ->
  Schema.constraints (snd (delete_sources session id d)).
Proof.
  intros Hc. unfold delete_sources.
  destruct (requireAuth session) as [u|]; [|exact Hc].
  assert (H : Schema.constraints (snd (sourceQueries.delete id u d))).
  { destruct Hc as (Hu & He & Hs & Hrest).
    unfold Schema.constraints, Schema.source_ids_unique, sourceQueries.delete.
    cbn [snd sources with_sources].
    split; [exact Hu|]. split; [exact He|]. split; [|exact Hrest].
    now apply LinkFacts.nodup_map_filter. }
  destruct (sourceQueries.delete id u d) as [c d']. cbn [snd] in H.
  now destruct (c =? 0).
Qed.

Lemma owners_constraints (d d' : database) :
  Wf.same_owners d d' ->
  Wf.article_ids_unique d' -> Wf.links_unique d' ->
  Schema.constraints d -> Schema.constraints d'.
Proof.
  intros (Hu & Hs & _) Hids Hlinks (Cu & Ce & Cs & _).
  unfold Schema.constraints, Schema.user_ids_unique, Schema.stored_emails_unique,
    Schema.source_ids_unique in *.
  rewrite Hu, Hs. auto.
Qed.

Lemma for_source_constraints (w : world) (u : string) (st : progress)
  (src : source) :
  Schema.constraints (db_of st) ->
  Schema.constraints (db_of (for_source w u st src)).
Proof.
  intros Hc. apply (owners_constraints (db_of st)).
  - apply FrameFacts.for_source_owners.
  - apply (PruneFacts.for_sources_ids_unique w u [src]). apply Hc.
  - unfold for_source. destruct (fetchSource w src); [|apply Hc].
    apply LinkFacts.for_items_links_unique. apply Hc.
  - exact Hc.
Qed.

Lemma prune_constraints (u : string) (d : database) :
  Schema.constraints d -> Schema.constraints (prune u d).
Proof.
  intros Hc. apply (owners_constraints d); [apply FrameFacts.prune_owners| | |exact Hc];
    unfold prune; destruct (MAX_ARTICLES <? _); try apply Hc;
    unfold articleQueries.deleteOldest, Wf.article_ids_unique, Wf.links_unique;
    cbn [articles with_articles]; apply LinkFacts.nodup_map_filter; apply Hc.
Qed.

Lemma conclude_constraints (w : world) (u : string) (st : progress) :
  Schema.constraints (db_of st) -> Schema.constraints (snd (conclude w u st)).
Proof.
  intros Hc. unfold conclude. destruct (db_error w); [exact Hc|].
  now apply prune_constraints.
Qed.

Lemma advance_constraints (w : world) (fr : frame) (p : process) :
  Schema.constraints (db p) ->
  Schema.constraints (db (proc (fst (advance w fr p)))).
Proof.
  intros Hc. unfold advance. destruct (f_pending fr); [|exact Hc].
  unfold leave.
  pose proof (conclude_constraints w (f_userId fr) (locals fr (db p)) Hc) as H.
  destruct (conclude w (f_userId fr) (locals fr (db p))). exact H.
Qed.

Lemma step_constraints (w : world) (e : event) (s : server) :
  Schema.constraints (db (proc s)) ->
  Schema.constraints (db (proc (fst (step w e s)))).
Proof.
  intros Hc.
  destruct e as [email password|email hashed uid now|session
                |new_URL session name url type now|session id|session
                |session|]; cbn [step].
  - now destruct (register_check email password _).
  - pose proof (register_commit_constraints email hashed uid now _ Hc) as H.
    destruct (register_commit email hashed uid now _). exact H.
  - exact Hc.
  - pose proof (post_sources_constraints new_URL session name url type now _ Hc)
      as H.
    destruct (post_sources new_URL session name url type now _). exact H.
  - pose proof (delete_sources_constraints session id _ Hc) as H.
    destruct (delete_sources session id _). exact H.
  - exact Hc.
  - destruct (requireAuth session); [|exact Hc]. unfold enter.
    destruct (isRunning (proc s)); [exact Hc|].
    now apply advance_constraints.
  - destruct (inflight s) as [fr|]; [|exact Hc].
    destruct (f_pending fr) as [|src rest]; [exact Hc|].
    apply advance_constraints. cbn [db].
    now apply for_source_constraints.
Qed.

End SchemaFacts.

(** X18. The keys and UNIQUE columns of the schema hold in every state the
    server reaches from a database in which they hold, whatever requests
    arrive and however they interleave with a running fetch: no two users
    share an id or a stored email, no two sources an id, no two articles
    an id or a link. *)
Theorem X18_schema_constraints_hold_in_every_run :
  forall (turns : list (Server.world * EventLoop.event)) (s : EventLoop.server),
    Schema.constraints (Server.db (EventLoop.proc s)) ->
    Schema.constraints (Server.db (EventLoop.proc (EventLoop.run turns s))).
Proof.
  induction turns as [|[w e] turns IH]; intros s Hc; [exact Hc|].
  cbn [EventLoop.run]. apply IH. now apply SchemaFacts.step_constraints.
Qed.

(** ** Fetching twice *)

Module RefetchFacts.
Import Js Database Server.

Lemma has_cons (l x : string) (links : list string) :
  has l (x :: links) = (l =? x)%string || has l links.
Proof. reflexivity. Qed.

Lemma has_in (l : string) (links : list string) :
  has l links = true <-> In l links.
Proof.
  unfold has. rewrite existsb_exists. split.
  - intros (x & Hx & He). apply String.eqb_eq in He. now subst.
  - intros H. exists l. split; [exact H|apply String.eqb_refl].
Qed.

Lemma has_value_some (v : option string) (links : list string) :
  has_value v links = true -> exists l, v = Some l /\ has l links = true.
Proof. destruct v as [l|]; simpl; [eauto|discriminate]. Qed.

Lemma grows_refl (st : progress) : Schema.grows st st.
Proof. unfold Schema.grows. auto. Qed.

Lemma grows_trans (st1 st2 st3 : progress) :
  Schema.grows st1 st2 -> Schema.grows st2 st3 -> Schema.grows st1 st3.
Proof.
  intros (L12 & T12 & N12) (L23 & T23 & N23). split; [auto|]. split; [auto|].
  intros l Hl. destruct (N23 l Hl) as [H2|H2].
  - now apply N12.
  - right. intros H1. now apply H2, T12.
Qed.

Lemma grows_has_value (st st' : progress) (v : option string) :
  Schema.grows st st' ->
  has_value v (existingLinks st) = true ->
  has_value v (existingLinks st') = true.
Proof.
  intros (Hl & _) H. destruct v as [l|]; [now apply Hl|discriminate].
Qed.

(** One successful insert of the loop. *)
Lemma insert_grows (st : progress) (d : database) (l : string) (a : article) :
  articles d = articles (db_of st) ++ [a] -> a_link a = l ->
  ~ In l (map a_link (articles (db_of st))) ->
  Schema.grows st {| db_of := d; existingLinks := l :: existingLinks st;
                     newCount := S (newCount st) |}.
Proof.
  intros Harts Hl Hnew. unfold Schema.grows. cbn [db_of existingLinks].
  split; [|split].
  - intros l' H. rewrite has_cons, H. apply orb_true_r.
  - intros l' H. rewrite Harts, map_app. apply in_or_app. now left.
  - intros l' H. rewrite has_cons in H. apply orb_true_iff in H as [H|H].
    + apply String.eqb_eq in H. subst l'. now right.
    + now left.
Qed.

Lemma for_items_grows (w : world) (u : string) (src : source)
  (items : list item) :
  forall st, Schema.grows st (fst (for_items w u src items st)).
Proof.
  induction items as [|it rest IH]; intros st; [apply grows_refl|].
  cbn [for_items].
  destruct (has_value (link it) (existingLinks st)); [apply IH|].
  destruct (articleQueries.create u (s_id src) (s_name src) (title it)
              (link it) (summarizeArticle (content it)) (published it)
              (datetime_now w (newCount st)) (db_of st)) as [d|e] eqn:Hc;
    [|apply grows_refl].
  apply DatabaseFacts.article_create_ok in Hc
    as (a & Harts & _ & _ & _ & _ & _ & Hl & _ & _ & _ & _ & Hnew).
  eapply grows_trans; [|apply IH].
  rewrite Hl. cbn [add_value].
  now apply (insert_grows st d (a_link a) a).
Qed.

(** When the loop over the items of a source is over, none of them can
    be inserted any more. *)
Lemma for_items_settled (w : world) (u : string) (src : source)
  (items : list item) :
  forall st,
    Schema.settled
      (existingLinks (fst (for_items w u src items st)))
      (map a_link (articles (db_of (fst (for_items w u src items st)))))
      items.
Proof.
  induction items as [|it rest IH]; intros st; [exact I|].
  cbn [for_items Schema.settled].
  destruct (has_value (link it) (existingLinks st)) eqn:Hhas.
  - rewrite (grows_has_value _ _ _ (for_items_grows w u src rest st) Hhas).
    apply IH.
  - destruct (articleQueries.create u (s_id src) (s_name src) (title it)
                (link it) (summarizeArticle (content it)) (published it)
                (datetime_now w (newCount st)) (db_of st)) as [d|e] eqn:Hc.
    + set (st1 := {| db_of := d;
                     existingLinks := add_value (link it) (existingLinks st);
                     newCount := S (newCount st) |}).
      assert (H1 : has_value (link it) (existingLinks st1) = true).
      { destruct (DatabaseFacts.article_create_ok _ _ _ _ _ _ _ _ _ _ Hc)
          as (a & _ & _ & _ & _ & _ & _ & Hl & _).
        subst st1. cbn [existingLinks]. rewrite Hl. cbn [add_value has_value].
        rewrite has_cons, String.eqb_refl. reflexivity. }
      rewrite (grows_has_value _ _ _ (for_items_grows w u src rest st1) H1).
      apply IH.
    + cbn [fst]. rewrite Hhas.
      now apply DatabaseFacts.article_create_refused in Hc.
Qed.

(** What is settled stays settled while links are added, for items that
    have a title and a date whenever they have a link. *)
Lemma settled_transport (items : list item) (st st' : progress) :
  Schema.grows st st' ->
  Forall Schema.complete items ->
  Schema.settled (existingLinks st) (map a_link (articles (db_of st))) items ->
  Schema.settled (existingLinks st') (map a_link (articles (db_of st'))) items.
Proof.
  intros Hg Hcomp. pose proof Hg as (Hl & Ht & Hn).
  induction Hcomp as [|it rest Hit _ IH]; [auto|].
  cbn [Schema.settled].
  destruct (has_value (link it) (existingLinks st)) eqn:H.
  - rewrite (grows_has_value st st' _ Hg H). exact IH.
  - intros Href. destruct (has_value (link it) (existingLinks st')) eqn:H'.
    + exfalso. destruct (has_value_some _ _ H') as (l & Hlk & Hhas').
      destruct Hit as [Ht1 Hp1]; [congruence|].
      rewrite Hlk in H, Href. cbn [has_value] in H.
      unfold Schema.refused in Href.
      destruct (title it); [|now elim Ht1].
      destruct (published it); [|now elim Hp1].
      destruct (Hn _ Hhas') as [H1|H1]; [congruence|contradiction].
    + unfold Schema.refused in *.
      destruct (title it); [|exact I].
      destruct (link it) as [l|]; [|exact I].
      destruct (published it); [|exact I].
      now apply Ht.
Qed.

Lemma settled_ext (items : list item) (links links' table : list string) :
  (forall l, has l links = has l links') ->
  Schema.settled links table items -> Schema.settled links' table items.
Proof.
  intros Hext. induction items as [|it rest IH]; [auto|].
  cbn [Schema.settled].
  replace (has_value (link it) links') with (has_value (link it) links)
    by (destruct (link it); [apply Hext|reflexivity]).
  now destruct (has_value (link it) links).
Qed.

(** A loop over items that are settled changes nothing. *)
Lemma settled_noop (w : world) (u : string) (src : source) (items : list item)
  (st : progress) :
  Schema.settled (existingLinks st) (map a_link (articles (db_of st))) items ->
  fst (for_items w u src items st) = st.
Proof.
  induction items as [|it rest IH]; [reflexivity|].
  cbn [Schema.settled for_items].
  destruct (has_value (link it) (existingLinks st)); [exact IH|].
  intros Href.
  destruct (DatabaseFacts.article_create_throws u (s_id src) (s_name src)
              (title it) (link it) (summarizeArticle (content it))
              (published it) (datetime_now w (newCount st)) (db_of st) Href)
    as (e & ->).
  reflexivity.
Qed.

Lemma for_source_grows (w : world) (u : string) (st : progress) (src : source) :
  Schema.grows st (for_source w u st src).
Proof.
  unfold for_source. destruct (fetchSource w src); [|apply grows_refl].
  apply for_items_grows.
Qed.

(** When the loop over the sources is over, no item of any of the feeds
    it read can be inserted any more, if the items of the feeds have a
    title and a date whenever they have a link. *)
Lemma for_sources_settled (w : world) (u : string) (srcs : list source) :
  forall st,
    Schema.grows st (fold_left (for_source w u) srcs st) /\
    forall src items,
      In src srcs -> fetchSource w src = Ok items ->
      Forall Schema.complete items ->
      Schema.settled
        (existingLinks (fold_left (for_source w u) srcs st))
        (map a_link (articles (db_of (fold_left (for_source w u) srcs st))))
        items.
Proof.
  induction srcs as [|src rest IH]; intros st.
  - split; [apply grows_refl|intros ? ? []].
  - cbn [fold_left]. destruct (IH (for_source w u st src)) as [Hg Hs].
    split; [eapply grows_trans; [apply for_source_grows|exact Hg]|].
    intros src' items [<-|Hin] Hf Hcomp; [|now apply (Hs src')].
    apply (settled_transport items (for_source w u st src)); [exact Hg|exact Hcomp|].
    unfold for_source. rewrite Hf. apply for_items_settled.
Qed.

Lemma for_sources_noop (w : world) (u : string) (srcs : list source)
  (st : progress) :
  (forall src items,
      In src srcs -> fetchSource w src = Ok items ->
      Schema.settled (existingLinks st) (map a_link (articles (db_of st))) items) ->
  fold_left (for_source w u) srcs st = st.
Proof.
  induction srcs as [|src rest IH]; intros Hs; [reflexivity|].
  cbn [fold_left].
  assert (H1 : for_source w u st src = st).
  { unfold for_source. destruct (fetchSource w src) as [items|e] eqn:Hf;
      [|reflexivity].
    apply settled_noop. apply (Hs src items); [now left|exact Hf]. }
  rewrite H1. apply IH. intros src' items Hin. apply Hs. now right.
Qed.

(** [existingLinks] follows the links of the user's rows. *)
Lemma tracks_start (u : string) (d : database) :
  Schema.tracks u {| db_of := d; existingLinks := links_of u d; newCount := 0 |}.
Proof.
  intros l. cbn [existingLinks db_of]. rewrite has_in. unfold links_of.
  rewrite in_map_iff. split.
  - intros (a & Hl & Ha). apply ReadFacts.in_findByUser_articles in Ha as [Ha Hu].
    eauto.
  - intros (a & Ha & Hu & Hl). exists a. split; [exact Hl|].
    apply ReadFacts.in_findByUser_articles. auto.
Qed.

Lemma for_items_tracks (w : world) (u : string) (src : source)
  (items : list item) :
  forall st, Schema.tracks u st ->
             Schema.tracks u (fst (for_items w u src items st)).
Proof.
  induction items as [|it rest IH]; intros st Ht; [exact Ht|].
  cbn [for_items].
  destruct (has_value (link it) (existingLinks st)); [now apply IH|].
  destruct (articleQueries.create u (s_id src) (s_name src) (title it)
              (link it) (summarizeArticle (content it)) (published it)
              (datetime_now w (newCount st)) (db_of st)) as [d|e] eqn:Hc;
    [|exact Ht].
  apply DatabaseFacts.article_create_ok in Hc
    as (a & Harts & _ & _ & _ & Hu & _ & Hl & _).
  apply IH. intros l. cbn [existingLinks db_of]. rewrite Hl.
  cbn [add_value]. rewrite has_cons, Harts.
  rewrite orb_true_iff, (Ht l). split.
  - intros [H|(b & Hb & Hbu & Hbl)].
    + apply String.eqb_eq in H. subst l. exists a.
      split; [apply in_or_app; right; now left|auto].
    + exists b. split; [apply in_or_app; now left|auto].
  - intros (b & Hb & Hbu & Hbl). apply in_app_or in Hb as [Hb|[<-|[]]].
    + right. eauto.
    + left. apply String.eqb_eq. congruence.
Qed.

Lemma for_sources_tracks (w : world) (u : string) (srcs : list source) :
  forall st, Schema.tracks u st ->
             Schema.tracks u (fold_left (for_source w u) srcs st).
Proof.
  induction srcs as [|src rest IH]; intros st Ht; [exact Ht|].
  cbn [fold_left]. apply IH. unfold for_source.
  destruct (fetchSource w src); [|exact Ht]. now apply for_items_tracks.
Qed.

Lemma tracks_same (u : string) (st st' : progress) :
  db_of st' = db_of st -> Schema.tracks u st -> Schema.tracks u st' ->
  forall l, has l (existingLinks st) = has l (existingLinks st').
Proof.
  intros Hd Ht Ht' l. specialize (Ht l). specialize (Ht' l).
  rewrite Hd in Ht'.
  destruct (has l (existingLinks st)), (has l (existingLinks st')); try reflexivity.
  - symmetry. apply Ht', Ht. reflexivity.
  - apply Ht, Ht'. reflexivity.
Qed.

Lemma fetchSource_ext (w1 w2 : world) (src : source) :
  parseURL w2 (s_url src) = parseURL w1 (s_url src) ->
  fetchSource w2 src = fetchSource w1 src.
Proof. unfold fetchSource. now intros ->. Qed.

(** [fetchSource] hands the title, the link and the date over as they
    are. *)
Lemma fetchSource_complete (w : world) (src : source) (items : list item) :
  fetchSource w src = Ok items ->
  (forall fed, parseURL w (s_url src) = Ok fed ->
               Forall Schema.complete_item fed) ->
  Forall Schema.complete items.
Proof.
  unfold fetchSource. destruct (s_type src =? "rss")%string;
    [|intros [= <-] _; constructor].
  destruct (parseURL w (s_url src)) as [fed|e]; [|discriminate].
  intros [= <-] Hfed. specialize (Hfed fed eq_refl).
  induction Hfed as [|i fed Hi _ IH]; simpl; constructor; [exact Hi|exact IH].
Qed.

Lemma enabled_sources_same (u : string) (d d' : database) :
  sources d' = sources d -> enabled_sources u d' = enabled_sources u d.
Proof.
  unfold enabled_sources, sourceQueries.findByUser. now intros ->.
Qed.

End RefetchFacts.

(** X19. Fetching twice. When a fetch of a user has returned success without
    pruning, and every item of the feeds it read that has a link has a
    title and a date as well, a second fetch of the user that finds the
    same feeds inserts nothing and removes nothing: it answers
    "Fetched 0 new articles" with the unchanged total and leaves the
    database as the first fetch left it, whatever the clock shows by
    then. *)
Theorem X19_second_fetch_adds_nothing :
  forall (w1 w2 : Server.world) (u : string) (d : Database.database),
    Server.db_error w1 = None ->
    Server.db_error w2 = None ->
    (forall s, In s (Database.sources d) ->
               Database.s_user_id s = u -> Database.s_enabled s <> 0%Z ->
               Server.parseURL w2 (Database.s_url s) =
               Server.parseURL w1 (Database.s_url s)) ->
    (forall s fed, In s (Database.sources d) ->
                   Database.s_user_id s = u -> Database.s_enabled s <> 0%Z ->
                   Server.parseURL w1 (Database.s_url s) = Js.Ok fed ->
                   Forall Schema.complete_item fed) ->
    Database.articleQueries.countByUser u (Server.after_insertions w1 u d)
    <= Server.MAX_ARTICLES ->
    let p1 := snd (Server.fetchArticles w1 u
                     {| Server.isRunning := false; Server.db := d |}) in
    Server.fetchArticles w2 u p1 =
    ({| Server.success := true;
        Server.message :=
          String.append "Fetched 0 new articles. Total: "
            (Js.show_nat (Database.articleQueries.countByUser u (Server.db p1))) |},
     p1).
Proof.
  intros w1 w2 u d He1 He2 Hfeeds Hwhole Hcount p1.
  set (st0 := {| Server.db_of := d; Server.existingLinks := Server.links_of u d;
                 Server.newCount := 0 |}).
  set (st1 := fold_left (Server.for_source w1 u) (Server.enabled_sources u d) st0).
  assert (Hd1 : Server.after_insertions w1 u d = Server.db_of st1) by reflexivity.
  assert (Hprune : Server.prune u (Server.db_of st1) = Server.db_of st1).
  { unfold Server.prune. rewrite <- Hd1.
    now rewrite (proj2 (Nat.ltb_ge _ _) Hcount). }
  assert (Hp1 : p1 = {| Server.isRunning := false; Server.db := Server.db_of st1 |}).
  { subst p1. unfold Server.fetchArticles. cbn [Server.isRunning Server.db].
    fold st0. fold st1. unfold Server.conclude. rewrite He1. cbn [snd].
    now rewrite Hprune. }
  rewrite Hp1. unfold Server.fetchArticles. cbn [Server.isRunning Server.db].
  set (st2 := {| Server.db_of := Server.db_of st1;
                 Server.existingLinks := Server.links_of u (Server.db_of st1);
                 Server.newCount := 0 |}).
  destruct (FrameFacts.for_sources_owners w1 u (Server.enabled_sources u d) st0)
    as (_ & Hsrc & _).
  fold st1 in Hsrc. cbn [Server.db_of] in Hsrc.
  rewrite (RefetchFacts.enabled_sources_same u d (Server.db_of st1) Hsrc).
  destruct (RefetchFacts.for_sources_settled w1 u (Server.enabled_sources u d) st0)
    as [_ Hsettled].
  fold st1 in Hsettled.
  assert (Hlinks : forall l, Server.has l (Server.existingLinks st1) =
                             Server.has l (Server.existingLinks st2)).
  { apply (RefetchFacts.tracks_same u); [reflexivity| |apply RefetchFacts.tracks_start].
    apply RefetchFacts.for_sources_tracks, RefetchFacts.tracks_start. }
  rewrite (RefetchFacts.for_sources_noop w2 u (Server.enabled_sources u d) st2).
  - unfold Server.conclude. rewrite He2. subst st2.
    cbn [Server.db_of Server.newCount]. now rewrite Hprune.
  - intros src items Hin Hf.
    pose proof (proj1 (SourceFacts.in_enabled_sources u d src) Hin)
      as (Hs & Hu & Hen).
    assert (Hf1 : Server.fetchSource w1 src = Js.Ok items).
    { rewrite <- Hf. symmetry. apply RefetchFacts.fetchSource_ext.
      now apply Hfeeds. }
    apply (RefetchFacts.settled_ext items (Server.existingLinks st1)); [exact Hlinks|].
    apply (Hsettled src items Hin Hf1).
    apply (RefetchFacts.fetchSource_complete w1 src items Hf1).
    intros fed Hfed. now apply (Hwhole src fed).
Qed.

(** ** Adding a source *)

(** X20. POST /api/sources, then the lists. An answer other than 200 leaves
    the database as it was. After a 200 the table has a new row of the
    user with the name, URL and type of the request, enabled, that
    [findById] finds for the user; the user's list of sources and the
    list of feeds a fetch of the user reads are the ones before with that
    row added, and the list of every other user is as before. *)
Theorem X20_added_source_is_listed_and_fetched :
  forall (new_URL : string -> Js.outcome Server.URL)
         (session name url type : option string) (now : string)
         (d : Database.database),
    let r := fst (Server.post_sources new_URL session name url type now d) in
    let d' := snd (Server.post_sources new_URL session name url type now d) in
    (Server.status r <> 200 -> d' = d) /\
    (Server.status r = 200 ->
     exists s,
       session = Some (Database.s_user_id s) /\
       name = Some (Database.s_name s) /\ url = Some (Database.s_url s) /\
       type = Some (Database.s_type s) /\
       Database.s_enabled s = 1%Z /\ Database.s_created_at s = now /\
       let u := Database.s_user_id s in
       Database.sourceQueries.findById (Database.s_id s) u d' = Some s /\
       (forall s0, In s0 (Database.sourceQueries.findByUser u d') <->
                   s0 = s \/ In s0 (Database.sourceQueries.findByUser u d)) /\
       (forall s0, In s0 (Server.enabled_sources u d') <->
                   s0 = s \/ In s0 (Server.enabled_sources u d)) /\
       (forall v, v <> u ->
                  Database.sourceQueries.findByUser v d' =
                  Database.sourceQueries.findByUser v d)).
Proof.
  intros new_URL session name url type now d r d'. subst r d'.
  unfold Server.post_sources.
  destruct (Server.requireAuth session) as [u|] eqn:Hauth;
    [|split; [reflexivity|discriminate]].
  apply ReadFacts.requireAuth_inv in Hauth as [-> Hu].
  destruct (Js.falsy name || Js.falsy url || Js.falsy type);
    [split; [reflexivity|discriminate]|].
  destruct name as [name'|], url as [url'|], type as [type'|];
    try (split; [reflexivity|discriminate]).
  destruct (new_URL url') as [parsed|e]; [|split; [reflexivity|discriminate]].
  destruct (negb _); [split; [reflexivity|discriminate]|].
  destruct (Server.is_private _); [split; [reflexivity|discriminate]|].
  unfold Server.accept_source, Database.sourceQueries.create. cbn [fst snd].
  split; [intros H; now elim H|]. intros _.
  set (id := Sql.next_rowid (Database.seq_sources d)
               (map Database.s_id (Database.sources d))).
  set (s := {| Database.s_id := id; Database.s_user_id := u;
               Database.s_name := name'; Database.s_url := url';
               Database.s_type := type'; Database.s_enabled := 1;
               Database.s_created_at := now |}).
  exists s. repeat (split; [reflexivity|]). cbn zeta.
  change (Database.s_user_id s) with u. change (Database.s_id s) with id.
  assert (Hin : forall s0,
             In s0 (Database.sourceQueries.findByUser u
                      (Database.with_sources (Database.sources d ++ [s]) id d)) <->
             s0 = s \/ In s0 (Database.sourceQueries.findByUser u d)).
  { intros s0. rewrite !ReadFacts.in_findByUser_sources. simpl.
    rewrite in_app_iff. simpl. split.
    - intros [[H|[<-|[]]] Hs0]; auto.
    - intros [->|[H Hs0]]; auto. }
  split; [|split; [exact Hin|split]].
  - unfold Database.sourceQueries.findById. simpl.
    rewrite LookupFacts.find_app.
    replace (find _ (Database.sources d)) with (@None Database.source).
    + simpl. now rewrite Z.eqb_refl, String.eqb_refl.
    + symmetry. apply LookupFacts.find_none_iff. intros s0 Hs0.
      apply andb_false_iff. left. apply Z.eqb_neq.
      pose proof (proj2 (LookupFacts.next_rowid_above (Database.seq_sources d)
                           (map Database.s_id (Database.sources d)))
                    (Database.s_id s0) (in_map _ _ _ Hs0)) as Hlt.
      fold id in Hlt. lia.
  - intros s0. unfold Server.enabled_sources. rewrite !filter_In, Hin.
    split.
    + intros [[->|H] Hen]; auto.
    + intros [->|[H Hen]]; auto.
  - intros v Hv. unfold Database.sourceQueries.findByUser. simpl.
    rewrite filter_app. simpl.
    replace (u =? v)%string with false
      by (symmetry; apply String.eqb_neq; congruence).
    now rewrite app_nil_r.
Qed.

(** ** The list of sources *)

(** X21. The rows GET /api/sources returns are in descending order of
    [created_at]: each row was created no earlier than the row after
    it. *)
Theorem X21_sources_list_is_sorted_newest_first :
  forall (session : option string) (d : Database.database)
         (rows : list Database.source),
    Server.get_sources session d = Server.reply 200 (Server.SourceRows rows) ->
    forall i a b,
      nth_error rows i = Some a -> nth_error rows (S i) = Some b ->
      String.leb (Database.s_created_at b) (Database.s_created_at a) = true.
Proof.
  intros session d rows Hrows. unfold Server.get_sources in Hrows.
  destruct (Server.requireAuth session) as [u|]; [|discriminate].
  injection Hrows as <-.
  apply (ReadFacts.sorted_adjacent
           (fun a b => String.leb (Database.s_created_at b)
                                  (Database.s_created_at a) = true)).
  unfold Database.sourceQueries.findByUser.
  apply (SqlFacts.order_by_sorted
           (fun r1 r2 => String.leb (Database.s_created_at r2)
                                    (Database.s_created_at r1))).
  intros x y. apply String.leb_total.
Qed.

(** ** Requests during a fetch *)

(** X22. While a fetch is suspended at a feed, no other request touches what
    it has in hand: the sources still to read, the set of links and the
    count are the ones it took when it started, whatever is added to or
    deleted from the tables meanwhile, and the flag stays set. A POST
    /api/fetch in that time changes nothing at all. *)
Theorem X22_suspended_fetch_keeps_its_snapshot :
  forall (s : EventLoop.server) (fr : EventLoop.frame),
    EventLoop.reachable s ->
    EventLoop.inflight s = Some fr ->
    forall (w : Server.world) (e : EventLoop.event),
      e <> EventLoop.Settle ->
      EventLoop.inflight (fst (EventLoop.step w e s)) = Some fr /\
      Server.isRunning (EventLoop.proc (fst (EventLoop.step w e s))) = true /\
      (forall session, e = EventLoop.PostFetch session ->
                       fst (EventLoop.step w e s) = s).
Proof.
  intros s fr Hreach Hfr w e He.
  pose proof (GuardFacts.reachable_guard s Hreach) as Hg.
  unfold Wf.guard_inv in Hg. rewrite Hfr in Hg. destruct Hg as [Hrun _].
  destruct e as [email password|email hashed uid now|session
                |new_URL session name url type now|session id|session
                |session|]; cbn [EventLoop.step].
  - destruct (Server.register_check email password _);
      (split; [exact Hfr|split; [exact Hrun|discriminate]]).
  - destruct (Server.register_commit email hashed uid now _).
    split; [exact Hfr|split; [exact Hrun|discriminate]].
  - split; [exact Hfr|split; [exact Hrun|discriminate]].
  - destruct (Server.post_sources new_URL session name url type now _).
    split; [exact Hfr|split; [exact Hrun|discriminate]].
  - destruct (Server.delete_sources session id _).
    split; [exact Hfr|split; [exact Hrun|discriminate]].
  - split; [exact Hfr|split; [exact Hrun|discriminate]].
  - destruct (Server.requireAuth session);
      [unfold EventLoop.enter; rewrite Hrun|];
      (split; [exact Hfr|split; [exact Hrun|reflexivity]]).
  - now elim He.
Qed.

(** ** Items that cannot be stored *)

(** X23. An item that the set of links of the user does not hold ends the
    loop over the items of its source when its insert throws: when its
    title, its link or its date is [undefined], or when some row of the
    table, of whatever user, holds its link. Neither the item nor any
    item after it in the feed is stored, what the fetch has stored
    before stays, and the loop over the sources goes on with the next
    source. *)
Theorem X23_refused_item_ends_the_source :
  forall (w : Server.world) (u : string) (src : Database.source)
         (it : Server.item) (rest : list Server.item) (st : Server.progress),
    Server.has_value (Server.link it) (Server.existingLinks st) = false ->
    (Server.title it = None \/ Server.link it = None \/
     Server.published it = None \/
     exists l a, Server.link it = Some l /\
                 In a (Database.articles (Server.db_of st)) /\
                 Database.a_link a = l) ->
    (exists e, Server.for_items w u src (it :: rest) st = (st, Some e)) /\
    (forall srcs,
        Server.fetchSource w src = Js.Ok (it :: rest) ->
        fold_left (Server.for_source w u) (src :: srcs) st =
        fold_left (Server.for_source w u) srcs st).
Proof.
  intros w u src it rest st Hset Hwhy.
  assert (Href : Schema.refused (Server.title it) (Server.link it)
                   (Server.published it)
                   (map Database.a_link (Database.articles (Server.db_of st)))).
  { unfold Schema.refused.
    destruct (Server.title it); [|exact I].
    destruct (Server.link it) as [l|]; [|exact I].
    destruct (Server.published it); [|exact I].
    destruct Hwhy as [H|[H|[H|(l' & a & Hl & Ha & Hal)]]]; try discriminate.
    injection Hl as <-. rewrite <- Hal. now apply in_map. }
  assert (Hstop : exists e,
             Server.for_items w u src (it :: rest) st = (st, Some e)).
  { cbn [Server.for_items]. rewrite Hset.
    destruct (DatabaseFacts.article_create_throws u (Database.s_id src)
                (Database.s_name src) (Server.title it) (Server.link it)
                (Server.summarizeArticle (Server.content it))
                (Server.published it)
                (Server.datetime_now w (Server.newCount st))
                (Server.db_of st) Href) as [e ->].
    now exists e. }
  split; [exact Hstop|].
  intros srcs Hf. cbn [fold_left]. unfold Server.for_source at 2.
  rewrite Hf. destruct Hstop as [e ->]. reflexivity.
Qed.

(** * The further properties at sample inputs *)

(** [carol] is new to the two users, the email of [alice] is taken. *)
Lemma X1_user_create_witness :
  (exists e,
      Database.userQueries.create "carol" "alice@example.com" "$2a$10$carol"
        "2024-01-03 00:00:00" Samples.two_users = Js.Throw e) /\
  (exists d',
      Database.userQueries.create "carol" "carol@example.com" "$2a$10$carol"
        "2024-01-03 00:00:00" Samples.two_users = Js.Ok d' /\
      Database.userQueries.findById "carol" d' =
      Some {| Database.userQueries.p_id := "carol";
              Database.userQueries.p_email := "carol@example.com";
              Database.userQueries.p_created_at := "2024-01-03 00:00:00" |}).
Proof.
  split.
  - apply (proj1 (X1_user_create_then_lookup "carol" "alice@example.com"
                    "$2a$10$carol" "2024-01-03 00:00:00" Samples.two_users)).
    exists Samples.alice. split; [now left|now right].
  - destruct (proj2 (X1_user_create_then_lookup "carol" "carol@example.com"
                       "$2a$10$carol" "2024-01-03 00:00:00" Samples.two_users))
      as (d' & Hc & _ & _ & Hid & _).
    + intros u [<-|[<-|[]]]; split; discriminate.
    + exists d'. split; [exact Hc|exact Hid].
Defined.

(** Source 1 of [alice] goes, and it is one row. *)
Lemma X3_source_delete_witness :
  Schema.source_ids_unique Samples.two_users /\
  List.length (Database.sources Samples.two_users) <=
  S (List.length
       (Database.sources
          (snd (Database.sourceQueries.delete (Some 1%Z) "alice"
                  Samples.two_users)))) /\
  Database.sourceQueries.findById 2 "bob"
    (snd (Database.sourceQueries.delete (Some 1%Z) "alice" Samples.two_users)) =
  Database.sourceQueries.findById 2 "bob" Samples.two_users.
Proof.
  assert (Hnd : Schema.source_ids_unique Samples.two_users).
  { unfold Schema.source_ids_unique. simpl.
    repeat constructor; simpl; intuition discriminate. }
  destruct (X3_source_delete_then_findById 1%Z "alice" Samples.two_users)
    as (_ & _ & _ & Hother & Hone & _).
  split; [exact Hnd|]. split; [exact (Hone Hnd)|].
  apply Hother. left. discriminate.
Defined.

(** Story 1 is held by [bob]: the insert for [alice] throws. So does the
    insert of a story that has no title. *)
Lemma X5_article_create_witness :
  (exists e,
      Database.articleQueries.create "alice" 1 "Example News" (Some "Story 1")
        (Some "https://news.example/story/1") ""
        (Some "Mon, 01 Jan 2024 10:00:00 GMT")
        "2024-01-02 08:00:00" Samples.bob_has_story_1 = Js.Throw e) /\
  (exists e,
      Database.articleQueries.create "alice" 1 "Example News" None
        (Some "https://news.example/story/2") ""
        (Some "Mon, 01 Jan 2024 10:00:00 GMT")
        "2024-01-02 08:00:00" Samples.bob_has_story_1 = Js.Throw e).
Proof.
  split.
  - apply (proj2 (proj1 (X5_article_create_then_findByLink "alice" 1
                           "Example News" (Some "Story 1")
                           (Some "https://news.example/story/1") ""
                           (Some "Mon, 01 Jan 2024 10:00:00 GMT")
                           "2024-01-02 08:00:00" Samples.bob_has_story_1))).
    right. right. right. eexists. eexists. split; reflexivity.
  - apply (proj2 (proj1 (X5_article_create_then_findByLink "alice" 1
                           "Example News" None
                           (Some "https://news.example/story/2") ""
                           (Some "Mon, 01 Jan 2024 10:00:00 GMT")
                           "2024-01-02 08:00:00" Samples.bob_has_story_1))).
    now left.
Defined.

(** Deleting every article of [bob] leaves [alice] as she was. *)
Lemma X6_deleteOldest_witness :
  Wf.article_ids_unique Samples.bob_has_two /\
  Database.articleQueries.countByUser "bob"
    (Database.articleQueries.deleteOldest "bob" 5 Samples.bob_has_two) = 0 /\
  filter (Database.articleQueries.of_user "alice")
    (Database.articles
       (Database.articleQueries.deleteOldest "bob" 5 Samples.bob_has_two)) =
  filter (Database.articleQueries.of_user "alice")
    (Database.articles Samples.bob_has_two).
Proof.
  assert (Hnd : Wf.article_ids_unique Samples.bob_has_two).
  { unfold Wf.article_ids_unique. simpl.
    repeat constructor; simpl; intuition discriminate. }
  destruct (X6_deleteOldest_edges_and_frame "bob" 5 Samples.bob_has_two)
    as (_ & Hall & _ & Hothers & _).
  split; [exact Hnd|]. split.
  - apply Hall. right. vm_compute. discriminate.
  - apply (Hothers Hnd). discriminate.
Defined.

(** [carol] registers and logs in again, writing her email another way. *)
Lemma X7_register_then_login_witness :
  "carol" <> "" /\
  Fixtures.toy_compare "secret" (Fixtures.toy_hash "secret") = true /\
  Server.status
    (fst (fst (Auth.register (Some "Carol@Example.com") (Some "secret")
                 (Fixtures.toy_hash "secret") "carol" "2024-01-03 00:00:00"
                 Auth.no_session Samples.two_users))) = 200 /\
  fst (Auth.login Fixtures.toy_compare (Some "CAROL@example.com") (Some "secret")
         Auth.no_session
         (snd (Auth.register (Some "Carol@Example.com") (Some "secret")
                 (Fixtures.toy_hash "secret") "carol" "2024-01-03 00:00:00"
                 Auth.no_session Samples.two_users))) =
  Server.reply 200 (Server.Registered "carol" "carol@example.com").
Proof.
  assert (H1 : "carol" <> "") by discriminate.
  assert (H2 : Fixtures.toy_compare "secret" (Fixtures.toy_hash "secret") = true)
    by reflexivity.
  assert (H3 : Server.status
                 (fst (fst (Auth.register (Some "Carol@Example.com")
                              (Some "secret") (Fixtures.toy_hash "secret")
                              "carol" "2024-01-03 00:00:00" Auth.no_session
                              Samples.two_users))) = 200)
    by (vm_compute; reflexivity).
  split; [exact H1|]. split; [exact H2|]. split; [exact H3|].
  destruct (X7_register_then_login Fixtures.toy_compare "Carol@Example.com" "secret"
              (Fixtures.toy_hash "secret") "carol" "2024-01-03 00:00:00"
              Auth.no_session Samples.two_users H1 H2 H3)
    as (_ & _ & Hlogin & _).
  rewrite (Hlogin "CAROL@example.com" Auth.no_session);
    vm_compute; reflexivity.
Defined.

(** A wrong password for [alice] is refused and sets no session. *)
Lemma X8_login_witness :
  Server.status
    (fst (Auth.login Fixtures.toy_compare (Some "alice@example.com")
            (Some "guess") Auth.no_session Samples.two_users)) <> 200 /\
  snd (Auth.login Fixtures.toy_compare (Some "alice@example.com")
         (Some "guess") Auth.no_session Samples.two_users) = Auth.no_session.
Proof.
  assert (H : Server.status
                (fst (Auth.login Fixtures.toy_compare (Some "alice@example.com")
                        (Some "guess") Auth.no_session Samples.two_users)) <> 200)
    by (vm_compute; discriminate).
  split; [exact H|].
  apply (proj2 (X8_login_needs_a_matching_hash Fixtures.toy_compare
                  (Some "alice@example.com") (Some "guess") Auth.no_session
                  Samples.two_users) H).
Defined.

(** A request that carries no session is no user. *)
Lemma X9_unauthenticated_witness :
  Js.falsy None = true /\
  Server.delete_sources None (Some 1%Z) Samples.two_users =
  (Server.not_authenticated, Samples.two_users).
Proof.
  assert (H : Js.falsy None = true) by reflexivity.
  split; [exact H|].
  apply (X9_unauthenticated_requests_change_nothing None H Samples.news
           (fun _ => Js.Throw "Invalid URL") None None None "" (Some 1%Z) None
           (EventLoop.idle Samples.two_users)).
Defined.

(** In production a foreign origin is told the first allowed one. *)
Lemma X10_cors_witness :
  Cors.includes (Some "https://evil.example") = false /\
  Cors.allow_origin
    (fst (Cors.middleware true (Some "https://evil.example") "GET")) =
  "https://shuflov.github.io".
Proof.
  assert (H : Cors.includes (Some "https://evil.example") = false)
    by reflexivity.
  split; [exact H|].
  destruct (X10_cors_origin_in_production (Some "https://evil.example") "GET")
    as (_ & _ & Hprod & _).
  exact (Hprod H).
Defined.

(** A market price of 250.00 and a close of 240.00 before a missing one:
    the previous price falls back to the current one. *)
Lemma X11_quote_witness :
  exists q,
    Stocks.fetchYahooFinance Z Fixtures.truthy Fixtures.is_zero 100%Z
      Z.sub Z.div Z.mul (Some Fixtures.tesla) "2024-01-02T12:00:00.000Z" "TSLA"
    = Some q /\
    Stocks.symbol Z q = "TSLA" /\ Stocks.error Z q = None.
Proof.
  eexists. split; [vm_compute; reflexivity|].
  destruct (X11_quote_needs_two_usable_prices Z Fixtures.truthy Fixtures.is_zero
              100%Z Z.sub Z.div Z.mul (Some Fixtures.tesla)
              "2024-01-02T12:00:00.000Z" "TSLA" _ eq_refl)
    as (r & c & p & _ & _ & _ & _ & _ & _ & Hs & _ & _ & _ & _ & _ & _ & He).
  split; [exact Hs|exact He].
Defined.

(** With prices in cents a price that is not zero is truthy. *)
Lemma X12_market_price_witness :
  (forall x, Fixtures.truthy x = true -> Fixtures.is_zero x = false) /\
  Fixtures.truthy 25000%Z = true /\
  exists q,
    Stocks.fetchYahooFinance Z Fixtures.truthy Fixtures.is_zero 100%Z
      Z.sub Z.div Z.mul (Some Fixtures.tesla) "2024-01-02T12:00:00.000Z" "TSLA"
    = Some q /\
    Stocks.price Z q = 25000%Z /\ Stocks.symbol Z q = "TSLA".
Proof.
  assert (H1 : forall x, Fixtures.truthy x = true -> Fixtures.is_zero x = false).
  { intros x. unfold Fixtures.truthy, Fixtures.is_zero.
    destruct (x =? 0)%Z; [discriminate|reflexivity]. }
  assert (H2 : Fixtures.truthy 25000%Z = true) by reflexivity.
  split; [exact H1|]. split; [exact H2|].
  exact (X12_market_price_is_enough Z Fixtures.truthy Fixtures.is_zero 100%Z
           Z.sub Z.div Z.mul H1 Fixtures.tesla 25000%Z
           "2024-01-02T12:00:00.000Z" "TSLA" eq_refl H2).
Defined.


(** The feed of the JSON-file server lists a post twice: it is stored
    once. *)
Lemma X14_legacy_loop_witness :
  NoDup (map Legacy.j_link
           (fst (Legacy.fetch_loop Fixtures.blog_world [Fixtures.blog] []))) /\
  Legacy.stored (Server.link Fixtures.post)
    (fst (Legacy.fetch_loop Fixtures.blog_world [Fixtures.blog] [])) = true.
Proof.
  destruct (X14_legacy_loop_stores_each_link_once Fixtures.blog_world
              [Fixtures.blog] [])
    as (new & Hrun & Hall & Hnd & _).
  rewrite Hrun. cbn [fst]. split.
  - apply Hnd. constructor.
  - apply (Hall Fixtures.blog [Fixtures.post; Fixtures.post] Fixtures.post);
      [now left|reflexivity|reflexivity|now left].
Defined.

(** The turn in which the fetch of [alice] goes on leaves [bob] alone. *)
Lemma X15_own_fetch_witness :
  Wf.article_ids_unique (Server.db (EventLoop.proc Fixtures.alice_fetching)) /\
  EventLoop.inflight Fixtures.alice_fetching = Some Fixtures.alice_frame /\
  filter (Database.articleQueries.of_user "bob")
    (Database.articles
       (Server.db
          (EventLoop.proc
             (fst (EventLoop.step Samples.news EventLoop.Settle
                     Fixtures.alice_fetching))))) =
  filter (Database.articleQueries.of_user "bob")
    (Database.articles (Server.db (EventLoop.proc Fixtures.alice_fetching))).
Proof.
  assert (Hnd : Wf.article_ids_unique
                  (Server.db (EventLoop.proc Fixtures.alice_fetching)))
    by constructor.
  assert (Hfr : EventLoop.inflight Fixtures.alice_fetching =
                Some Fixtures.alice_frame)
    by (vm_compute; reflexivity).
  split; [exact Hnd|]. split; [exact Hfr|].
  apply (X15_articles_change_only_in_own_fetch Samples.news EventLoop.Settle
           Fixtures.alice_fetching "bob" Hnd).
  - discriminate.
  - intros fr _ H. rewrite Hfr in H. injection H as <-. discriminate.
Defined.

(** The two users, through a fetch of [alice]. *)
Lemma X18_schema_witness :
  Schema.constraints Samples.two_users /\
  Schema.constraints
    (Server.db
       (EventLoop.proc
          (EventLoop.run
             [(Samples.news, EventLoop.PostFetch (Some "alice"));
              (Samples.news, EventLoop.Settle)]
             (EventLoop.idle Samples.two_users)))).
Proof.
  assert (H : Schema.constraints Samples.two_users).
  { unfold Schema.constraints, Schema.user_ids_unique,
      Schema.stored_emails_unique, Schema.source_ids_unique,
      Wf.article_ids_unique, Wf.links_unique.
    simpl. repeat split; repeat constructor; simpl; intuition discriminate. }
  split; [exact H|].
  apply (X18_schema_constraints_hold_in_every_run
           [(Samples.news, EventLoop.PostFetch (Some "alice"));
            (Samples.news, EventLoop.Settle)]
           (EventLoop.idle Samples.two_users) H).
Defined.

(** [alice] fetches her feed of two stories twice. *)
Lemma X19_second_fetch_witness :
  Forall Schema.complete_item Samples.feed /\
  Database.articleQueries.countByUser "alice"
    (Server.after_insertions Samples.news "alice" Samples.two_users)
  <= Server.MAX_ARTICLES /\
  fst (Server.fetchArticles Samples.news "alice"
         (snd (Server.fetchArticles Samples.news "alice"
                 {| Server.isRunning := false; Server.db := Samples.two_users |})))
  = {| Server.success := true;
       Server.message := "Fetched 0 new articles. Total: 2" |}.
Proof.
  assert (Hfeed : Forall Schema.complete_item Samples.feed).
  { constructor; [|constructor; [|constructor]]; intros _; split; discriminate. }
  assert (Hw : forall s fed,
             In s (Database.sources Samples.two_users) ->
             Database.s_user_id s = "alice" -> Database.s_enabled s <> 0%Z ->
             Server.parseURL Samples.news (Database.s_url s) = Js.Ok fed ->
             Forall Schema.complete_item fed).
  { intros s fed [<-|[<-|[<-|[]]]] Hu Hen Hp.
    - injection Hp as <-. exact Hfeed.
    - discriminate Hu.
    - now elim Hen. }
  assert (Hc : Database.articleQueries.countByUser "alice"
                 (Server.after_insertions Samples.news "alice" Samples.two_users)
               <= Server.MAX_ARTICLES)
    by (apply Nat.leb_le; vm_compute; reflexivity).
  split; [exact Hfeed|]. split; [exact Hc|].
  rewrite (X19_second_fetch_adds_nothing Samples.news Samples.news "alice"
             Samples.two_users eq_refl eq_refl (fun s _ _ _ => eq_refl) Hw Hc).
  vm_compute. reflexivity.
Defined.

(** Why the items must be whole. The feed read first gives story 1
    without its title, and story 2 after it; the other feed gives story 1.
    The first fetch stops in the first feed at the item without a title
    and stores story 1 from the other; the second fetch then skips that
    item for its link and stores story 2. *)
Example second_fetch_after_an_untitled_item :
  Server.message
    (fst (Server.fetchArticles Fixtures.untitled "alice"
            (Samples.at_rest Fixtures.two_feeds))) =
  "Fetched 1 new articles. Total: 1" /\
  Server.message
    (fst (Server.fetchArticles Fixtures.untitled "alice"
            (snd (Server.fetchArticles Fixtures.untitled "alice"
                    (Samples.at_rest Fixtures.two_feeds))))) =
  "Fetched 1 new articles. Total: 2".
Proof. split; vm_compute; reflexivity. Qed.

(** [bob] adds a second feed; his next fetch reads it. *)
Lemma X20_added_source_witness :
  Server.status
    (fst (Server.post_sources
            (fun _ => Js.Ok {| Server.protocol := "https:";
                               Server.hostname := "other.example" |})
            (Some "bob") (Some "Other") (Some "https://other.example/rss")
            (Some "rss") "2024-01-03 00:00:00" Samples.two_users)) = 200 /\
  exists s,
    In s (Server.enabled_sources "bob"
            (snd (Server.post_sources
                    (fun _ => Js.Ok {| Server.protocol := "https:";
                                       Server.hostname := "other.example" |})
                    (Some "bob") (Some "Other") (Some "https://other.example/rss")
                    (Some "rss") "2024-01-03 00:00:00" Samples.two_users))) /\
    Database.s_url s = "https://other.example/rss".
Proof.
  assert (H : Server.status
                (fst (Server.post_sources
                        (fun _ => Js.Ok {| Server.protocol := "https:";
                                           Server.hostname := "other.example" |})
                        (Some "bob") (Some "Other")
                        (Some "https://other.example/rss") (Some "rss")
                        "2024-01-03 00:00:00" Samples.two_users)) = 200)
    by (vm_compute; reflexivity).
  split; [exact H|].
  destruct (proj2 (X20_added_source_is_listed_and_fetched
                     (fun _ => Js.Ok {| Server.protocol := "https:";
                                        Server.hostname := "other.example" |})
                     (Some "bob") (Some "Other")
                     (Some "https://other.example/rss") (Some "rss")
                     "2024-01-03 00:00:00" Samples.two_users) H)
    as (s & Hu & _ & Hurl & _ & _ & _ & _ & _ & Hen & _).
  injection Hu as Hu. injection Hurl as Hurl.
  exists s. split; [|now symmetry].
  rewrite <- Hu in Hen. apply (proj2 (Hen s)). now left.
Defined.

(** [alice] deletes her source while her fetch awaits it: the fetch still
    has it in hand. *)
Lemma X22_snapshot_witness :
  EventLoop.reachable Fixtures.alice_fetching /\
  EventLoop.inflight Fixtures.alice_fetching = Some Fixtures.alice_frame /\
  Database.sourceQueries.findById 1 "alice"
    (Server.db
       (EventLoop.proc
          (fst (EventLoop.step Samples.news
                  (EventLoop.DeleteSource (Some "alice") (Some 1%Z))
                  Fixtures.alice_fetching)))) = None /\
  EventLoop.inflight
    (fst (EventLoop.step Samples.news
            (EventLoop.DeleteSource (Some "alice") (Some 1%Z))
            Fixtures.alice_fetching)) = Some Fixtures.alice_frame.
Proof.
  assert (Hr : EventLoop.reachable Fixtures.alice_fetching).
  { exists Samples.two_users,
      [(Samples.news, EventLoop.PostFetch (Some "alice"))]. reflexivity. }
  assert (Hfr : EventLoop.inflight Fixtures.alice_fetching =
                Some Fixtures.alice_frame)
    by (vm_compute; reflexivity).
  split; [exact Hr|]. split; [exact Hfr|]. split; [vm_compute; reflexivity|].
  apply (X22_suspended_fetch_keeps_its_snapshot Fixtures.alice_fetching
           Fixtures.alice_frame Hr Hfr Samples.news
           (EventLoop.DeleteSource (Some "alice") (Some 1%Z))).
  discriminate.
Defined.

(** The muted source of [alice] was created last and comes first. *)
Lemma X21_sources_sorted_witness :
  Server.get_sources (Some "alice") Samples.two_users =
  Server.reply 200 (Server.SourceRows [Samples.alice_muted; Samples.alice_source]) /\
  String.leb (Database.s_created_at Samples.alice_source)
             (Database.s_created_at Samples.alice_muted) = true.
Proof.
  assert (H : Server.get_sources (Some "alice") Samples.two_users =
              Server.reply 200
                (Server.SourceRows [Samples.alice_muted; Samples.alice_source]))
    by (vm_compute; reflexivity).
  split; [exact H|].
  apply (X21_sources_list_is_sorted_newest_first (Some "alice") Samples.two_users
           [Samples.alice_muted; Samples.alice_source] H 0);
    reflexivity.
Defined.

(** Letters beyond A to Z. The email is stored in small letters, the same
    email in small letters is taken, and a login under the capital
    spelling finds the user. The multiplication sign, which lies among
    the capital letters of Latin-1, stays as it is. *)
Example accented_emails_are_one :
  Js.toLowerCase Fixtures.Eric = Fixtures.eric /\
  map Database.u_email (Database.users Fixtures.eric_registered) =
  [Fixtures.eric] /\
  Server.post_register (Some Fixtures.eric) (Some "other") "$2a$10$x" "lx2"
    "2024-01-01 00:00:09" Fixtures.eric_registered =
  (Server.reply 400 (Server.Error "Email already exists"),
   Fixtures.eric_registered) /\
  fst (Auth.login Fixtures.toy_compare (Some Fixtures.Eric) (Some "secret")
         Auth.no_session Fixtures.eric_registered) =
  Server.reply 200 (Server.Registered "lx1" Fixtures.eric) /\
  Js.toLowerCase (String (ascii_of_nat 215) "") = String (ascii_of_nat 215) "".
Proof. repeat split; vm_compute; reflexivity. Qed.

(** What the answers say after a write. [alice] deletes her own source:
    the row is gone, and the answer is 404, since [changes] is read from
    the connection that [saveDatabase] has renewed. For the same reason
    a source that is accepted is answered with the id 0, whatever id its
    row has. *)
Example answers_after_saveDatabase :
  Server.delete_sources (Some "alice") (Some 1%Z) Samples.two_users =
  (Server.reply 404 (Server.Error "Source not found"),
   Database.with_sources [Samples.bob_source; Samples.alice_muted] 3
     Samples.two_users) /\
  fst (Server.accept_source "alice" "Other" "https://other.example/rss" "rss"
         "2024-01-03 00:00:00" Samples.two_users) =
  Server.reply 200 (Server.Created 0) /\
  map Database.s_id
    (Database.sources
       (snd (Server.accept_source "alice" "Other" "https://other.example/rss"
               "rss" "2024-01-03 00:00:00" Samples.two_users))) =
  [1%Z; 2%Z; 3%Z; 4%Z].
Proof. repeat split; vm_compute; reflexivity. Qed.

(** Story 1 without its title is not stored, and story 2 after it is not
    tried. *)
Lemma X23_refused_item_witness :
  Server.has_value (Server.i_link Fixtures.untitled_story) [] = false /\
  exists e,
    Server.for_items Fixtures.untitled "alice" Fixtures.alice_second
      [{| Server.title := None;
          Server.link := Some "https://news.example/story/1";
          Server.published := Some "Mon, 01 Jan 2024 10:00:00 GMT";
          Server.content := Some "" |};
       {| Server.title := Some "Story 2";
          Server.link := Some "https://news.example/story/2";
          Server.published := Some "Mon, 01 Jan 2024 10:00:00 GMT";
          Server.content := Some "" |}]
      {| Server.db_of := Fixtures.two_feeds; Server.existingLinks := [];
         Server.newCount := 0 |} =
    ({| Server.db_of := Fixtures.two_feeds; Server.existingLinks := [];
        Server.newCount := 0 |}, Some e).
Proof.
  assert (H : Server.has_value (Server.i_link Fixtures.untitled_story) [] = false)
    by reflexivity.
  split; [exact H|].
  apply (X23_refused_item_ends_the_source Fixtures.untitled "alice"
           Fixtures.alice_second
           {| Server.title := None;
              Server.link := Some "https://news.example/story/1";
              Server.published := Some "Mon, 01 Jan 2024 10:00:00 GMT";
              Server.content := Some "" |}
           [{| Server.title := Some "Story 2";
               Server.link := Some "https://news.example/story/2";
               Server.published := Some "Mon, 01 Jan 2024 10:00:00 GMT";
               Server.content := Some "" |}]
           {| Server.db_of := Fixtures.two_feeds; Server.existingLinks := [];
              Server.newCount := 0 |} H).
  now left.
Defined.
